(** * PhysicsConfettiEngine: a shallow embedding of [src/PhysicsConfettiEngine.ts]

    The engine keeps a map of live particles, a list of attractors, a fluid
    grid and a flow field.  [celebrate] runs one of twelve recipes, each of
    which spawns particles and configures the fields; [animate] is the
    per-frame tick; [clear] and [setEnabled] reset the session.

    Conventions of the embedding:
    - a JavaScript [number] is a real number ([R]); particle counts and
      identifiers, which the program only ever uses at natural values, are
      [nat];
    - [Math.random()] reads the next value of a stream [rnd] carried by the
      state, in the order in which the program evaluates its calls;
    - [setTimeout] and [requestAnimationFrame] append to queues owned by the
      host; a delayed callback is a value of [TimerCallback] that records
      what its closure captured;
    - the fluid grid and the flow field come from the [@buley/hexgrid-3d]
      package: they are taken through the interfaces [StableFluids] and
      [FlowField2D], which list the methods that the engine calls;
    - drawing on the canvas does not change the engine: [render] is a
      function from the state to the list of calls that it makes on the 2D
      context;
    - of [src/ConfettiService.ts] the file embeds the path that leads to the
      engine; the presets that draw with the canvas-confetti package are a
      parameter of [svc_celebrate]. *)

From Stdlib Require Import Reals Lra Lia Sorted.
From stdpp Require Import gmap strings list fin_maps.

(** ** Comparisons on numbers *)

Definition Rltb (a b : R) : bool := if Rlt_dec a b then true else false.
Definition Rleb (a b : R) : bool := if Rle_dec a b then true else false.
Definition Rgtb (a b : R) : bool := Rltb b a.

(** [Math.ceil] *)
Definition Rceil (a : R) : R := (- (IZR (up (- a)) - 1))%R.

(** ** Data model *)

Inductive Shape := square | circle | star | heart | hexagon | spiral.

Record TrailPoint := { tp_x : R; tp_y : R; tp_opacity : R }.

(** [interface PhysicsParticle] *)
Record PhysicsParticle := {
  p_id : nat;
  p_x : R;
  p_y : R;
  p_vx : R;
  p_vy : R;
  p_ax : R;
  p_ay : R;
  p_size : R;
  p_rotation : R;
  p_rotationVelocity : R;
  p_color : string;
  p_opacity : R;
  p_life : R;
  p_maxLife : R;
  p_mass : R;
  p_shape : Shape;
  p_trail : list TrailPoint;
  p_pulsePhase : R;
  p_spiralAngle : option R
}.

(** [Partial<PhysicsParticle>] as [addParticle] reads it: every field it
    looks at may be absent. *)
Record ParticleConfig := {
  c_x : option R;
  c_y : option R;
  c_vx : option R;
  c_vy : option R;
  c_color : option string;
  c_size : option R;
  c_life : option R;
  c_shape : option Shape;
  c_mass : option R;
  c_pulsePhase : option R;
  c_spiralAngle : option R
}.

Inductive AttractorType := pull | push | orbit | vortex.

(** [interface Attractor] *)
Record Attractor := {
  a_x : R;
  a_y : R;
  a_strength : R;
  a_radius : R;
  a_type : AttractorType
}.

(** The parameters that [createHarmony] attaches to the engine as
    [lissajous]. *)
Record LissajousParams := {
  freqX : R;
  freqY : R;
  phaseX : R;
  phaseY : R
}.

(** [type PhysicsCelebrationType] *)
Inductive PhysicsCelebrationType :=
| Vortex | Supernova | Aurora | Resonance | Orbit | Cascade
| Emergence | Harmony | Helix | Bloom | Constellation | Nebula.

Record EmotionContext := {
  valence : R;
  arousal : R;
  dominantEmotion : option string
}.

(** [interface PhysicsCelebrationConfig].  At run time [type] is whatever
    string the caller passed, so it is kept as a string here. *)
Record PhysicsCelebrationConfig := {
  cfg_type : string;
  cfg_origin : option (R * R);
  cfg_count : option nat;
  cfg_colors : option (list string);
  cfg_intensity : option R;
  cfg_heartRate : option R;
  cfg_emotionContext : option EmotionContext
}.

(** What the closure passed to [setTimeout] does, with the values it
    captured. *)
Inductive TimerCallback :=
| SupernovaSecondary (x y : R) (count : nat) (colors : list string) (intensity : R)
| ResonancePulse (x y : R)
| CascadeSpawn (width : R) (colors : list string)
| EmergenceSpawn (x y : R) (i : nat) (colors : list string).

Record Timer := { t_delay : R; t_callback : TimerCallback }.

(** ** The field library *)

(** The methods of [StableFluids] that the engine calls. *)
Class StableFluids := {
  fluid_t : Type;
  fluid_new : R -> R -> R -> R -> fluid_t;
  fluid_addForce : R -> R -> R -> R -> R -> fluid_t -> fluid_t;
  fluid_addDensity : R -> R -> R -> R -> fluid_t -> fluid_t;
  fluid_getVelocity : fluid_t -> R -> R -> R * R;
  fluid_step : R -> fluid_t -> fluid_t;
  fluid_clear : fluid_t -> fluid_t
}.

(** The methods of [FlowField2D] that the engine calls. *)
Class FlowField2D := {
  flow_t : Type;
  flow_new : R -> R -> R -> flow_t;
  flow_addSource : R -> R -> R -> R -> R -> flow_t -> flow_t;
  flow_sample : flow_t -> R -> R -> R * R;
  flow_update : R -> flow_t -> flow_t;
  flow_clear : flow_t -> flow_t
}.

(** A stand-in for the library that only records the calls it receives and
    samples a field at rest. *)
Inductive FieldCall :=
| CallAddForce (x y fx fy radius : R)
| CallAddDensity (x y amount radius : R)
| CallAddSource (x y vx vy radius : R)
| CallStep (dt : R)
| CallClear.

Definition LoggedFluids : StableFluids := {|
  fluid_t := list FieldCall;
  fluid_new := fun _ _ _ _ => [];
  fluid_addForce := fun x y fx fy r f => f ++ [CallAddForce x y fx fy r];
  fluid_addDensity := fun x y a r f => f ++ [CallAddDensity x y a r];
  fluid_getVelocity := fun _ _ _ => (0%R, 0%R);
  fluid_step := fun dt f => f ++ [CallStep dt];
  fluid_clear := fun _ => [CallClear]
|}.

Definition LoggedFlow : FlowField2D := {|
  flow_t := list FieldCall;
  flow_new := fun _ _ _ => [];
  flow_addSource := fun x y vx vy r f => f ++ [CallAddSource x y vx vy r];
  flow_sample := fun _ _ _ => (0%R, 0%R);
  flow_update := fun dt f => f ++ [CallStep dt];
  flow_clear := fun _ => [CallClear]
|}.

(** ** Engine and host state *)

Section Definitions.
Context {SF : StableFluids} {FF : FlowField2D}.

Local Open Scope R_scope.

(** The private fields of [class PhysicsConfettiEngine] (the canvas apart),
    followed by what the host keeps for it: the viewport size, the pending
    [setTimeout] callbacks, the pending animation-frame requests and the
    random stream. *)
Record World := {
  particles : gmap nat PhysicsParticle;
  attractors : list Attractor;
  fluid : option fluid_t;
  flowField : option flow_t;
  animationId : option nat;
  time : R;
  particleIdCounter : nat;
  enabled : bool;
  prefersReducedMotion : bool;
  lissajous : option (list LissajousParams);
  innerWidth : R;
  innerHeight : R;
  timers : list Timer;
  rafQueue : list nat;
  rafNext : nat;
  rnd : nat -> R;
  rndPos : nat
}.

Definition set_particles (v : gmap nat PhysicsParticle) (w : World) : World :=
  Build_World v (attractors w) (fluid w) (flowField w) (animationId w) (time w)
    (particleIdCounter w) (enabled w) (prefersReducedMotion w) (lissajous w)
    (innerWidth w) (innerHeight w) (timers w) (rafQueue w) (rafNext w) (rnd w) (rndPos w).

Definition set_attractors (v : list Attractor) (w : World) : World :=
  Build_World (particles w) v (fluid w) (flowField w) (animationId w) (time w)
    (particleIdCounter w) (enabled w) (prefersReducedMotion w) (lissajous w)
    (innerWidth w) (innerHeight w) (timers w) (rafQueue w) (rafNext w) (rnd w) (rndPos w).

Definition set_fluid (v : option fluid_t) (w : World) : World :=
  Build_World (particles w) (attractors w) v (flowField w) (animationId w) (time w)
    (particleIdCounter w) (enabled w) (prefersReducedMotion w) (lissajous w)
    (innerWidth w) (innerHeight w) (timers w) (rafQueue w) (rafNext w) (rnd w) (rndPos w).

Definition set_flowField (v : option flow_t) (w : World) : World :=
  Build_World (particles w) (attractors w) (fluid w) v (animationId w) (time w)
    (particleIdCounter w) (enabled w) (prefersReducedMotion w) (lissajous w)
    (innerWidth w) (innerHeight w) (timers w) (rafQueue w) (rafNext w) (rnd w) (rndPos w).

Definition set_animationId (v : option nat) (w : World) : World :=
  Build_World (particles w) (attractors w) (fluid w) (flowField w) v (time w)
    (particleIdCounter w) (enabled w) (prefersReducedMotion w) (lissajous w)
    (innerWidth w) (innerHeight w) (timers w) (rafQueue w) (rafNext w) (rnd w) (rndPos w).

Definition set_time (v : R) (w : World) : World :=
  Build_World (particles w) (attractors w) (fluid w) (flowField w) (animationId w) v
    (particleIdCounter w) (enabled w) (prefersReducedMotion w) (lissajous w)
    (innerWidth w) (innerHeight w) (timers w) (rafQueue w) (rafNext w) (rnd w) (rndPos w).

Definition set_particleIdCounter (v : nat) (w : World) : World :=
  Build_World (particles w) (attractors w) (fluid w) (flowField w) (animationId w) (time w)
    v (enabled w) (prefersReducedMotion w) (lissajous w)
    (innerWidth w) (innerHeight w) (timers w) (rafQueue w) (rafNext w) (rnd w) (rndPos w).

Definition set_enabled (v : bool) (w : World) : World :=
  Build_World (particles w) (attractors w) (fluid w) (flowField w) (animationId w) (time w)
    (particleIdCounter w) v (prefersReducedMotion w) (lissajous w)
    (innerWidth w) (innerHeight w) (timers w) (rafQueue w) (rafNext w) (rnd w) (rndPos w).

Definition set_prefersReducedMotion (v : bool) (w : World) : World :=
  Build_World (particles w) (attractors w) (fluid w) (flowField w) (animationId w) (time w)
    (particleIdCounter w) (enabled w) v (lissajous w)
    (innerWidth w) (innerHeight w) (timers w) (rafQueue w) (rafNext w) (rnd w) (rndPos w).

Definition set_lissajous (v : option (list LissajousParams)) (w : World) : World :=
  Build_World (particles w) (attractors w) (fluid w) (flowField w) (animationId w) (time w)
    (particleIdCounter w) (enabled w) (prefersReducedMotion w) v
    (innerWidth w) (innerHeight w) (timers w) (rafQueue w) (rafNext w) (rnd w) (rndPos w).

Definition set_timers (v : list Timer) (w : World) : World :=
  Build_World (particles w) (attractors w) (fluid w) (flowField w) (animationId w) (time w)
    (particleIdCounter w) (enabled w) (prefersReducedMotion w) (lissajous w)
    (innerWidth w) (innerHeight w) v (rafQueue w) (rafNext w) (rnd w) (rndPos w).

Definition set_raf (q : list nat) (n : nat) (w : World) : World :=
  Build_World (particles w) (attractors w) (fluid w) (flowField w) (animationId w) (time w)
    (particleIdCounter w) (enabled w) (prefersReducedMotion w) (lissajous w)
    (innerWidth w) (innerHeight w) (timers w) q n (rnd w) (rndPos w).

Definition set_rndPos (v : nat) (w : World) : World :=
  Build_World (particles w) (attractors w) (fluid w) (flowField w) (animationId w) (time w)
    (particleIdCounter w) (enabled w) (prefersReducedMotion w) (lissajous w)
    (innerWidth w) (innerHeight w) (timers w) (rafQueue w) (rafNext w) (rnd w) v.

(** ** Methods as state transformers *)

Definition M (A : Type) : Type := World -> A * World.

#[global] Instance M_ret : MRet M := fun A a w => (a, w).
#[global] Instance M_bind : MBind M :=
  fun A B f m w => let '(a, w') := m w in f a w'.

Definition exec {A} (m : M A) (w : World) : World := (m w).2.

Definition modify (f : World -> World) : M unit := fun w => (tt, f w).

(** Reading a field of the engine or of [window]. *)
Definition get {A} (field : World -> A) : M A := fun w => (field w, w).

Fixpoint for_each {A} (l : list A) (body : A -> M unit) : M unit :=
  match l with
  | [] => mret tt
  | a :: l' => body a ;; for_each l' body
  end.

(** [Math.random()] *)
Definition random : M R :=
  fun w => (rnd w (rndPos w), set_rndPos (S (rndPos w)) w).

(** [setTimeout(callback, delay)]; the engine drops the handle. *)
Definition setTimeout (cb : TimerCallback) (delay : R) : M unit :=
  modify (fun w => set_timers (timers w ++ [Build_Timer delay cb]) w).

(** [requestAnimationFrame(this.animate)] *)
Definition requestAnimationFrame : M nat :=
  fun w => (rafNext w, set_raf (rafQueue w ++ [rafNext w]) (S (rafNext w)) w).

(** [cancelAnimationFrame(id)] *)
Definition cancelAnimationFrame (i : nat) : M unit :=
  modify (fun w => set_raf (filter (fun j => j ≠ i) (rafQueue w)) (rafNext w) w).

(** [if (this.fluid) { ... }] and [if (this.flowField) { ... }] around a
    block that only calls methods of the field. *)
Definition with_fluid (f : fluid_t -> fluid_t) : M unit :=
  modify (fun w => set_fluid (f <$> fluid w) w).

Definition with_flowField (f : flow_t -> flow_t) : M unit :=
  modify (fun w => set_flowField (f <$> flowField w) w).

Definition push_attractor (a : Attractor) : M unit :=
  modify (fun w => set_attractors (attractors w ++ [a]) w).

(** The indices visited by [for (let i = 0; i < bound; i++)] when [bound]
    is a number; [fuel] bounds the number of rounds. *)
Fixpoint count_up (fuel i : nat) (bound : R) : list nat :=
  match fuel with
  | O => []
  | S fuel' =>
      if Rltb (INR i) bound then i :: count_up fuel' (S i) bound else []
  end.

(** The values visited by
    [for (let angle = start; angle < bound; angle += step)]. *)
Fixpoint angles_below (fuel : nat) (angle step bound : R) : list R :=
  match fuel with
  | O => []
  | S fuel' =>
      if Rltb angle bound then angle :: angles_below fuel' (angle + step) step bound
      else []
  end.

(** [colors[i % colors.length]]: [undefined] on an empty palette. *)
Definition color_at (colors : list string) (i : nat) : option string :=
  colors !! (i mod length colors)%nat.

(** [Math.floor] of a number used as an index. *)
Definition floor_index (a : R) : nat := Z.to_nat (up a - 1).

(** Configuration values *)
Definition gravity : R := 0.15.
Definition drag : R := 0.98.
Definition fluidInfluence : R := 0.5.
Definition trailLength : nat := 8.

(** ** Particle management *)

(** [addParticle(config)] *)
Definition addParticle (config : ParticleConfig) : M unit :=
  i ← get particleIdCounter;
  modify (set_particleIdCounter (S i));;
  r_rotation ← random;
  r_rotationVelocity ← random;
  pulse ← match c_pulsePhase config with
          | Some v => mret v
          | None => r ← random; mret (r * PI * 2)
          end;
  let particle := {|
    p_id := i;
    p_x := default 0 (c_x config);
    p_y := default 0 (c_y config);
    p_vx := default 0 (c_vx config);
    p_vy := default 0 (c_vy config);
    p_ax := 0;
    p_ay := 0;
    p_size := default 8 (c_size config);
    p_rotation := r_rotation * PI * 2;
    p_rotationVelocity := (r_rotationVelocity - 0.5) * 0.2;
    p_color := default "#10b981"%string (c_color config);
    p_opacity := 1;
    p_life := default 150 (c_life config);
    p_maxLife := default 150 (c_life config);
    p_mass := default 1 (c_mass config);
    p_shape := default square (c_shape config);
    p_trail := [];
    p_pulsePhase := pulse;
    p_spiralAngle := c_spiralAngle config
  |} in
  modify (fun w => set_particles (<[i := particle]> (particles w)) w).

(** The object literal that most recipes pass to [addParticle]. *)
Definition particle_config (x y vx vy : R) (color : option string)
    (size life : R) (shape : Shape) (mass : R) : ParticleConfig :=
  {| c_x := Some x; c_y := Some y; c_vx := Some vx; c_vy := Some vy;
     c_color := color; c_size := Some size; c_life := Some life;
     c_shape := Some shape; c_mass := Some mass;
     c_pulsePhase := None; c_spiralAngle := None |}.

(** One round of the attractor loop of [updateParticle]: the acceleration
    [(ax, ay)] after the attractor has been applied to a particle at
    [(px, py)]. *)
Definition apply_attractor (px py : R) (acc : R * R) (attractor : Attractor) : R * R :=
  let '(ax, ay) := acc in
  let dx := a_x attractor - px in
  let dy := a_y attractor - py in
  let dist := sqrt (dx * dx + dy * dy) in
  if Rltb dist (a_radius attractor) && Rgtb dist 0.1 then
    let falloff := 1 - dist / a_radius attractor in
    let forceMag :=
      (a_strength attractor * falloff * falloff) / (dist * dist + 100) in
    match a_type attractor with
    | pull => (ax + (dx / dist) * forceMag, ay + (dy / dist) * forceMag)
    | push => (ax - (dx / dist) * forceMag, ay - (dy / dist) * forceMag)
    | orbit =>
        let perpX := - dy / dist in
        let perpY := dx / dist in
        (ax + perpX * forceMag * 0.7 + (dx / dist) * forceMag * 0.3,
         ay + perpY * forceMag * 0.7 + (dy / dist) * forceMag * 0.3)
    | vortex =>
        let perpX := - dy / dist in
        let perpY := dx / dist in
        (ax + perpX * forceMag * 0.8 + (dx / dist) * forceMag * 0.5,
         ay + perpY * forceMag * 0.8 + (dy / dist) * forceMag * 0.5)
    end
  else (ax, ay).

(** [trail.unshift(point)] followed by [pop()] when the trail is too long. *)
Definition push_trail (pt : TrailPoint) (trail : list TrailPoint) : list TrailPoint :=
  let trail' := pt :: trail in
  if (trailLength <? length trail')%nat then removelast trail' else trail'.

(** [updateParticle(particle, dt)]: the particle after the update, in an
    engine whose state is [w]. *)
Definition updateParticle (w : World) (particle : PhysicsParticle) (dt : R) : PhysicsParticle :=
  let trail :=
    if (0 <? trailLength)%nat then
      push_trail {| tp_x := p_x particle; tp_y := p_y particle;
                    tp_opacity := p_opacity particle |} (p_trail particle)
    else p_trail particle in
  let '(ax, ay) :=
    foldl (apply_attractor (p_x particle) (p_y particle))
      (0, gravity * p_mass particle) (attractors w) in
  let '(vx1, vy1) :=
    match fluid w with
    | Some f =>
        if Rgtb fluidInfluence 0 then
          let fluidVel := fluid_getVelocity f (p_x particle / 20) (p_y particle / 20) in
          (p_vx particle + fluidVel.1 * fluidInfluence * dt,
           p_vy particle + fluidVel.2 * fluidInfluence * dt)
        else (p_vx particle, p_vy particle)
    | None => (p_vx particle, p_vy particle)
    end in
  let '(vx2, vy2) :=
    match flowField w with
    | Some ff =>
        let flowVel := flow_sample ff (p_x particle) (p_y particle) in
        (vx1 + flowVel.1 * 0.1 * dt, vy1 + flowVel.2 * 0.1 * dt)
    | None => (vx1, vy1)
    end in
  let vx := (vx2 + ax * dt) * drag in
  let vy := (vy2 + ay * dt) * drag in
  let life := p_life particle - dt in
  let lifeRatio := life / p_maxLife particle in
  let pulseScale := 1 + sin (time w * 0.1 + p_pulsePhase particle) * 0.15 in
  {| p_id := p_id particle;
     p_x := p_x particle + vx * dt;
     p_y := p_y particle + vy * dt;
     p_vx := vx;
     p_vy := vy;
     p_ax := ax;
     p_ay := ay;
     p_size :=
       p_size particle *
       (pulseScale /
        (pulseScale - 0.15 * sin (time w * 0.1 + p_pulsePhase particle - 0.1)));
     p_rotation := p_rotation particle + p_rotationVelocity particle;
     p_rotationVelocity := p_rotationVelocity particle;
     p_color := p_color particle;
     p_opacity := Rmin 1 (lifeRatio * 2);
     p_life := life;
     p_maxLife := p_maxLife particle;
     p_mass := p_mass particle;
     p_shape := p_shape particle;
     p_trail := trail;
     p_pulsePhase := p_pulsePhase particle;
     p_spiralAngle := (fun a => a + 0.02) <$> p_spiralAngle particle |}.

(** ** Celebration recipes *)

(** The swirl that [createVortex] adds to the fluid. *)
Definition vortex_swirl (x y intensity : R) (f : fluid_t) : fluid_t :=
  let gridX := x / 20 in
  let gridY := y / 20 in
  fluid_addForce gridX gridY 0 (-50 * intensity) 10 f.

(** [createVortex] *)
Definition createVortex (x y : R) (count : nat) (colors : list string)
    (intensity : R) : M unit :=
  push_attractor {| a_x := x; a_y := y; a_strength := 200 * intensity;
                    a_radius := 400; a_type := vortex |};;
  with_fluid (vortex_swirl x y intensity);;
  for_each (seq 0 count) (fun i =>
    r_angle ← random;
    let angle := (INR i / INR count) * PI * 2 + r_angle * 0.3 in
    r_radius ← random;
    let radius := 150 + r_radius * 200 in
    let px := x + cos angle * radius in
    let py := y + sin angle * radius in
    let tangentAngle := angle + PI / 2 in
    r_speed ← random;
    let speed := 3 + r_speed * 3 in
    r_size ← random;
    r_life ← random;
    r_shape ← random;
    addParticle
      (particle_config px py (cos tangentAngle * speed) (sin tangentAngle * speed)
         (color_at colors i) (6 + r_size * 8) (200 + r_life * 150)
         (if Rgtb r_shape 0.7 then star else square) 1)).

(** The body of the callback that [createSupernova] delays by 100 ms. *)
Definition supernovaSecondary (x y : R) (count : nat) (colors : list string)
    (intensity : R) : M unit :=
  for_each (count_up count 0 (INR count * 0.4)) (fun i =>
    r_angle ← random;
    let angle := r_angle * PI * 2 in
    r_speed ← random;
    let speed := (5 + r_speed * 10) * intensity in
    r_size ← random;
    r_life ← random;
    addParticle
      (particle_config x y (cos angle * speed) (sin angle * speed)
         (color_at colors (i + 2)) (8 + r_size * 10) (150 + r_life * 100)
         star 1.5)).

(** The shockwave that [createSupernova] adds to the fluid. *)
Definition supernova_shockwave (x y intensity : R) (f : fluid_t) : fluid_t :=
  let gridX := x / 20 in
  let gridY := y / 20 in
  let f' :=
    foldl (fun f angle =>
             fluid_addForce gridX gridY (cos angle * 100 * intensity)
               (sin angle * 100 * intensity) 5 f)
      f (angles_below 32 0 (PI / 8) (PI * 2)) in
  fluid_addDensity gridX gridY (100 * intensity) 5 f'.

(** [createSupernova] *)
Definition createSupernova (x y : R) (count : nat) (colors : list string)
    (intensity : R) : M unit :=
  with_fluid (supernova_shockwave x y intensity);;
  for_each (count_up count 0 (INR count * 0.6)) (fun i =>
    r_angle ← random;
    let angle := r_angle * PI * 2 in
    r_speed ← random;
    let speed := (15 + r_speed * 20) * intensity in
    r_size ← random;
    r_life ← random;
    addParticle
      (particle_config x y (cos angle * speed) (sin angle * speed)
         (color_at colors i) (4 + r_size * 6) (80 + r_life * 60) circle 0.5));;
  setTimeout (SupernovaSecondary x y count colors intensity) 100.

(** The wave sources that [createAurora] gives to the flow field. *)
Definition aurora_waves (height intensity : R) (ff : flow_t) : flow_t :=
  foldl (fun ff i =>
           let y := height * (0.1 + INR i * 0.2) in
           flow_addSource 0 y (2 * intensity) (sin (INR i * 0.5) * 0.5) 200 ff)
    (flow_clear ff) (seq 0 5).

(** [createAurora] *)
Definition createAurora (count : nat) (colors : list string) (intensity : R) : M unit :=
  width ← get innerWidth;
  height ← get innerHeight;
  with_flowField (aurora_waves height intensity);;
  let ribbons := 4%nat in
  for_each (seq 0 ribbons) (fun ribbon =>
    let baseY := height * (0.15 + INR ribbon * 0.25) in
    let particlesPerRibbon := (count / ribbons)%nat in
    for_each (seq 0 particlesPerRibbon) (fun i =>
      r_px ← random;
      let px := r_px * width in
      r_py ← random;
      let py := baseY + (r_py - 0.5) * 60 in
      r_vx ← random;
      r_size ← random;
      r_life ← random;
      addParticle
        (particle_config px py (1 + r_vx * 2) (sin (px * 0.01 + INR ribbon) * 0.5)
           (color_at colors ribbon) (10 + r_size * 15) (300 + r_life * 200)
           circle 0.8))).

(** The body of each of the five callbacks that [createResonance] delays. *)
Definition resonancePulse (x y : R) : M unit :=
  with_fluid (fun f =>
    let gridX := x / 20 in
    let gridY := y / 20 in
    foldl (fun f angle =>
             fluid_addForce gridX gridY (cos angle * 30) (sin angle * 30) 3 f)
      (fluid_addDensity gridX gridY 50 8 f)
      (angles_below 16 0 (PI / 4) (PI * 2))).

(** [createResonance] *)
Definition createResonance (x y : R) (count : nat) (colors : list string)
    (intensity : R) (heartRate : option R) : M unit :=
  let bpm := default 72 heartRate in
  let pulseInterval := 60000 / bpm in
  push_attractor {| a_x := x; a_y := y; a_strength := 150 * intensity;
                    a_radius := 300; a_type := pull |};;
  let rings := 4%nat in
  for_each (seq 0 rings) (fun ring =>
    let ringRadius := 50 + INR ring * 40 in
    let particlesInRing := (count / rings)%nat in
    for_each (seq 0 particlesInRing) (fun i =>
      let angle := (INR i / INR particlesInRing) * PI * 2 in
      let px := x + cos angle * ringRadius in
      let py := y + sin angle * ringRadius in
      r_size ← random;
      r_life ← random;
      addParticle
        {| c_x := Some px; c_y := Some py; c_vx := Some 0; c_vy := Some 0;
           c_color := color_at colors ring;
           c_size := Some (8 + r_size * 6);
           c_life := Some (400 + r_life * 200);
           c_shape := Some (if (ring mod 2 =? 0)%nat then heart else circle);
           c_mass := Some 1;
           c_pulsePhase := Some ((INR ring * PI) / 2);
           c_spiralAngle := None |}));;
  let pulseCount := 5%nat in
  for_each (seq 0 pulseCount) (fun i =>
    setTimeout (ResonancePulse x y) (INR i * pulseInterval)).

(** [createOrbit] *)
Definition createOrbit (x y : R) (count : nat) (colors : list string)
    (intensity : R) : M unit :=
  let centers :=
    [ (x, y, 300 * intensity);
      (x - 150, y + 100, 200 * intensity);
      (x + 150, y + 100, 200 * intensity) ] in
  for_each centers (fun '(cx, cy, strength) =>
    push_attractor {| a_x := cx; a_y := cy; a_strength := strength;
                      a_radius := 250; a_type := orbit |});;
  for_each (imap (fun ci c => (ci, c)) centers) (fun '(ci, (cx, cy, strength)) =>
    let particlesPerCenter := (count / 3)%nat in
    for_each (seq 0 particlesPerCenter) (fun i =>
      r_radius ← random;
      let orbitRadius := 60 + r_radius * 100 in
      r_angle ← random;
      let angle := r_angle * PI * 2 in
      let px := cx + cos angle * orbitRadius in
      let py := cy + sin angle * orbitRadius in
      let orbitalSpeed := sqrt (strength / orbitRadius) * 0.3 in
      let tangent := angle + PI / 2 in
      r_size ← random;
      r_life ← random;
      r_shape ← random;
      addParticle
        (particle_config px py (cos tangent * orbitalSpeed) (sin tangent * orbitalSpeed)
           (color_at colors (ci + i)) (5 + r_size * 7) (400 + r_life * 200)
           (if Rgtb r_shape 0.5 then circle else hexagon) 1))).

(** The body of each callback that [createCascade] delays. *)
Definition cascadeSpawn (width : R) (colors : list string) : M unit :=
  r_px ← random;
  let px := width * (0.1 + r_px * 0.8) in
  let streamIndex := floor_index ((px / width) * 7) in
  r_y ← random;
  r_vx ← random;
  r_vy ← random;
  r_size ← random;
  r_life ← random;
  r_mass ← random;
  addParticle
    (particle_config px (-20 + r_y * 10) ((r_vx - 0.5) * 2) (5 + r_vy * 5)
       (color_at colors streamIndex) (6 + r_size * 10) (300 + r_life * 150)
       circle (0.8 + r_mass * 0.4)).

(** The downward streams that [createCascade] gives to the flow field. *)
Definition cascade_streams (width intensity : R) (ff : flow_t) : flow_t :=
  foldl (fun ff i =>
           let x := width * (0.1 + INR i * 0.13) in
           flow_addSource x 0 0 (5 * intensity) 300 ff)
    (flow_clear ff) (seq 0 7).

(** [createCascade] *)
Definition createCascade (count : nat) (colors : list string) (intensity : R) : M unit :=
  width ← get innerWidth;
  with_flowField (cascade_streams width intensity);;
  let spawnDuration := 2000 in
  let spawnInterval := spawnDuration / INR count in
  for_each (seq 0 count) (fun i =>
    setTimeout (CascadeSpawn width colors) (INR i * spawnInterval)).

(** The body of the [i]-th callback that [createEmergence] delays. *)
Definition emergenceSpawn (x y : R) (i : nat) (colors : list string) : M unit :=
  r_angle ← random;
  let angle := r_angle * PI * 2 in
  r_r ← random;
  let r := r_r * 30 in
  r_size ← random;
  r_life ← random;
  addParticle
    {| c_x := Some (x + cos angle * r); c_y := Some (y + sin angle * r);
       c_vx := Some (cos angle * 2); c_vy := Some (sin angle * 2);
       c_color := color_at colors i;
       c_size := Some (4 + r_size * 8);
       c_life := Some (200 + r_life * 150);
       c_shape := Some spiral;
       c_mass := Some 0.7;
       c_pulsePhase := None;
       c_spiralAngle := Some angle |}.

(** The sources that [createEmergence] gives to the flow field. *)
Definition emergence_sources (x y intensity : R) (ff : flow_t) : flow_t :=
  foldl (fun ff i =>
           let angle := (INR i / 8) * PI * 2 in
           let r := 200 in
           let sourceX := x + cos angle * r in
           let sourceY := y + sin angle * r in
           let vx := cos (angle + PI / 2) * 2 in
           let vy := sin (angle + PI / 2) * 2 in
           flow_addSource sourceX sourceY vx vy 100 ff)
    (flow_addSource x y 0 (-3 * intensity) 500 (flow_clear ff)) (seq 0 8).

(** [createEmergence] *)
Definition createEmergence (x y : R) (count : nat) (colors : list string)
    (intensity : R) : M unit :=
  with_flowField (emergence_sources x y intensity);;
  let spawnDuration := 1500 in
  let spawnInterval := spawnDuration / INR count in
  for_each (seq 0 count) (fun i =>
    setTimeout (EmergenceSpawn x y i colors) (INR i * spawnInterval)).

(** The [baseAttractors] of [createHarmony]. *)
Definition baseAttractors : list LissajousParams :=
  [ {| freqX := 3; freqY := 2; phaseX := 0; phaseY := PI / 4 |};
    {| freqX := 2; freqY := 3; phaseX := PI / 2; phaseY := 0 |};
    {| freqX := 1; freqY := 2; phaseX := 0; phaseY := PI / 3 |} ].

(** [createHarmony] *)
Definition createHarmony (x y : R) (count : nat) (colors : list string)
    (intensity : R) : M unit :=
  for_each baseAttractors (fun _ =>
    push_attractor {| a_x := x; a_y := y; a_strength := 100 * intensity;
                      a_radius := 200; a_type := pull |});;
  modify (set_lissajous (Some baseAttractors));;
  for_each (seq 0 count) (fun i =>
    r_angle ← random;
    let angle := r_angle * PI * 2 in
    r_r ← random;
    let r := 100 + r_r * 150 in
    let px := x + cos angle * r in
    let py := y + sin angle * r in
    r_vx ← random;
    r_vy ← random;
    r_size ← random;
    r_life ← random;
    addParticle
      (particle_config px py ((r_vx - 0.5) * 2) ((r_vy - 0.5) * 2)
         (color_at colors i) (5 + r_size * 6) (500 + r_life * 200) hexagon 1)).

(** [createHelix] *)
Definition createHelix (x y : R) (count : nat) (colors : list string)
    (intensity : R) : M unit :=
  height ← get innerHeight;
  let helixRadius := 80 in
  let verticalSpeed := 3 * intensity in
  let strands := 2%nat in
  let particlesPerStrand := (count / strands)%nat in
  for_each (seq 0 strands) (fun strand =>
     let phaseOffset := INR strand * PI in
     for_each (seq 0 particlesPerStrand) (fun i =>
       let angle := (INR i / INR particlesPerStrand) * PI * 6 + phaseOffset in
       let yOffset := (INR i / INR particlesPerStrand) * height * 0.8 in
       let px := x + cos angle * helixRadius in
       let py := y - height * 0.4 + yOffset in
       let tangent := angle + PI / 2 in
       r_size ← random;
       r_life ← random;
       addParticle
         {| c_x := Some px; c_y := Some py;
            c_vx := Some (cos tangent * 2 * intensity);
            c_vy := Some (verticalSpeed + sin angle * 0.5);
            c_color := if (strand =? 0)%nat then colors !! 0%nat
                       else colors !! (length colors - 1)%nat;
            c_size := Some (6 + r_size * 5);
            c_life := Some (250 + r_life * 100);
            c_shape := Some circle;
            c_mass := Some 0.9;
            c_pulsePhase := None;
            c_spiralAngle := Some angle |})).

(** [createBloom] *)
Definition createBloom (x y : R) (count : nat) (colors : list string)
    (intensity : R) : M unit :=
  let petals := 8%nat in
  let layers := 4%nat in
  let particlesPerPetal := (count / petals)%nat in
  push_attractor {| a_x := x; a_y := y; a_strength := 50 * intensity;
                    a_radius := 200; a_type := pull |};;
  for_each (seq 0 petals) (fun petal =>
    let baseAngle := (INR petal / INR petals) * PI * 2 in
    for_each (seq 0 layers) (fun layer =>
      let layerParticles := (particlesPerPetal / layers)%nat in
      let layerRadius := 30 + INR layer * 50 in
      for_each (seq 0 layerParticles) (fun i =>
        r_angle ← random;
        let angle := baseAngle + (r_angle - 0.5) * 0.3 in
        r_r ← random;
        let r := layerRadius + r_r * 30 in
        let px := x + cos angle * r in
        let py := y + sin angle * r in
        let outwardSpeed := (1 + INR layer * 0.5) * intensity in
        let tangentSpeed := 0.5 * intensity in
        r_size ← random;
        r_life ← random;
        addParticle
          (particle_config px py
             (cos angle * outwardSpeed + cos (angle + PI / 2) * tangentSpeed)
             (sin angle * outwardSpeed + sin (angle + PI / 2) * tangentSpeed)
             (color_at colors (petal + layer))
             (8 + r_size * 8 - INR layer * 1.5)
             (200 + INR layer * 50 + r_life * 100)
             (if (layer =? 0)%nat then heart else circle) 0.8)))).

(** The position that [createConstellation] computes for star [i], and
    its test that the star is on screen. *)
Definition constellation_position (width height : R) (i : nat) : R * R :=
  let goldenAngle := PI * (3 - sqrt 5) in
  let angle := INR i * goldenAngle in
  let r := sqrt (INR i) * 30 in
  (width / 2 + cos angle * r, height / 2 + sin angle * r).

Definition constellation_on_screen (width height : R) (i : nat) : bool :=
  let '(px, py) := constellation_position width height i in
  Rgtb px 50 && Rltb px (width - 50) && Rgtb py 50 && Rltb py (height - 50).

(** [createConstellation] *)
Definition createConstellation (count : nat) (colors : list string)
    (intensity : R) : M unit :=
  width ← get innerWidth;
  height ← get innerHeight;
  for_each (seq 0 count) (fun i =>
     let '(px, py) := constellation_position width height i in
     if constellation_on_screen width height i then
       r_vx ← random;
       r_vy ← random;
       r_size ← random;
       r_life ← random;
       addParticle
         (particle_config px py ((r_vx - 0.5) * 0.5) ((r_vy - 0.5) * 0.5)
            (color_at colors i) (3 + r_size * 5) (400 + r_life * 200) star 0.5)
     else mret tt).

(** The density bumps that [createNebula] adds to the fluid; their random
    offsets are only drawn when the fluid exists. *)
Definition nebula_density (x y intensity : R) : M unit :=
  f ← get fluid;
  match f with
  | Some _ =>
      for_each (seq 0 5) (fun _ =>
        r_x ← random;
        let offsetX := (r_x - 0.5) * 200 in
        r_y ← random;
        let offsetY := (r_y - 0.5) * 200 in
        let gridX := (x + offsetX) / 20 in
        let gridY := (y + offsetY) / 20 in
        with_fluid (fluid_addDensity gridX gridY (80 * intensity) 8))
  | None => mret tt
  end.

(** [createNebula].  The radius is a Box-Muller draw; it is the number
    written here whenever [Math.random()] answers [u > 0].  For [u = 0]
    JavaScript has [Math.log(0) = -Infinity] and places the particle at an
    infinite or undefined position, which a real number cannot say: the
    position of a nebula particle is meant for [u > 0] only. *)
Definition createNebula (x y : R) (count : nat) (colors : list string)
    (intensity : R) : M unit :=
  nebula_density x y intensity;;
  for_each (seq 0 count) (fun i =>
    r_angle ← random;
    let angle := r_angle * PI * 2 in
    u ← random;
    v ← random;
    let r := sqrt (-2 * ln u) * cos (2 * PI * v) * 100 in
    let px := x + cos angle * r in
    let py := y + sin angle * r in
    r_vx ← random;
    r_vy ← random;
    r_size ← random;
    r_life ← random;
    addParticle
      (particle_config px py ((r_vx - 0.5) * 1.5) ((r_vy - 0.5) * 1.5)
         (color_at colors i) (15 + r_size * 25) (250 + r_life * 150) circle 0.4)).

(** ** Animation loop *)

(** The position that [animate] gives to attractor [i] when the Lissajous
    parameters are present. *)
Definition lissajous_move (w : World) (params : LissajousParams) (a : Attractor) : Attractor :=
  let centerX := innerWidth w / 2 in
  let centerY := innerHeight w / 2 in
  let amplitude := 150 in
  {| a_x := centerX + sin (time w * 0.02 * freqX params + phaseX params) * amplitude;
     a_y := centerY + sin (time w * 0.02 * freqY params + phaseY params) * amplitude;
     a_strength := a_strength a;
     a_radius := a_radius a;
     a_type := a_type a |}.

Definition update_lissajous (w : World) : World :=
  match lissajous w with
  | Some l =>
      if (3 <=? length (attractors w))%nat then
        set_attractors
          (foldl (fun atts i =>
                    match l !! i with
                    | Some params => alter (lissajous_move w params) i atts
                    | None => atts
                    end)
             (attractors w) (seq 0 (3 `min` length (attractors w)))) w
      else w
  | None => w
  end.

(** [particle.life <= 0 || particle.opacity <= 0] *)
Definition is_dead (p : PhysicsParticle) : bool :=
  Rleb (p_life p) 0 || Rleb (p_opacity p) 0.

(** The loop of [animate] over [Array.from(this.particles.values())]: every
    particle is updated in place and the identifiers of the dead ones are
    collected. *)
Definition update_particles (w : World) : World :=
  set_particles ((fun p => updateParticle w p 1) <$> particles w) w.

Definition deadParticles (w : World) : list nat :=
  p_id <$> filter (fun p => is_dead p = true) (map_to_list (particles w)).*2.

(** The loop of [animate] that deletes the dead particles. *)
Definition remove_dead (w : World) : World :=
  set_particles (foldl (fun m i => delete i m) (particles w) (deadParticles w)) w.

(** The end of [animate]: another frame is requested while particles or
    attractors remain. *)
Definition schedule_next : M unit :=
  ps ← get particles;
  atts ← get attractors;
  if (0 <? size ps)%nat || (0 <? length atts)%nat then
    i ← requestAnimationFrame;
    modify (set_animationId (Some i))
  else
    modify (set_animationId None);;
    modify (set_lissajous None).

(** The start of [animate]: the clock, the Lissajous attractors and the
    two fields advance. *)
Definition animate_fields : M unit :=
  let dt := 1 in
  modify (fun w => set_time (time w + dt) w);;
  modify update_lissajous;;
  with_fluid (fluid_step (dt * 0.016));;
  with_flowField (flow_update dt).

(** [animate] up to the end of the loop that updates the particles. *)
Definition animate_update : M unit :=
  animate_fields;;
  modify update_particles.

(** [animate] *)
Definition animate : M unit :=
  animate_update;;
  modify remove_dead;;
  schedule_next.

(** ** Public methods *)

Definition EMOTION_PALETTES : list (string * list string) :=
  [ ("joy", ["#fbbf24"; "#f59e0b"; "#fcd34d"; "#fef3c7"; "#fff7ed"]);
    ("serenity", ["#10b981"; "#34d399"; "#6ee7b7"; "#a7f3d0"; "#d1fae5"]);
    ("excitement", ["#f43f5e"; "#fb7185"; "#fda4af"; "#fbbf24"; "#fcd34d"]);
    ("love", ["#ec4899"; "#f472b6"; "#f9a8d4"; "#f43f5e"; "#fb7185"]);
    ("triumph", ["#a855f7"; "#c084fc"; "#d8b4fe"; "#fbbf24"; "#fcd34d"]);
    ("gratitude", ["#14b8a6"; "#2dd4bf"; "#5eead4"; "#99f6e4"; "#10b981"]);
    ("wonder", ["#0ea5e9"; "#38bdf8"; "#7dd3fc"; "#bae6fd"; "#a855f7"]);
    ("peace", ["#10b981"; "#14b8a6"; "#2dd4bf"; "#5eead4"; "#a7f3d0"]);
    ("default", ["#10b981"; "#34d399"; "#14b8a6"; "#2dd4bf"; "#fbbf24"]) ]%string.

Definition BRAND_COLORS_emerald : list string :=
  ["#10b981"; "#34d399"; "#6ee7b7"; "#a7f3d0"]%string.
Definition BRAND_COLORS_teal : list string :=
  ["#14b8a6"; "#2dd4bf"; "#5eead4"; "#99f6e4"]%string.

Fixpoint lookup_key {A} (k : string) (l : list (string * A)) : option A :=
  match l with
  | [] => None
  | (k', v) :: l' => if String.eqb k k' then Some v else lookup_key k l'
  end.

(** [toLowerCase] on the ASCII letters. *)
Definition lower_ascii (c : Ascii.ascii) : Ascii.ascii :=
  let n := Ascii.nat_of_ascii c in
  if (65 <=? n)%nat && (n <=? 90)%nat then Ascii.ascii_of_nat (n + 32) else c.

Fixpoint toLowerCase (s : string) : string :=
  match s with
  | EmptyString => EmptyString
  | String c s' => String (lower_ascii c) (toLowerCase s')
  end.

(** The names in lower case that [EMOTION_PALETTES[key]] finds on
    [Object.prototype] rather than in the table.  What it finds there is
    truthy and is returned as the palette, but it is no array of colours:
    it has no element at any index, so every [colors[...]] of a recipe is
    [undefined], as for the empty list, which stands for it here. *)
Definition inherited_keys : list string := ["constructor"; "__proto__"]%string.

(** [getColorsForEmotion] *)
Definition getColorsForEmotion (emotion : option string) : list string :=
  match emotion with
  | Some e =>
      if negb (String.eqb e "") then
        match lookup_key (toLowerCase e) EMOTION_PALETTES with
        | Some palette => palette
        | None =>
            if bool_decide (toLowerCase e ∈ inherited_keys) then []
            else BRAND_COLORS_emerald ++ BRAND_COLORS_teal
        end
      else BRAND_COLORS_emerald ++ BRAND_COLORS_teal
  | None => BRAND_COLORS_emerald ++ BRAND_COLORS_teal
  end.

(** [isEnabled] *)
Definition isEnabled (w : World) : bool :=
  enabled w && negb (prefersReducedMotion w).

(** The [case] labels of the [switch] in [celebrate]. *)
Definition recipe_names : list (string * PhysicsCelebrationType) :=
  [ ("vortex", Vortex); ("supernova", Supernova); ("aurora", Aurora);
    ("resonance", Resonance); ("orbit", Orbit); ("cascade", Cascade);
    ("emergence", Emergence); ("harmony", Harmony); ("helix", Helix);
    ("bloom", Bloom); ("constellation", Constellation); ("nebula", Nebula) ]%string.

Definition recipe_of_name (name : string) : option PhysicsCelebrationType :=
  lookup_key name recipe_names.

(** The [switch (type)] of [celebrate]; a name without a [case] falls
    through. *)
Definition run_recipe (type : option PhysicsCelebrationType) (originX originY : R)
    (count : nat) (colors : list string) (intensity : R) (heartRate : option R) : M unit :=
  match type with
  | Some Vortex => createVortex originX originY count colors intensity
  | Some Supernova => createSupernova originX originY count colors intensity
  | Some Aurora => createAurora count colors intensity
  | Some Resonance => createResonance originX originY count colors intensity heartRate
  | Some Orbit => createOrbit originX originY count colors intensity
  | Some Cascade => createCascade count colors intensity
  | Some Emergence => createEmergence originX originY count colors intensity
  | Some Harmony => createHarmony originX originY count colors intensity
  | Some Helix => createHelix originX originY count colors intensity
  | Some Bloom => createBloom originX originY count colors intensity
  | Some Constellation => createConstellation count colors intensity
  | Some Nebula => createNebula originX originY count colors intensity
  | None => mret tt
  end.

(** The part of [celebrate] between the guard and the start of the
    animation loop: the attractor list is emptied and the recipe runs. *)
Definition celebrate_setup (config : PhysicsCelebrationConfig) : M unit :=
  width ← get innerWidth;
  height ← get innerHeight;
  let type := cfg_type config in
  let origin := default (0.5, 0.5) (cfg_origin config) in
  let count := default 100%nat (cfg_count config) in
  let colors :=
    default (getColorsForEmotion (cfg_emotionContext config ≫= dominantEmotion))
      (cfg_colors config) in
  let intensity := default 1 (cfg_intensity config) in
  let heartRate := cfg_heartRate config in
  let originX := origin.1 * width in
  let originY := origin.2 * height in
  modify (set_attractors []);;
  run_recipe (recipe_of_name type) originX originY count colors intensity heartRate.

(** The end of [celebrate]: the animation loop starts unless it is
    already running. *)
Definition start_animation : M unit :=
  running ← get animationId;
  match running with
  | None => animate
  | Some _ => mret tt
  end.

(** [celebrate] *)
Definition celebrate (config : PhysicsCelebrationConfig) : M unit :=
  on ← get isEnabled;
  if negb on then mret tt
  else celebrate_setup config;; start_animation.

(** The part of [clear] that stops the animation loop. *)
Definition stop_animation : M unit :=
  running ← get animationId;
  match running with
  | Some i => cancelAnimationFrame i;; modify (set_animationId None)
  | None => mret tt
  end.

(** [clear] *)
Definition clear : M unit :=
  modify (set_particles ∅);;
  modify (set_attractors []);;
  with_fluid fluid_clear;;
  with_flowField flow_clear;;
  stop_animation;;
  modify (set_lissajous None).

(** [setEnabled] *)
Definition setEnabled (b : bool) : M unit :=
  modify (set_enabled b);;
  if negb b then clear else mret tt.

(** The constructor, in a browser whose viewport is [width] by [height]
    and whose reduced-motion media query currently answers
    [reducedMotion]. *)
Definition new_engine (width height : R) (reducedMotion : bool) (random_values : nat -> R) : World :=
  {| particles := ∅;
     attractors := [];
     fluid := Some (fluid_new (Rceil (width / 20)) (Rceil (height / 20)) 0.0001 0.00001);
     flowField := Some (flow_new width height 20);
     animationId := None;
     time := 0;
     particleIdCounter := 0;
     enabled := true;
     prefersReducedMotion := reducedMotion;
     lissajous := None;
     innerWidth := width;
     innerHeight := height;
     timers := [];
     rafQueue := [];
     rafNext := 1;
     rnd := random_values;
     rndPos := 0 |}.

(** ** The host *)

Definition run_callback (cb : TimerCallback) : M unit :=
  match cb with
  | SupernovaSecondary x y count colors intensity =>
      supernovaSecondary x y count colors intensity
  | ResonancePulse x y => resonancePulse x y
  | CascadeSpawn width colors => cascadeSpawn width colors
  | EmergenceSpawn x y i colors => emergenceSpawn x y i colors
  end.

(** The [k]-th pending timer fires: it leaves the queue and its callback
    runs. *)
Definition fire_timer (k : nat) (w : World) : World :=
  match timers w !! k with
  | Some t => exec (run_callback (t_callback t)) (set_timers (delete k (timers w)) w)
  | None => w
  end.

(** The browser renders a frame: the oldest pending request leaves the
    queue and [animate] runs. *)
Definition frame (w : World) : World :=
  match rafQueue w with
  | _ :: q => exec animate (set_raf q (rafNext w) w)
  | [] => w
  end.

(** What can happen to an engine between two moments at which the page is
    idle. *)
Inductive host_step : World -> World -> Prop :=
| step_celebrate config w : host_step w (exec (celebrate config) w)
| step_clear w : host_step w (exec clear w)
| step_setEnabled b w : host_step w (exec (setEnabled b) w)
| step_media_change b w : host_step w (set_prefersReducedMotion b w)
| step_timer k w : is_Some (timers w !! k) -> host_step w (fire_timer k w)
| step_frame w : rafQueue w ≠ [] -> host_step w (frame w).

(** The states that a browser can bring a fresh engine to. *)
Inductive reachable : World -> Prop :=
| reachable_new width height reducedMotion random_values :
    (forall n, 0 <= random_values n < 1) ->
    reachable (new_engine width height reducedMotion random_values)
| reachable_step w w' : reachable w -> host_step w w' -> reachable w'.

(** ** Invariant of the engine state *)

(** Identifiers are fresh, every particle sits under its own identifier,
    the only pending animation frame is the one [animationId] names, and
    [Math.random()] answers in [[0, 1)]. *)
Record wf (w : World) : Prop := {
  wf_fresh : forall i p, particles w !! i = Some p -> (i < particleIdCounter w)%nat;
  wf_id : forall i p, particles w !! i = Some p -> p_id p = i;
  wf_raf : rafQueue w = match animationId w with Some i => [i] | None => [] end;
  wf_raf_next : forall i, animationId w = Some i -> (i < rafNext w)%nat;
  wf_rnd : forall n, 0 <= rnd w n < 1
}.


(** ** Vocabulary of the statements *)

(** Two states agree on the scheduler, the switches, the viewport and the
    random stream. *)
Definition same_sched (w w' : World) : Prop :=
  animationId w' = animationId w /\ time w' = time w /\
  enabled w' = enabled w /\
  prefersReducedMotion w' = prefersReducedMotion w /\
  innerWidth w' = innerWidth w /\ innerHeight w' = innerHeight w /\
  rafQueue w' = rafQueue w /\ rafNext w' = rafNext w /\ rnd w' = rnd w.

(** Two states agree on the attractors, the fields and the pending timers. *)
Definition same_fields (w w' : World) : Prop :=
  attractors w' = attractors w /\ fluid w' = fluid w /\
  flowField w' = flowField w /\ lissajous w' = lissajous w /\
  timers w' = timers w.

(** What every recipe gives to a particle that it has just created. *)
Definition fresh_particle (i : nat) (p : PhysicsParticle) : Prop :=
  p_id p = i /\ p_opacity p = 1 /\ p_life p = p_maxLife p /\ 80 <= p_life p.

(** [w'] has the particles of [w] and [n] new ones, under the next [n]
    identifiers. *)
Definition grows (n : nat) (w w' : World) : Prop :=
  particleIdCounter w' = (particleIdCounter w + n)%nat /\
  (forall i, (particleIdCounter w <= i < particleIdCounter w + n)%nat ->
     exists p, particles w' !! i = Some p /\ fresh_particle i p) /\
  (forall i, ~ (particleIdCounter w <= i < particleIdCounter w + n)%nat ->
     particles w' !! i = particles w !! i) /\
  same_sched w w'.

(** [w'] is [w] with [n] new particles and nothing else changed but the
    position in the random stream. *)
Definition spawns (n : nat) (w w' : World) : Prop :=
  grows n w w' /\ same_fields w w'.

(** [Math.random()] answers in [[0, 1)]. *)
Definition rnd_ok (w : World) : Prop := forall n, 0 <= rnd w n < 1.

(** The summary of a recipe or of a delayed callback: [n] new particles,
    the attractors [atts] and the timers [tms] appended, and [lis] as the
    Lissajous parameters. *)
Definition recipe_effect (n : nat) (atts : list Attractor) (tms : list Timer)
    (lis : option (list LissajousParams)) (w w' : World) : Prop :=
  grows n w w' /\ attractors w' = attractors w ++ atts /\
  timers w' = timers w ++ tms /\ lissajous w' = lis.

(** The attractors that each recipe pushes, in order. *)
Definition recipe_attractors (r : PhysicsCelebrationType) (x y intensity : R) : list Attractor :=
  match r with
  | Vortex =>
      [ {| a_x := x; a_y := y; a_strength := 200 * intensity;
           a_radius := 400; a_type := vortex |} ]
  | Resonance =>
      [ {| a_x := x; a_y := y; a_strength := 150 * intensity;
           a_radius := 300; a_type := pull |} ]
  | Orbit =>
      [ {| a_x := x; a_y := y; a_strength := 300 * intensity;
           a_radius := 250; a_type := orbit |};
        {| a_x := x - 150; a_y := y + 100; a_strength := 200 * intensity;
           a_radius := 250; a_type := orbit |};
        {| a_x := x + 150; a_y := y + 100; a_strength := 200 * intensity;
           a_radius := 250; a_type := orbit |} ]
  | Harmony =>
      replicate 3 {| a_x := x; a_y := y; a_strength := 100 * intensity;
                     a_radius := 200; a_type := pull |}
  | Bloom =>
      [ {| a_x := x; a_y := y; a_strength := 50 * intensity;
           a_radius := 200; a_type := pull |} ]
  | Supernova | Aurora | Cascade | Emergence | Helix | Constellation | Nebula => []
  end.

(** The callbacks that each recipe hands to [setTimeout], in order. *)
Definition recipe_timers (r : PhysicsCelebrationType) (x y : R) (count : nat)
    (colors : list string) (intensity : R) (heartRate : option R) (width : R) : list Timer :=
  match r with
  | Supernova =>
      [ {| t_delay := 100; t_callback := SupernovaSecondary x y count colors intensity |} ]
  | Resonance =>
      (fun i => {| t_delay := INR i * (60000 / default 72 heartRate);
                   t_callback := ResonancePulse x y |}) <$> seq 0 5
  | Cascade =>
      (fun i => {| t_delay := INR i * (2000 / INR count);
                   t_callback := CascadeSpawn width colors |}) <$> seq 0 count
  | Emergence =>
      (fun i => {| t_delay := INR i * (1500 / INR count);
                   t_callback := EmergenceSpawn x y i colors |}) <$> seq 0 count
  | Vortex | Aurora | Orbit | Harmony | Helix | Bloom | Constellation | Nebula => []
  end.

(** The distance between a particle at [(px, py)] and an attractor, as
    [updateParticle] computes it. *)
Definition attractor_distance (px py : R) (a : Attractor) : R :=
  sqrt ((a_x a - px) * (a_x a - px) + (a_y a - py) * (a_y a - py)).

(** What one attractor adds to the acceleration of a particle at
    [(px, py)]. *)
Definition attractor_contribution (px py : R) (a : Attractor) : R * R :=
  apply_attractor px py (0, 0) a.

Definition magnitude (v : R * R) : R := sqrt (v.1 * v.1 + v.2 * v.2).

(** The force magnitude in the words of the specification:
    [strength * falloff² / (distance² + softening)] with
    [falloff = 1 - distance / radius] and a softening constant of 100. *)
Definition falloff_force (strength radius d : R) : R :=
  strength * ((1 - d / radius) * (1 - d / radius)) / (d * d + 100).

(** The square of the factor by which each kind of attractor scales the
    force: [orbit] adds 0.7 of it sideways and 0.3 of it inwards, [vortex]
    0.8 and 0.5. *)
Definition blend_sq (t : AttractorType) : R :=
  match t with
  | pull | push => 1
  | orbit => 0.7 * 0.7 + 0.3 * 0.3
  | vortex => 0.8 * 0.8 + 0.5 * 0.5
  end.

(** The statements of each recipe that concern the fluid and the flow
    field, cut out of the recipe as it stands. *)
Definition recipe_field_setup (r : PhysicsCelebrationType) (x y intensity : R) : M unit :=
  match r with
  | Vortex => with_fluid (vortex_swirl x y intensity)
  | Supernova => with_fluid (supernova_shockwave x y intensity)
  | Aurora => height ← get innerHeight; with_flowField (aurora_waves height intensity)
  | Cascade => width ← get innerWidth; with_flowField (cascade_streams width intensity)
  | Emergence => with_flowField (emergence_sources x y intensity)
  | Nebula => nebula_density x y intensity
  | Resonance | Orbit | Harmony | Helix | Bloom | Constellation => mret tt
  end.

(** One call on the fluid, and a list of calls in order. *)
Definition fluid_call (c : FieldCall) (f : fluid_t) : fluid_t :=
  match c with
  | CallAddForce x y fx fy radius => fluid_addForce x y fx fy radius f
  | CallAddDensity x y amount radius => fluid_addDensity x y amount radius f
  | CallStep dt => fluid_step dt f
  | CallClear => fluid_clear f
  | CallAddSource _ _ _ _ _ => f
  end.

Definition fluid_calls (calls : list FieldCall) (f : fluid_t) : fluid_t :=
  foldl (fun f c => fluid_call c f) f calls.

(** One call on the flow field, and a list of calls in order. *)
Definition flow_call (c : FieldCall) (ff : flow_t) : flow_t :=
  match c with
  | CallAddSource x y vx vy radius => flow_addSource x y vx vy radius ff
  | CallStep dt => flow_update dt ff
  | CallClear => flow_clear ff
  | CallAddForce _ _ _ _ _ | CallAddDensity _ _ _ _ => ff
  end.

Definition flow_calls (calls : list FieldCall) (ff : flow_t) : flow_t :=
  foldl (fun ff c => flow_call c ff) ff calls.

(** The calls that each recipe makes on the fluid, in order: one force for
    the vortex; sixteen forces around the circle and a density bump for the
    supernova; five density bumps for the nebula, each at an offset drawn
    from [Math.random()], whose next values are [random_values next],
    [random_values (next + 1)], ... *)
Definition recipe_fluid_calls (r : PhysicsCelebrationType) (x y intensity : R)
    (random_values : nat -> R) (next : nat) : list FieldCall :=
  match r with
  | Vortex => [CallAddForce (x / 20) (y / 20) 0 (-50 * intensity) 10]
  | Supernova =>
      ((fun k : nat =>
          CallAddForce (x / 20) (y / 20)
            (cos (INR k * (PI / 8)) * 100 * intensity)
            (sin (INR k * (PI / 8)) * 100 * intensity) 5) <$> seq 0 16) ++
      [CallAddDensity (x / 20) (y / 20) (100 * intensity) 5]
  | Nebula =>
      (fun i : nat =>
         CallAddDensity
           ((x + (random_values (2 * i + next)%nat - 0.5) * 200) / 20)
           ((y + (random_values (S (2 * i + next)) - 0.5) * 200) / 20)
           (80 * intensity) 8) <$> seq 0 5
  | Aurora | Resonance | Orbit | Cascade | Emergence | Harmony | Helix | Bloom
  | Constellation => []
  end.

(** The calls that each recipe makes on the flow field, in order: the field
    is cleared and receives five wave sources for the aurora, seven
    downward streams for the cascade, and a central source with eight
    sources around it for the emergence. *)
Definition recipe_flow_calls (r : PhysicsCelebrationType) (x y width height intensity : R)
    : list FieldCall :=
  match r with
  | Aurora =>
      CallClear ::
      ((fun i : nat =>
          CallAddSource 0 (height * (0.1 + INR i * 0.2)) (2 * intensity)
            (sin (INR i * 0.5) * 0.5) 200) <$> seq 0 5)
  | Cascade =>
      CallClear ::
      ((fun i : nat =>
          CallAddSource (width * (0.1 + INR i * 0.13)) 0 0 (5 * intensity) 300) <$> seq 0 7)
  | Emergence =>
      CallClear ::
      CallAddSource x y 0 (-3 * intensity) 500 ::
      ((fun i : nat =>
          CallAddSource
            (x + cos (INR i / 8 * PI * 2) * 200) (y + sin (INR i / 8 * PI * 2) * 200)
            (cos (INR i / 8 * PI * 2 + PI / 2) * 2) (sin (INR i / 8 * PI * 2 + PI / 2) * 2)
            100) <$> seq 0 8)
  | Vortex | Supernova | Resonance | Orbit | Harmony | Helix | Bloom | Constellation
  | Nebula => []
  end.

(** The calls that a delayed callback makes on the fluid when it runs: a
    pulse of the resonance is a density bump and eight forces around the
    circle; the other callbacks only add particles. *)
Definition callback_fluid_calls (cb : TimerCallback) : list FieldCall :=
  match cb with
  | ResonancePulse x y =>
      CallAddDensity (x / 20) (y / 20) 50 8 ::
      ((fun k : nat =>
          CallAddForce (x / 20) (y / 20)
            (cos (INR k * (PI / 4)) * 30) (sin (INR k * (PI / 4)) * 30) 3) <$> seq 0 8)
  | SupernovaSecondary _ _ _ _ _ | CascadeSpawn _ _ | EmergenceSpawn _ _ _ _ => []
  end.

(** The state inside [frame w] when the loop over the particles has run
    and the dead ones have not been deleted yet. *)
Definition mid_frame (w : World) : World :=
  match rafQueue w with
  | _ :: q => exec animate_update (set_raf q (rafNext w) w)
  | [] => w
  end.

(** The number of stars that [createConstellation] keeps. *)
Definition constellation_kept (width height : R) (count : nat) : nat :=
  length (filter (fun i => constellation_on_screen width height i = true) (seq 0 count)).

(** The number of particles that each recipe adds before it returns. *)
Definition spawned_now (r : PhysicsCelebrationType) (count : nat) (width height : R) : nat :=
  match r with
  | Vortex | Harmony | Nebula => count
  | Supernova => length (count_up count 0 (INR count * 0.6))
  | Aurora | Resonance => 4 * (count / 4)
  | Orbit => 3 * (count / 3)
  | Helix => 2 * (count / 2)
  | Bloom => 8 * (4 * (count / 8 / 4))
  | Cascade | Emergence => 0
  | Constellation => constellation_kept width height count
  end.

(** The number of particles that a delayed callback adds when it runs. *)
Definition spawned_later (cb : TimerCallback) : nat :=
  match cb with
  | SupernovaSecondary _ _ count _ _ => length (count_up count 0 (INR count * 0.4))
  | ResonancePulse _ _ => 0
  | CascadeSpawn _ _ => 1
  | EmergenceSpawn _ _ _ _ => 1
  end.

End Definitions.

(** ** Vocabulary of the invariants *)

Section ParticleVocabulary.
Context {SF : StableFluids} {FF : FlowField2D}.
Local Open Scope R_scope.

(** Every particle of the map satisfies [Q]. *)
Definition all_particles (Q : PhysicsParticle -> Prop) (w : World) : Prop :=
  forall i p, particles w !! i = Some p -> Q p.

(** Running [m] keeps [Q] true of every particle and leaves the random
    stream alone. *)
Definition keeps (Q : PhysicsParticle -> Prop) {A} (m : M A) : Prop :=
  forall w, rnd_ok w -> all_particles Q w ->
    all_particles Q (exec m w) /\ rnd (exec m w) = rnd w.

(** The particle that [addParticle] builds for identifier [i] from the
    random values that it draws. *)
Definition new_particle (config : ParticleConfig) (i : nat) (r1 r2 r3 : R) : PhysicsParticle :=
  {| p_id := i;
     p_x := default 0 (c_x config);
     p_y := default 0 (c_y config);
     p_vx := default 0 (c_vx config);
     p_vy := default 0 (c_vy config);
     p_ax := 0;
     p_ay := 0;
     p_size := default 8 (c_size config);
     p_rotation := r1 * PI * 2;
     p_rotationVelocity := (r2 - 0.5) * 0.2;
     p_color := default "#10b981"%string (c_color config);
     p_opacity := 1;
     p_life := default 150 (c_life config);
     p_maxLife := default 150 (c_life config);
     p_mass := default 1 (c_mass config);
     p_shape := default square (c_shape config);
     p_trail := [];
     p_pulsePhase := default (r3 * PI * 2) (c_pulsePhase config);
     p_spiralAngle := c_spiralAngle config |}.

(** The bounds that hold of every particle of a running engine. *)
Definition sound_particle (p : PhysicsParticle) : Prop :=
  80 <= p_maxLife p <= 700 /\ 0 < p_life p <= p_maxLife p /\
  0 < p_opacity p <= 1 /\
  0.4 <= p_mass p <= 1.5 /\ 0 < p_size p /\
  -0.1 <= p_rotationVelocity p <= 0.1 /\
  (length (p_trail p) <= trailLength)%nat /\
  Forall (fun t => 0 < tp_opacity t <= 1) (p_trail p).


(** A particle that is older than identifier [n0] or whose colour is the
    default colour or one of [colors]. *)
Definition from_palette (n0 : nat) (colors : list string) (p : PhysicsParticle) : Prop :=
  (p_id p < n0)%nat \/ p_color p ∈ "#10b981"%string :: colors.

(** The palette that a delayed callback has captured. *)
Definition callback_colors (cb : TimerCallback) : list string :=
  match cb with
  | SupernovaSecondary _ _ _ colors _ => colors
  | ResonancePulse _ _ => []
  | CascadeSpawn _ colors => colors
  | EmergenceSpawn _ _ _ colors => colors
  end.


End ParticleVocabulary.

(** ** Rendering *)

(** What the engine asks of the 2D context of its canvas. *)
Inductive CanvasCall :=
| ClearRect (x y width height : R)
| Save
| Restore
| SetGlobalAlpha (alpha : R)
| SetFillStyle (style : string)
| SetStrokeStyle (style : string)
| SetStrokeStyleToFillStyle
| SetLineWidth (width : R)
| BeginPath
| ClosePath
| Fill
| Stroke
| Arc (x y radius startAngle endAngle : R)
| MoveTo (x y : R)
| LineTo (x y : R)
| BezierCurveTo (cp1x cp1y cp2x cp2y x y : R)
| Translate (x y : R)
| Rotate (angle : R)
| FillRect (x y width height : R).

Section Rendering.
Context {SF : StableFluids} {FF : FlowField2D}.
Local Open Scope R_scope.

(** The loop of [drawStar]: each round draws an outer and an inner point
    and turns [rot] by two steps. *)
Fixpoint star_spikes (n : nat) (cx cy rot step outerRadius innerRadius : R)
    : list CanvasCall :=
  match n with
  | O => []
  | S n' =>
      LineTo (cx + cos rot * outerRadius) (cy + sin rot * outerRadius) ::
      LineTo (cx + cos (rot + step) * innerRadius) (cy + sin (rot + step) * innerRadius) ::
      star_spikes n' cx cy (rot + step + step) step outerRadius innerRadius
  end.

(** [drawStar] *)
Definition drawStar (cx cy : R) (spikes : nat) (outerRadius innerRadius : R)
    : list CanvasCall :=
  let rot := (PI / 2) * 3 in
  let step := PI / INR spikes in
  [BeginPath; MoveTo cx (cy - outerRadius)] ++
  star_spikes spikes cx cy rot step outerRadius innerRadius ++
  [LineTo cx (cy - outerRadius); ClosePath; Fill].

(** [drawHeart] *)
Definition drawHeart (cx cy size : R) : list CanvasCall :=
  let s := size / 2 in
  [ BeginPath;
    MoveTo cx (cy + s * 0.3);
    BezierCurveTo (cx - s) (cy - s * 0.5) (cx - s) (cy + s * 0.5) cx (cy + s);
    BezierCurveTo (cx + s) (cy + s * 0.5) (cx + s) (cy - s * 0.5) cx (cy + s * 0.3);
    Fill ].

(** [drawHexagon] *)
Definition drawHexagon (cx cy radius : R) : list CanvasCall :=
  [BeginPath] ++
  ((fun i : nat =>
      let angle := (INR i * PI) / 3 - PI / 2 in
      let x := cx + radius * cos angle in
      let y := cy + radius * sin angle in
      if (i =? 0)%nat then MoveTo x y else LineTo x y) <$> seq 0 6) ++
  [ClosePath; Fill].

(** [drawSpiral] *)
Definition drawSpiral (cx cy radius angle : R) : list CanvasCall :=
  let turns := 2 in
  let steps := 20%nat in
  [BeginPath] ++
  ((fun i : nat =>
      let t := INR i / INR steps in
      let r := t * radius in
      let a := t * turns * PI * 2 + angle in
      let x := cx + cos a * r in
      let y := cy + sin a * r in
      if (i =? 0)%nat then MoveTo x y else LineTo x y) <$> seq 0 (S steps)) ++
  [SetStrokeStyleToFillStyle; SetLineWidth 2; Stroke].

(** The first loop of [drawParticle]: one fading disc for each point of
    the trail. *)
Definition drawTrail (particle : PhysicsParticle) : list CanvasCall :=
  mjoin (imap (fun (i : nat) (trailPoint : TrailPoint) =>
    let trailOpacity :=
      tp_opacity trailPoint * (1 - INR i / INR (length (p_trail particle))) * 0.3 in
    let trailSize :=
      p_size particle * (1 - INR i / INR (length (p_trail particle))) * 0.5 in
    [ Save;
      SetGlobalAlpha trailOpacity;
      SetFillStyle (p_color particle);
      BeginPath;
      Arc (tp_x trailPoint) (tp_y trailPoint) trailSize 0 (PI * 2);
      Fill;
      Restore ]) (p_trail particle)).

(** [drawParticle] *)
Definition drawParticle (w : World) (particle : PhysicsParticle) : list CanvasCall :=
  let pulseScale := 1 + sin (time w * 0.1 + p_pulsePhase particle) * 0.1 in
  let size := p_size particle * pulseScale in
  drawTrail particle ++
  [ Save;
    SetGlobalAlpha (p_opacity particle);
    Translate (p_x particle) (p_y particle);
    Rotate (p_rotation particle);
    SetFillStyle (p_color particle) ] ++
  match p_shape particle with
  | square => [FillRect (- size / 2) (- size / 2) size size]
  | circle => [BeginPath; Arc 0 0 (size / 2) 0 (PI * 2); Fill]
  | star => drawStar 0 0 5 (size / 2) (size / 4)
  | heart => drawHeart 0 0 size
  | hexagon => drawHexagon 0 0 (size / 2)
  | spiral => drawSpiral 0 0 (size / 2) (default 0 (p_spiralAngle particle))
  end ++
  [Restore].

(** [Array.from(this.particles.values())]: a [Map] is read in the order in
    which its keys were added, which is the order of the identifiers. *)
Definition particle_values (w : World) : list PhysicsParticle :=
  omap (fun i => particles w !! i) (seq 0 (particleIdCounter w)).

(** The pairs [(particles[i], particles[j])] with [i < j], in the order of
    the two nested loops of [drawConstellationLines]. *)
Fixpoint particle_pairs (ps : list PhysicsParticle) : list (PhysicsParticle * PhysicsParticle) :=
  match ps with
  | [] => []
  | p1 :: rest => ((fun p2 => (p1, p2)) <$> rest) ++ particle_pairs rest
  end.

(** [drawConstellationLines] *)
Definition drawConstellationLines (w : World) : list CanvasCall :=
  let connectionDistance := 100 in
  [SetStrokeStyle "rgba(255, 255, 255, 0.2)"; SetLineWidth 1] ++
  mjoin ((fun '((p1, p2) : PhysicsParticle * PhysicsParticle) =>
            let dx := p_x p2 - p_x p1 in
            let dy := p_y p2 - p_y p1 in
            let dist := sqrt (dx * dx + dy * dy) in
            if Rltb dist connectionDistance then
              let opacity :=
                (1 - dist / connectionDistance) *
                Rmin (p_opacity p1) (p_opacity p2) * 0.3 in
              [ SetGlobalAlpha opacity;
                BeginPath;
                MoveTo (p_x p1) (p_y p1);
                LineTo (p_x p2) (p_y p2);
                Stroke ]
            else []) <$> particle_pairs (particle_values w)) ++
  [SetGlobalAlpha 1].

(** [render], when the canvas and its context exist. *)
Definition render (w : World) : list CanvasCall :=
  [ClearRect 0 0 (innerWidth w) (innerHeight w)] ++
  drawConstellationLines w ++
  mjoin (drawParticle w <$> particle_values w).

(** What [animate] draws in the frame that follows [w]: it calls [render]
    when the dead particles are gone and before it asks for the next
    frame. *)
Definition drawn_in_frame (w : World) : list CanvasCall :=
  match rafQueue w with
  | _ :: q => render (remove_dead (exec animate_update (set_raf q (rafNext w) w)))
  | [] => []
  end.

(** A call that the canvas accepts as it is: an opacity within [0, 1],
    outside of which the assignment is ignored, and a radius that is not
    negative, without which [arc] throws. *)
Definition valid_call (c : CanvasCall) : Prop :=
  match c with
  | SetGlobalAlpha alpha => 0 <= alpha <= 1
  | Arc _ _ radius _ _ => 0 <= radius
  | _ => True
  end.

(** The depth of the stack of saved canvas states after the calls [l],
    from depth [d]; [None] when a [restore] finds the stack empty. *)
Fixpoint save_depth (d : nat) (l : list CanvasCall) : option nat :=
  match l with
  | [] => Some d
  | Save :: l' => save_depth (S d) l'
  | Restore :: l' => match d with O => None | S d' => save_depth d' l' end
  | _ :: l' => save_depth d l'
  end.


End Rendering.

(** ** ConfettiService *)

(** [PHYSICS_TYPES] of [src/ConfettiService.ts] *)
Definition PHYSICS_TYPES : list string :=
  [ "vortex"; "supernova"; "aurora"; "resonance"; "orbit"; "cascade";
    "emergence"; "harmony"; "helix"; "bloom"; "constellation"; "nebula" ]%string.

(** [isPhysicsType] *)
Definition isPhysicsType (type : string) : bool :=
  bool_decide (type ∈ PHYSICS_TYPES).

(** The argument of [celebrateEmotion]. *)
Record EmotionRequest := {
  er_emotion : string;
  er_intensity : option R;
  er_valence : option R;
  er_arousal : option R;
  er_heartRate : option R
}.

Section ServiceDefinitions.
Context {SF : StableFluids} {FF : FlowField2D}.
Local Open Scope R_scope.

(** The private fields of [class ConfettiServiceClass] in a browser,
    together with the engine that [getPhysicsConfettiEngine()] answers
    there: loading [PhysicsConfettiEngine.ts] has already created it. *)
Record ConfettiService := {
  svc_enabled : bool;
  svc_prefersReducedMotion : bool;
  svc_preferPhysics : bool;
  svc_engine : World
}.

Definition set_svc_engine (e : World) (s : ConfettiService) : ConfettiService :=
  {| svc_enabled := svc_enabled s;
     svc_prefersReducedMotion := svc_prefersReducedMotion s;
     svc_preferPhysics := svc_preferPhysics s;
     svc_engine := e |}.

(** [ConfettiService.setEnabled] *)
Definition svc_setEnabled (b : bool) (s : ConfettiService) : ConfettiService :=
  {| svc_enabled := b;
     svc_prefersReducedMotion := svc_prefersReducedMotion s;
     svc_preferPhysics := svc_preferPhysics s;
     svc_engine := exec (setEnabled b) (svc_engine s) |}.

(** [ConfettiService.setPreferPhysics] *)
Definition svc_setPreferPhysics (prefer : bool) (s : ConfettiService) : ConfettiService :=
  {| svc_enabled := svc_enabled s;
     svc_prefersReducedMotion := svc_prefersReducedMotion s;
     svc_preferPhysics := prefer;
     svc_engine := svc_engine s |}.

(** [ConfettiService.isEnabled] *)
Definition svc_isEnabled (s : ConfettiService) : bool :=
  svc_enabled s && negb (svc_prefersReducedMotion s).

(** [ConfettiService.isPhysicsEnabled]; the engine is never [null] in a
    browser. *)
Definition svc_isPhysicsEnabled (s : ConfettiService) : bool :=
  svc_preferPhysics s && true.

(** [ConfettiService.celebratePhysics] *)
Definition svc_celebratePhysics (config : PhysicsCelebrationConfig)
    (s : ConfettiService) : ConfettiService :=
  if negb (svc_isEnabled s) then s
  else set_svc_engine (exec (celebrate config) (svc_engine s)) s.

(** The object literal [{ type }]. *)
Definition config_of_type (type : string) : PhysicsCelebrationConfig :=
  {| cfg_type := type; cfg_origin := None; cfg_count := None; cfg_colors := None;
     cfg_intensity := None; cfg_heartRate := None; cfg_emotionContext := None |}.

(** [ConfettiService.celebrate].  [presets s type] stands for
    [getConfettiPresets()[type]], the classic preset of that name when
    canvas-confetti has one to offer. *)
Definition svc_celebrate
    (presets : ConfettiService -> string -> option (ConfettiService -> ConfettiService))
    (type : string) (s : ConfettiService) : ConfettiService :=
  if negb (svc_isEnabled s) then s
  else if isPhysicsType type && svc_isPhysicsEnabled s then
    svc_celebratePhysics (config_of_type type) s
  else
    match presets s type with
    | Some preset => preset s
    | None => s
    end.

(** The choice of a celebration type in [celebrateEmotion]. *)
Definition emotion_type (valence arousal : R) (heartRate : option R) : M string :=
  type ←
    (if Rgtb arousal 0.7 then
       mret (if Rgtb valence 0 then "supernova" else "vortex")
     else if Rltb arousal 0.3 then
       mret (if Rgtb valence 0 then "aurora" else "nebula")
     else if Rgtb valence 0.5 then
       r ← random; mret (if Rgtb r 0.5 then "bloom" else "harmony")
     else if Rgtb valence 0 then
       r ← random; mret (if Rgtb r 0.5 then "orbit" else "constellation")
     else
       r ← random; mret (if Rgtb r 0.5 then "cascade" else "emergence"))%string;
  mret (match heartRate with
        | Some h => if Rgtb h 0 then "resonance"%string else type
        | None => type
        end).

(** The configuration that [celebrateEmotion] hands to
    [celebratePhysics]. *)
Definition emotion_config (type : string) (request : EmotionRequest)
    : PhysicsCelebrationConfig :=
  {| cfg_type := type;
     cfg_origin := None;
     cfg_count := None;
     cfg_colors := None;
     cfg_intensity := Some (default 0.7 (er_intensity request));
     cfg_heartRate := er_heartRate request;
     cfg_emotionContext :=
       Some {| valence := default 0 (er_valence request);
               arousal := default 0.5 (er_arousal request);
               dominantEmotion := Some (er_emotion request) |} |}.

(** [ConfettiService.celebrateEmotion] *)
Definition svc_celebrateEmotion (request : EmotionRequest)
    (s : ConfettiService) : ConfettiService :=
  if negb (svc_isEnabled s) then s
  else
    let valence := default 0 (er_valence request) in
    let arousal := default 0.5 (er_arousal request) in
    let '(type, e) := emotion_type valence arousal (er_heartRate request) (svc_engine s) in
    svc_celebratePhysics (emotion_config type request) (set_svc_engine e s).

(** [ConfettiService.resonance] *)
Definition svc_resonance (heartRate : option R) (s : ConfettiService) : ConfettiService :=
  svc_celebratePhysics
    {| cfg_type := "resonance"; cfg_origin := None; cfg_count := None;
       cfg_colors := None; cfg_intensity := None; cfg_heartRate := heartRate;
       cfg_emotionContext := None |} s.

End ServiceDefinitions.

(** ** Sample states

    A browser window of 1000 by 800 with the recording stand-in for the
    field library; [Math.random()] always answers [r]. *)

Definition sample_engine (reducedMotion : bool) (r : R) : @World LoggedFluids LoggedFlow :=
  new_engine 1000 800 reducedMotion (fun _ => r).

(** [{ type, count }] *)
Definition sample_config (type : string) (count : nat) : PhysicsCelebrationConfig :=
  {| cfg_type := type; cfg_origin := None; cfg_count := Some count;
     cfg_colors := None; cfg_intensity := None; cfg_heartRate := None;
     cfg_emotionContext := None |}.

(** The sample engine after [celebrate({ type, count })]. *)
Definition after_celebrate (type : string) (count : nat) (r : R)
    : @World LoggedFluids LoggedFlow :=
  exec (celebrate (sample_config type count)) (sample_engine false r).

(** A particle half a tick away from the end of its life. *)
Definition sample_particle : PhysicsParticle :=
  {| p_id := 0; p_x := 0; p_y := 0; p_vx := 0; p_vy := 0; p_ax := 0; p_ay := 0;
     p_size := 8; p_rotation := 0; p_rotationVelocity := 0;
     p_color := "#10b981"; p_opacity := 0.01; p_life := 0.5; p_maxLife := 100;
     p_mass := 1; p_shape := square; p_trail := []; p_pulsePhase := 0;
     p_spiralAngle := None |}.

(** An attractor at distance 5 from the origin. *)
Definition sample_attractor (type : AttractorType) : Attractor :=
  {| a_x := 3; a_y := 4; a_strength := 500; a_radius := 10; a_type := type |}.

(** A service in a fresh browser window, before canvas-confetti has
    loaded. *)
Definition sample_service (preferPhysics : bool) : @ConfettiService LoggedFluids LoggedFlow :=
  {| svc_enabled := true; svc_prefersReducedMotion := false;
     svc_preferPhysics := preferPhysics; svc_engine := sample_engine false 0 |}.

Definition no_presets : @ConfettiService LoggedFluids LoggedFlow -> string ->
    option (@ConfettiService LoggedFluids LoggedFlow -> @ConfettiService LoggedFluids LoggedFlow) :=
  fun _ _ => None.

(** * Properties *)

Lemma Rltb_true a b : Rltb a b = true <-> (a < b)%R.
Proof. unfold Rltb. destruct (Rlt_dec a b); split; intros; try done; lra. Qed.

Lemma Rltb_false a b : Rltb a b = false <-> (b <= a)%R.
Proof. unfold Rltb. destruct (Rlt_dec a b); split; intros; try done; lra. Qed.

Lemma Rleb_true a b : Rleb a b = true <-> (a <= b)%R.
Proof. unfold Rleb. destruct (Rle_dec a b); split; intros; try done; lra. Qed.

Lemma Rleb_false a b : Rleb a b = false <-> (b < a)%R.
Proof. unfold Rleb. destruct (Rle_dec a b); split; intros; try done; lra. Qed.

Section Properties.
Context {SF : StableFluids} {FF : FlowField2D}.

Local Open Scope R_scope.

(** ** Running a method *)

Lemma exec_bind {A B} (m : M A) (f : A -> M B) w :
  exec (m ≫= f) w = exec (f (m w).1) (m w).2.
Proof. unfold exec, mbind, M_bind. by destruct (m w). Qed.

Lemma exec_seq {A} (m : M unit) (k : M A) w :
  exec (m;; k) w = exec k (exec m w).
Proof. rewrite exec_bind. reflexivity. Qed.

Lemma exec_modify f w : exec (modify f) w = f w.
Proof. reflexivity. Qed.

Lemma exec_get_bind {A B} (field : World -> A) (k : A -> M B) w :
  exec (get field ≫= k) w = exec (k (field w)) w.
Proof. reflexivity. Qed.

Lemma exec_ret w : exec (mret tt) w = w.
Proof. reflexivity. Qed.

Lemma exec_random_bind {A} (k : R -> M A) w :
  exec (random ≫= k) w = exec (k (rnd w (rndPos w))) (set_rndPos (S (rndPos w)) w).
Proof. reflexivity. Qed.

Lemma exec_for_each_cons {A} (a : A) l body w :
  exec (for_each (a :: l) body) w = exec (for_each l body) (exec (body a) w).
Proof. simpl. by rewrite exec_seq. Qed.

(** ** [addParticle] *)

Lemma addParticle_counter config w :
  particleIdCounter (exec (addParticle config) w) = S (particleIdCounter w).
Proof. unfold addParticle. by destruct (c_pulsePhase config). Qed.

Lemma addParticle_lookup_new config w :
  exists p, particles (exec (addParticle config) w) !! particleIdCounter w = Some p /\
    p_id p = particleIdCounter w /\ p_opacity p = 1 /\ p_trail p = [] /\
    p_ax p = 0 /\ p_ay p = 0 /\
    p_life p = default 150 (c_life config) /\ p_maxLife p = default 150 (c_life config).
Proof.
  unfold addParticle.
  destruct (c_pulsePhase config); (eexists; split; [apply lookup_insert_eq|done]).
Qed.

Lemma addParticle_lookup_old config w i :
  i ≠ particleIdCounter w ->
  particles (exec (addParticle config) w) !! i = particles w !! i.
Proof.
  intros Hi. unfold addParticle.
  destruct (c_pulsePhase config); by apply lookup_insert_ne.
Qed.

(** ** Spawning particles *)

Lemma same_sched_refl w : same_sched w w.
Proof. by repeat split. Qed.

Lemma same_sched_trans w1 w2 w3 : same_sched w1 w2 -> same_sched w2 w3 -> same_sched w1 w3.
Proof. unfold same_sched. intros H1 H2. destruct_and!. repeat split; congruence. Qed.

Lemma same_fields_refl w : same_fields w w.
Proof. by repeat split. Qed.

Lemma same_fields_trans w1 w2 w3 : same_fields w1 w2 -> same_fields w2 w3 -> same_fields w1 w3.
Proof. unfold same_fields. intros H1 H2. destruct_and!. repeat split; congruence. Qed.

Lemma grows_refl w : grows 0 w w.
Proof. repeat split; try done; intros; lia. Qed.

Lemma grows_trans n m w1 w2 w3 :
  grows n w1 w2 -> grows m w2 w3 -> grows (n + m) w1 w3.
Proof.
  intros (Hc1 & Hn1 & Ho1 & He1) (Hc2 & Hn2 & Ho2 & He2).
  split; [lia|]. split; [|split].
  - intros i Hi. destruct (decide (i < particleIdCounter w1 + n)%nat).
    + rewrite Ho2 by lia. apply Hn1. lia.
    + apply Hn2. lia.
  - intros i Hi. rewrite Ho2 by lia. apply Ho1. lia.
  - by eapply same_sched_trans.
Qed.

Lemma spawns_refl w : spawns 0 w w.
Proof. split; [apply grows_refl|apply same_fields_refl]. Qed.

Lemma spawns_trans n m w1 w2 w3 :
  spawns n w1 w2 -> spawns m w2 w3 -> spawns (n + m) w1 w3.
Proof.
  intros [Hg1 Hf1] [Hg2 Hf2]. split;
    [by eapply grows_trans|by eapply same_fields_trans].
Qed.

Lemma spawns_rndPos n k w w' : spawns n (set_rndPos k w) w' -> spawns n w w'.
Proof. done. Qed.

Lemma spawns_addParticle config life w :
  c_life config = Some life -> 80 <= life ->
  spawns 1 w (exec (addParticle config) w).
Proof.
  intros Hlife Hle. split; [split; [|split; [|split]]|].
  - rewrite addParticle_counter. lia.
  - intros i Hi. assert (i = particleIdCounter w) as -> by lia.
    destruct (addParticle_lookup_new config w) as (p & Hp & Hid & Hop & _ & _ & _ & Hl & Hm).
    exists p. rewrite Hlife in Hl, Hm. simpl in Hl, Hm.
    repeat split; try done; [congruence|lra].
  - intros i Hi. apply addParticle_lookup_old. lia.
  - unfold addParticle. by destruct (c_pulsePhase config).
  - unfold addParticle. by destruct (c_pulsePhase config).
Qed.

Lemma spawns_rnd n w w' : spawns n w w' -> rnd w' = rnd w.
Proof. intros [(_ & _ & _ & Hs) _]. unfold same_sched in Hs. by destruct_and!. Qed.

Lemma spawns_for_each {A} (f : A -> nat) (body : A -> M unit) (l : list A) w :
  (forall a w0, a ∈ l -> rnd w0 = rnd w -> spawns (f a) w0 (exec (body a) w0)) ->
  spawns (sum_list (f <$> l)) w (exec (for_each l body) w).
Proof.
  revert w. induction l as [|a l IH]; intros w Hbody.
  - apply spawns_refl.
  - rewrite exec_for_each_cons. cbn [fmap list_fmap sum_list].
    assert (spawns (f a) w (exec (body a) w)) as Ha.
    { apply Hbody; [left|done]. }
    eapply spawns_trans; [exact Ha|].
    apply IH. intros b w0 Hb Hr. apply Hbody; [by right|].
    rewrite Hr. by eapply spawns_rnd.
Qed.

Lemma sum_list_replicate_const {A} (l : list A) (n : nat) :
  sum_list ((fun _ => n) <$> l) = (length l * n)%nat.
Proof. induction l as [|a l IH]; [done|]. rewrite fmap_cons. simpl. rewrite IH. lia. Qed.

Lemma grows_wf n w w' : wf w -> grows n w w' -> wf w'.
Proof.
  intros [Hf Hi Hr Hrn Hrnd] (Hc & Hn & Ho & He).
  destruct He as (Hai & _ & _ & _ & _ & _ & Hrq & Hqn & Hrd).
  split.
  - intros i p Hp.
    destruct (decide (particleIdCounter w <= i < particleIdCounter w + n)%nat); [lia|].
    rewrite Ho in Hp by done. apply Hf in Hp. lia.
  - intros i p Hp.
    destruct (decide (particleIdCounter w <= i < particleIdCounter w + n)%nat) as [Hin|Hout].
    + destruct (Hn i Hin) as (q & Hq & Hid & _). congruence.
    + rewrite Ho in Hp by done. by eapply Hi.
  - by rewrite Hrq, Hai.
  - intros i Ha. rewrite Hqn. apply Hrn. by rewrite <- Hai.
  - by rewrite Hrd.
Qed.

Lemma grows_dom n w w' :
  grows n w w' ->
  dom (particles w') = dom (particles w) ∪ set_seq (particleIdCounter w) n.
Proof.
  intros (Hc & Hn & Ho & He). apply set_eq. intros i.
  rewrite elem_of_union, !elem_of_dom, elem_of_set_seq.
  destruct (decide (particleIdCounter w <= i < particleIdCounter w + n)%nat) as [Hin|Hout].
  - destruct (Hn i Hin) as (p & Hp & _). rewrite Hp. split; [by right|by eauto].
  - rewrite Ho by done. split; [by left|]. intros [?|?]; [done|lia].
Qed.

Lemma grows_size n w w' :
  wf w -> grows n w w' ->
  size (particles w') = (size (particles w) + n)%nat.
Proof.
  intros Hwf Hs. rewrite <- !size_dom, (grows_dom n w w' Hs).
  rewrite size_union.
  - by rewrite size_set_seq.
  - intros i Hi Hseq. apply elem_of_dom in Hi as [p Hp].
    apply elem_of_set_seq in Hseq. apply (wf_fresh w Hwf) in Hp. lia.
Qed.

Lemma grows_old n w w' i p :
  wf w -> grows n w w' -> particles w !! i = Some p -> particles w' !! i = Some p.
Proof.
  intros Hwf (Hc & Hn & Ho & He) Hp. rewrite Ho; [done|].
  apply (wf_fresh w Hwf) in Hp. lia.
Qed.

(** ** The recipes *)

Ltac spawn_one :=
  repeat (cbv beta zeta; rewrite exec_random_bind; eapply spawns_rndPos);
  cbv beta zeta;
  eapply spawns_addParticle; [reflexivity|].

Ltac rnd_bound H :=
  cbn [rnd set_rndPos];
  repeat match goal with
  | |- context [rnd ?w ?k] =>
      let r := fresh "r" in
      let Hr := fresh "Hr" in
      pose proof (H k) as Hr; set (r := rnd w k) in *; clearbody r
  end.

(** Closes the goal left by [spawn_one]: the life that the recipe gives is
    at least 80. *)
Ltac life_bound Hrnd Hr :=
  let H0 := fresh "Hrnd0" in
  match type of Hr with
  | rnd ?w0 = _ =>
      assert (forall n, 0 <= rnd w0 n < 1) as H0 by (intros ?; first [apply Hrnd|rewrite Hr; apply Hrnd])
  end;
  rnd_bound H0;
  repeat match goal with
  | |- context [INR ?n] =>
      let H := fresh in pose proof (pos_INR n) as H; generalize dependent (INR n); intros
  end;
  lra.

Lemma spawns_list_each {A} (n : nat) (body : A -> M unit) (l : list A) w :
  (forall a w0, rnd w0 = rnd w -> spawns n w0 (exec (body a) w0)) ->
  spawns (length l * n) w (exec (for_each l body) w).
Proof.
  intros Hbody. rewrite <- (sum_list_replicate_const l n).
  apply spawns_for_each. intros a w0 _. apply Hbody.
Qed.

Lemma spawns_seq_each (n count : nat) (body : nat -> M unit) w :
  (forall i w0, rnd w0 = rnd w -> spawns n w0 (exec (body i) w0)) ->
  spawns (count * n) w (exec (for_each (seq 0 count) body) w).
Proof.
  intros Hbody.
  replace (count * n)%nat with (length (seq 0 count) * n)%nat by by rewrite length_seq.
  by apply spawns_list_each.
Qed.

Lemma spawns_seq_one (count : nat) (body : nat -> M unit) w :
  (forall i w0, rnd w0 = rnd w -> spawns 1 w0 (exec (body i) w0)) ->
  spawns count w (exec (for_each (seq 0 count) body) w).
Proof.
  intros Hbody. replace count with (count * 1)%nat at 1 by lia.
  by apply spawns_seq_each.
Qed.

Lemma spawns_list_one {A} (body : A -> M unit) (l : list A) w :
  (forall a w0, rnd w0 = rnd w -> spawns 1 w0 (exec (body a) w0)) ->
  spawns (length l) w (exec (for_each l body) w).
Proof.
  intros Hbody. replace (length l) with (length l * 1)%nat by lia.
  by apply spawns_list_each.
Qed.

Lemma quiet_grows w w' :
  particles w' = particles w -> particleIdCounter w' = particleIdCounter w ->
  same_sched w w' -> grows 0 w w'.
Proof.
  intros Hp Hc Hs. split; [lia|]. split; [intros; lia|]. split; [|done].
  intros i _. by rewrite Hp.
Qed.

Lemma recipe_effect_intro n atts tms lis w w1 w2 w' :
  spawns n w1 w2 -> grows 0 w w1 -> grows 0 w2 w' ->
  attractors w1 = attractors w ++ atts -> attractors w' = attractors w2 ->
  timers w1 = timers w -> timers w' = timers w2 ++ tms ->
  lissajous w1 = lis -> lissajous w' = lissajous w2 ->
  recipe_effect n atts tms lis w w'.
Proof.
  intros [G2 (Fa & _ & _ & Fl & Ft)] G1 G3 A1 A2 T1 T2 L1 L2.
  split; [|split; [|split]].
  - replace n with (0 + n + 0)%nat by lia.
    eapply grows_trans; [eapply grows_trans|]; eassumption.
  - congruence.
  - congruence.
  - congruence.
Qed.

Lemma recipe_effect_loop n atts lis w w1 w2 :
  spawns n w1 w2 -> grows 0 w w1 ->
  attractors w1 = attractors w ++ atts -> timers w1 = timers w ->
  lissajous w1 = lis ->
  recipe_effect n atts [] lis w w2.
Proof.
  intros S G1 A T L.
  eapply (recipe_effect_intro n atts [] lis w w1 w2 w2); try done.
  - apply grows_refl.
  - by rewrite app_nil_r.
Qed.

Ltac quiet := apply quiet_grows; [reflexivity|reflexivity|by repeat split].

Lemma createVortex_effect x y count colors intensity w :
  rnd_ok w ->
  recipe_effect count (recipe_attractors Vortex x y intensity) [] (lissajous w)
    w (exec (createVortex x y count colors intensity) w).
Proof.
  intros Hrnd. unfold createVortex. rewrite !exec_seq.
  eapply recipe_effect_loop;
    [apply spawns_seq_one; intros i w0 Hr; spawn_one; life_bound Hrnd Hr
    |quiet|reflexivity..].
Qed.

Lemma set_timers_id w : set_timers (timers w) w = w.
Proof. by destruct w. Qed.

Lemma exec_for_each_setTimeout {A} (l : list A) (cb : A -> TimerCallback) (d : A -> R) w :
  exec (for_each l (fun a => setTimeout (cb a) (d a))) w =
  set_timers (timers w ++ ((fun a => {| t_delay := d a; t_callback := cb a |}) <$> l)) w.
Proof.
  revert w. induction l as [|a l IH]; intros w.
  - simpl. by rewrite app_nil_r, set_timers_id.
  - rewrite exec_for_each_cons, IH. unfold setTimeout. rewrite exec_modify.
    rewrite fmap_cons. cbn [timers set_timers]. rewrite <- app_assoc. reflexivity.
Qed.

Lemma sum_list_indicator {A} (P : A -> bool) (l : list A) :
  sum_list ((fun a => if P a then 1%nat else 0%nat) <$> l) =
  length (filter (fun a => P a = true) l).
Proof.
  induction l as [|a l IH]; [done|].
  rewrite fmap_cons, filter_cons. simpl. rewrite IH.
  destruct (P a); by case_decide.
Qed.

Lemma exec_setTimeout cb d w :
  exec (setTimeout cb d) w =
  set_timers (timers w ++ [ {| t_delay := d; t_callback := cb |} ]) w.
Proof. reflexivity. Qed.

Lemma recipe_effect_timers n atts tms lis w w1 w2 :
  spawns n w1 w2 -> grows 0 w w1 ->
  attractors w1 = attractors w ++ atts -> timers w1 = timers w ->
  lissajous w1 = lis ->
  recipe_effect n atts tms lis w (set_timers (timers w2 ++ tms) w2).
Proof.
  intros S G A T L.
  eapply (recipe_effect_intro n atts tms lis w w1 w2); try done.
  by apply quiet_grows.
Qed.

Ltac nil_or_refl := first [reflexivity | symmetry; apply app_nil_r].

Lemma createSupernova_effect x y count colors intensity w :
  rnd_ok w ->
  recipe_effect (spawned_now Supernova count (innerWidth w) (innerHeight w))
    (recipe_attractors Supernova x y intensity)
    (recipe_timers Supernova x y count colors intensity None (innerWidth w))
    (lissajous w) w (exec (createSupernova x y count colors intensity) w).
Proof.
  intros Hrnd. unfold createSupernova. rewrite !exec_seq, exec_setTimeout.
  eapply recipe_effect_timers;
    [apply spawns_list_one; intros i w0 Hr; spawn_one; life_bound Hrnd Hr
    |quiet|nil_or_refl..].
Qed.

Lemma supernovaSecondary_spawns x y count colors intensity w :
  rnd_ok w ->
  spawns (length (count_up count 0 (INR count * 0.4))) w
    (exec (supernovaSecondary x y count colors intensity) w).
Proof.
  intros Hrnd. unfold supernovaSecondary.
  apply spawns_list_one; intros i w0 Hr; spawn_one; life_bound Hrnd Hr.
Qed.

Lemma createAurora_effect count colors intensity w :
  rnd_ok w ->
  recipe_effect (spawned_now Aurora count (innerWidth w) (innerHeight w)) [] []
    (lissajous w) w (exec (createAurora count colors intensity) w).
Proof.
  intros Hrnd. unfold createAurora. rewrite !exec_get_bind, exec_seq.
  eapply recipe_effect_loop;
    [apply (spawns_seq_each (count / 4) 4); intros ribbon w0 Hr;
     apply spawns_seq_one; intros i w1 Hr1; rewrite <- Hr1 in Hr;
     spawn_one; life_bound Hrnd Hr
    |quiet|nil_or_refl..].
Qed.

Lemma createResonance_effect x y count colors intensity heartRate w :
  rnd_ok w ->
  recipe_effect (spawned_now Resonance count (innerWidth w) (innerHeight w))
    (recipe_attractors Resonance x y intensity)
    (recipe_timers Resonance x y count colors intensity heartRate (innerWidth w))
    (lissajous w) w (exec (createResonance x y count colors intensity heartRate) w).
Proof.
  intros Hrnd. unfold createResonance. cbv zeta.
  rewrite !exec_seq, exec_for_each_setTimeout.
  eapply recipe_effect_timers;
    [apply (spawns_seq_each (count / 4) 4); intros ring w0 Hr;
     apply spawns_seq_one; intros i w1 Hr1; rewrite <- Hr1 in Hr;
     spawn_one; life_bound Hrnd Hr
    |quiet|nil_or_refl..].
Qed.

Lemma createOrbit_effect x y count colors intensity w :
  rnd_ok w ->
  recipe_effect (spawned_now Orbit count (innerWidth w) (innerHeight w))
    (recipe_attractors Orbit x y intensity) [] (lissajous w)
    w (exec (createOrbit x y count colors intensity) w).
Proof.
  intros Hrnd. unfold createOrbit. cbv zeta. rewrite exec_seq.
  eapply recipe_effect_loop.
  - apply (spawns_list_each (count / 3)). intros [ci [[cx cy] strength]] w0 Hr.
    apply spawns_seq_one; intros i w1 Hr1; rewrite <- Hr1 in Hr.
    spawn_one. life_bound Hrnd Hr.
  - quiet.
  - cbn [for_each]. rewrite !exec_seq. unfold push_attractor.
    rewrite !exec_modify, exec_ret. cbn [attractors set_attractors].
    by rewrite <- !app_assoc.
  - reflexivity.
  - reflexivity.
Qed.

Lemma createCascade_effect count colors intensity w :
  recipe_effect 0 [] (recipe_timers Cascade 0 0 count colors intensity None (innerWidth w))
    (lissajous w) w (exec (createCascade count colors intensity) w).
Proof.
  unfold createCascade. rewrite exec_get_bind. cbv zeta.
  rewrite exec_seq, exec_for_each_setTimeout.
  eapply recipe_effect_timers; [apply spawns_refl|quiet|nil_or_refl..].
Qed.

Lemma cascadeSpawn_spawns width colors w :
  rnd_ok w -> spawns 1 w (exec (cascadeSpawn width colors) w).
Proof.
  intros Hrnd. unfold cascadeSpawn.
  assert (rnd w = rnd w) as Hr by done. spawn_one. life_bound Hrnd Hr.
Qed.

Lemma createEmergence_effect x y count colors intensity w :
  recipe_effect 0 [] (recipe_timers Emergence x y count colors intensity None (innerWidth w))
    (lissajous w) w (exec (createEmergence x y count colors intensity) w).
Proof.
  unfold createEmergence. cbv zeta.
  rewrite exec_seq, (exec_for_each_setTimeout _ (fun i => EmergenceSpawn x y i colors)).
  eapply recipe_effect_timers; [apply spawns_refl|quiet|nil_or_refl..].
Qed.

Lemma emergenceSpawn_spawns x y i colors w :
  rnd_ok w -> spawns 1 w (exec (emergenceSpawn x y i colors) w).
Proof.
  intros Hrnd. unfold emergenceSpawn.
  assert (rnd w = rnd w) as Hr by done. spawn_one. life_bound Hrnd Hr.
Qed.

Lemma createHarmony_effect x y count colors intensity w :
  rnd_ok w ->
  recipe_effect count (recipe_attractors Harmony x y intensity) [] (Some baseAttractors)
    w (exec (createHarmony x y count colors intensity) w).
Proof.
  intros Hrnd. unfold createHarmony. rewrite !exec_seq.
  eapply recipe_effect_loop.
  - apply spawns_seq_one; intros i w0 Hr; spawn_one; life_bound Hrnd Hr.
  - quiet.
  - unfold baseAttractors. cbn [for_each]. rewrite !exec_seq. unfold push_attractor.
    rewrite !exec_modify, exec_ret. cbn [attractors set_attractors].
    by rewrite <- !app_assoc.
  - reflexivity.
  - reflexivity.
Qed.

Lemma createHelix_effect x y count colors intensity w :
  rnd_ok w ->
  recipe_effect (spawned_now Helix count (innerWidth w) (innerHeight w)) [] []
    (lissajous w) w (exec (createHelix x y count colors intensity) w).
Proof.
  intros Hrnd. unfold createHelix. rewrite exec_get_bind. cbv zeta.
  eapply recipe_effect_loop;
    [apply (spawns_seq_each (count / 2) 2); intros strand w0 Hr;
     apply spawns_seq_one; intros i w1 Hr1; rewrite <- Hr1 in Hr;
     spawn_one; life_bound Hrnd Hr
    |apply grows_refl|nil_or_refl..].
Qed.

Lemma createBloom_effect x y count colors intensity w :
  rnd_ok w ->
  recipe_effect (spawned_now Bloom count (innerWidth w) (innerHeight w))
    (recipe_attractors Bloom x y intensity) [] (lissajous w)
    w (exec (createBloom x y count colors intensity) w).
Proof.
  intros Hrnd. unfold createBloom. cbv zeta. rewrite exec_seq.
  eapply recipe_effect_loop;
    [apply (spawns_seq_each (4 * (count / 8 / 4)) 8); intros petal w0 Hr;
     apply (spawns_seq_each (count / 8 / 4) 4); intros layer w1 Hr1;
     rewrite <- Hr1 in Hr;
     apply spawns_seq_one; intros i w2 Hr2; rewrite <- Hr2 in Hr;
     spawn_one; life_bound Hrnd Hr
    |quiet|nil_or_refl..].
Qed.

Lemma createConstellation_effect count colors intensity w :
  rnd_ok w ->
  recipe_effect (spawned_now Constellation count (innerWidth w) (innerHeight w)) [] []
    (lissajous w) w (exec (createConstellation count colors intensity) w).
Proof.
  intros Hrnd. unfold createConstellation. rewrite !exec_get_bind.
  eapply recipe_effect_loop; [|apply grows_refl|nil_or_refl..].
  unfold spawned_now, constellation_kept. rewrite <- sum_list_indicator.
  apply spawns_for_each. intros i w0 _ Hr.
  destruct (constellation_position (innerWidth w) (innerHeight w) i) as [px py].
  destruct (constellation_on_screen (innerWidth w) (innerHeight w) i).
  - spawn_one. life_bound Hrnd Hr.
  - apply spawns_refl.
Qed.

Lemma createNebula_effect x y count colors intensity w :
  rnd_ok w ->
  recipe_effect count [] [] (lissajous w)
    w (exec (createNebula x y count colors intensity) w).
Proof.
  intros Hrnd. unfold createNebula, nebula_density. rewrite exec_seq, exec_get_bind.
  destruct (fluid w) as [f|] eqn:Hf.
  - eapply recipe_effect_loop;
      [apply spawns_seq_one; intros i w0 Hr; spawn_one; life_bound Hrnd Hr
      |quiet|nil_or_refl..].
  - eapply recipe_effect_loop;
      [apply spawns_seq_one; intros i w0 Hr; spawn_one; life_bound Hrnd Hr
      |quiet|nil_or_refl..].
Qed.

Lemma run_recipe_effect r x y count colors intensity heartRate w :
  rnd_ok w ->
  recipe_effect (spawned_now r count (innerWidth w) (innerHeight w))
    (recipe_attractors r x y intensity)
    (recipe_timers r x y count colors intensity heartRate (innerWidth w))
    (match r with Harmony => Some baseAttractors | _ => lissajous w end)
    w (exec (run_recipe (Some r) x y count colors intensity heartRate) w).
Proof.
  intros Hrnd. destruct r; cbn [run_recipe].
  - by apply createVortex_effect.
  - by apply createSupernova_effect.
  - by apply createAurora_effect.
  - by apply createResonance_effect.
  - by apply createOrbit_effect.
  - by apply createCascade_effect.
  - by apply createEmergence_effect.
  - by apply createHarmony_effect.
  - by apply createHelix_effect.
  - by apply createBloom_effect.
  - by apply createConstellation_effect.
  - by apply createNebula_effect.
Qed.

Lemma spawns_effect n w w' :
  spawns n w w' -> recipe_effect n [] [] (lissajous w) w w'.
Proof.
  intros [Hg (Ha & _ & _ & Hl & Ht)].
  repeat split; try apply Hg; rewrite ?app_nil_r; done.
Qed.

Lemma run_callback_effect cb w :
  rnd_ok w ->
  recipe_effect (spawned_later cb) [] [] (lissajous w) w (exec (run_callback cb) w).
Proof.
  intros Hrnd. destruct cb; cbn [run_callback spawned_later].
  - by apply spawns_effect, supernovaSecondary_spawns.
  - unfold recipe_effect. rewrite !app_nil_r. split; [quiet|done].
  - by apply spawns_effect, cascadeSpawn_spawns.
  - by apply spawns_effect, emergenceSpawn_spawns.
Qed.

(** ** The tick *)

Lemma lookup_foldl_delete {A} (l : list nat) (m : gmap nat A) (k : nat) :
  foldl (fun m i => delete i m) m l !! k =
  if decide (k ∈ l) then None else m !! k.
Proof.
  revert m. induction l as [|i l IH]; intros m.
  - cbn [foldl]. destruct (decide (k ∈ [])) as [H|H]; [|done].
    by apply not_elem_of_nil in H.
  - cbn [foldl]. rewrite IH.
    destruct (decide (k ∈ l)) as [Hl|Hl], (decide (k ∈ i :: l)) as [Hil|Hil];
      try done.
    + exfalso. apply Hil. by right.
    + apply elem_of_cons in Hil as [->|?]; [|done]. apply lookup_delete_eq.
    + apply lookup_delete_ne. intros ->. apply Hil. by left.
Qed.

Lemma elem_of_deadParticles w k :
  (forall i p, particles w !! i = Some p -> p_id p = i) ->
  k ∈ deadParticles w <-> exists p, particles w !! k = Some p /\ is_dead p = true.
Proof.
  intros Hid. unfold deadParticles. rewrite list_elem_of_fmap. split.
  - intros (p & -> & Hp). apply list_elem_of_filter in Hp as [Hd Hp].
    apply list_elem_of_fmap in Hp as ([i q] & -> & Hiq).
    apply elem_of_map_to_list in Hiq. simpl in *.
    exists q. split; [|done]. by rewrite (Hid i q Hiq).
  - intros (p & Hp & Hd). exists p. split; [by rewrite (Hid k p Hp)|].
    apply list_elem_of_filter. split; [done|].
    apply list_elem_of_fmap. exists (k, p). split; [done|].
    by apply elem_of_map_to_list.
Qed.

Lemma remove_dead_lookup w k :
  (forall i p, particles w !! i = Some p -> p_id p = i) ->
  particles (remove_dead w) !! k =
  match particles w !! k with
  | Some p => if is_dead p then None else Some p
  | None => None
  end.
Proof.
  intros Hid. unfold remove_dead. cbn [particles set_particles].
  rewrite lookup_foldl_delete. case_decide as Hk.
  - apply (elem_of_deadParticles w k Hid) in Hk as (p & -> & ->). done.
  - destruct (particles w !! k) as [p|] eqn:Hp; [|done].
    destruct (is_dead p) eqn:Hd; [|done].
    exfalso. apply Hk, (elem_of_deadParticles w k Hid). eauto.
Qed.

Lemma update_particles_lookup w k :
  particles (update_particles w) !! k =
  (fun p => updateParticle w p 1) <$> particles w !! k.
Proof. unfold update_particles. cbn [particles set_particles]. apply lookup_fmap. Qed.

Lemma updateParticle_id w p dt : p_id (updateParticle w p dt) = p_id p.
Proof.
  unfold updateParticle.
  repeat match goal with |- context [let '(_, _) := ?e in _] => destruct e end.
  reflexivity.
Qed.

Lemma updateParticle_life w p dt : p_life (updateParticle w p dt) = p_life p - dt.
Proof.
  unfold updateParticle.
  repeat match goal with |- context [let '(_, _) := ?e in _] => destruct e end.
  reflexivity.
Qed.

Lemma updateParticle_maxLife w p dt : p_maxLife (updateParticle w p dt) = p_maxLife p.
Proof.
  unfold updateParticle.
  repeat match goal with |- context [let '(_, _) := ?e in _] => destruct e end.
  reflexivity.
Qed.

Lemma updateParticle_opacity w p dt :
  p_opacity (updateParticle w p dt) = Rmin 1 ((p_life p - dt) / p_maxLife p * 2).
Proof.
  unfold updateParticle.
  repeat match goal with |- context [let '(_, _) := ?e in _] => destruct e end.
  reflexivity.
Qed.

Lemma set_attractors_id w : set_attractors (attractors w) w = w.
Proof. by destruct w. Qed.

Lemma update_lissajous_set w :
  update_lissajous w = set_attractors (attractors (update_lissajous w)) w.
Proof.
  unfold update_lissajous. destruct (lissajous w); [|by rewrite set_attractors_id].
  destruct (3 <=? length (attractors w))%nat; [done|by rewrite set_attractors_id].
Qed.

Lemma exec_animate_fields w :
  exec animate_fields w =
  set_flowField (flow_update 1 <$> flowField w)
    (set_fluid (fluid_step (1 * 0.016) <$> fluid w)
       (set_attractors (attractors (update_lissajous (set_time (time w + 1) w)))
          (set_time (time w + 1) w))).
Proof.
  unfold animate_fields. cbv zeta. rewrite !exec_seq.
  unfold with_flowField, with_fluid. rewrite !exec_modify.
  pose proof (update_lissajous_set (set_time (time w + 1) w)) as H.
  remember (update_lissajous (set_time (time w + 1) w)) as u eqn:Hu.
  remember (attractors u) as a eqn:Ha. clear Hu Ha. by subst u.
Qed.

Lemma exec_animate w :
  exec animate w =
  exec schedule_next (remove_dead (update_particles (exec animate_fields w))).
Proof. reflexivity. Qed.

Lemma exec_schedule_next w :
  exec schedule_next w =
  if (0 <? size (particles w))%nat || (0 <? length (attractors w))%nat then
    set_animationId (Some (rafNext w))
      (set_raf (rafQueue w ++ [rafNext w]) (S (rafNext w)) w)
  else set_lissajous None (set_animationId None w).
Proof.
  unfold schedule_next. rewrite !exec_get_bind.
  by destruct ((0 <? size (particles w))%nat || (0 <? length (attractors w))%nat).
Qed.

(** What the tick does to the particle stored under [k]. *)
Lemma animate_lookup w k :
  (forall i p, particles w !! i = Some p -> p_id p = i) ->
  particles (exec animate w) !! k =
  match particles w !! k with
  | Some p =>
      let p' := updateParticle (exec animate_fields w) p 1 in
      if is_dead p' then None else Some p'
  | None => None
  end.
Proof.
  intros Hid. rewrite exec_animate.
  set (w1 := exec animate_fields w).
  assert (particles (exec schedule_next (remove_dead (update_particles w1))) =
          particles (remove_dead (update_particles w1))) as ->.
  { rewrite exec_schedule_next. by destruct (_ || _). }
  rewrite remove_dead_lookup.
  - rewrite update_particles_lookup.
    replace (particles w1) with (particles w) by (subst w1; by rewrite exec_animate_fields).
    by destruct (particles w !! k).
  - intros i p. rewrite update_particles_lookup.
    replace (particles w1) with (particles w) by (subst w1; by rewrite exec_animate_fields).
    destruct (particles w !! i) as [q|] eqn:Hq; [|done]. simpl.
    intros [= <-]. rewrite updateParticle_id. by eapply Hid.
Qed.

Lemma animate_attractors w :
  attractors (exec animate w) =
  attractors (update_lissajous (set_time (time w + 1) w)).
Proof.
  rewrite exec_animate, exec_schedule_next, exec_animate_fields.
  by destruct (_ || _).
Qed.

(** The tick leaves alone what it does not own. *)
Lemma animate_frame w :
  particleIdCounter (exec animate w) = particleIdCounter w /\
  timers (exec animate w) = timers w /\
  rnd (exec animate w) = rnd w /\
  rndPos (exec animate w) = rndPos w /\
  enabled (exec animate w) = enabled w /\
  prefersReducedMotion (exec animate w) = prefersReducedMotion w /\
  innerWidth (exec animate w) = innerWidth w /\
  innerHeight (exec animate w) = innerHeight w /\
  time (exec animate w) = time w + 1.
Proof.
  rewrite exec_animate, exec_schedule_next, exec_animate_fields.
  by destruct (_ || _).
Qed.

(** How the tick leaves the scheduler, when no other frame is pending. *)
Lemma animate_scheduler w :
  rafQueue w = [] ->
  let w' := exec animate w in
  (animationId w' = None /\ rafQueue w' = [] /\ rafNext w' = rafNext w /\
   particles w' = ∅ /\ attractors w' = [] /\ lissajous w' = None) \/
  (animationId w' = Some (rafNext w) /\ rafQueue w' = [rafNext w] /\
   rafNext w' = S (rafNext w) /\ lissajous w' = lissajous w /\
   (particles w' ≠ ∅ \/ attractors w' ≠ [])).
Proof.
  intros Hq w'. subst w'. rewrite exec_animate, exec_schedule_next.
  set (w2 := remove_dead (update_particles (exec animate_fields w))).
  assert (rafQueue w2 = [] /\ rafNext w2 = rafNext w /\ lissajous w2 = lissajous w)
    as (Hq2 & Hn2 & Hl2).
  { subst w2. rewrite exec_animate_fields. by rewrite <- Hq. }
  destruct (0 <? size (particles w2))%nat eqn:Hs;
    [|destruct (0 <? length (attractors w2))%nat eqn:Ha]; cbn [orb].
  - right. cbn [animationId rafQueue rafNext lissajous particles attractors
                set_animationId set_raf set_lissajous].
    rewrite Hq2, Hn2, Hl2. repeat split; try done.
    left. intros He. rewrite He, map_size_empty in Hs. apply Nat.ltb_lt in Hs. lia.
  - right. cbn [animationId rafQueue rafNext lissajous particles attractors
                set_animationId set_raf set_lissajous].
    rewrite Hq2, Hn2, Hl2. repeat split; try done.
    right. intros He. rewrite He in Ha. apply Nat.ltb_lt in Ha. simpl in Ha. lia.
  - left. cbn [animationId rafQueue rafNext lissajous particles attractors
               set_animationId set_raf set_lissajous].
    rewrite Hq2, Hn2. repeat split; try done.
    + apply map_size_empty_inv. apply Nat.ltb_ge in Hs. lia.
    + apply nil_length_inv. apply Nat.ltb_ge in Ha. lia.
Qed.

(** ** The public methods, unfolded *)

Lemma exec_celebrate config w :
  exec (celebrate config) w =
  if isEnabled w then exec start_animation (exec (celebrate_setup config) w) else w.
Proof.
  unfold celebrate. rewrite exec_get_bind.
  destruct (isEnabled w); cbn [negb]; [by rewrite exec_seq|done].
Qed.

Lemma exec_celebrate_setup config w :
  exec (celebrate_setup config) w =
  exec (run_recipe (recipe_of_name (cfg_type config))
          ((default (0.5, 0.5) (cfg_origin config)).1 * innerWidth w)
          ((default (0.5, 0.5) (cfg_origin config)).2 * innerHeight w)
          (default 100%nat (cfg_count config))
          (default (getColorsForEmotion (cfg_emotionContext config ≫= dominantEmotion))
             (cfg_colors config))
          (default 1 (cfg_intensity config)) (cfg_heartRate config))
    (set_attractors [] w).
Proof. reflexivity. Qed.

Lemma exec_start_animation w :
  exec start_animation w =
  match animationId w with None => exec animate w | Some _ => w end.
Proof. unfold start_animation. rewrite exec_get_bind. by destruct (animationId w). Qed.

Lemma exec_clear w :
  exec clear w =
  set_lissajous None
    (set_animationId None
       (set_raf (match animationId w with
                 | Some i => filter (fun j => j ≠ i) (rafQueue w)
                 | None => rafQueue w
                 end) (rafNext w)
          (set_flowField (flow_clear <$> flowField w)
             (set_fluid (fluid_clear <$> fluid w)
                (set_attractors [] (set_particles ∅ w)))))).
Proof.
  unfold clear. rewrite !exec_seq. unfold stop_animation. rewrite exec_get_bind.
  cbn [animationId set_flowField set_fluid set_attractors set_particles
       with_flowField with_fluid modify exec snd].
  destruct w as [? ? ? ? [i|] ? ? ? ? ? ? ? ? ? ? ? ?]; reflexivity.
Qed.

Lemma exec_setEnabled b w :
  exec (setEnabled b) w =
  if b then set_enabled true w else exec clear (set_enabled false w).
Proof. unfold setEnabled. rewrite exec_seq. by destruct b. Qed.

(** The recipe part of [celebrate] only adds particles. *)
Lemma celebrate_setup_effect config r w :
  rnd_ok w ->
  recipe_of_name (cfg_type config) = Some r ->
  let x := (default (0.5, 0.5) (cfg_origin config)).1 * innerWidth w in
  let y := (default (0.5, 0.5) (cfg_origin config)).2 * innerHeight w in
  let count := default 100%nat (cfg_count config) in
  let colors :=
    default (getColorsForEmotion (cfg_emotionContext config ≫= dominantEmotion))
      (cfg_colors config) in
  let intensity := default 1 (cfg_intensity config) in
  let w' := exec (celebrate_setup config) w in
  grows (spawned_now r count (innerWidth w) (innerHeight w)) w w' /\
  attractors w' = recipe_attractors r x y intensity /\
  timers w' =
    timers w ++ recipe_timers r x y count colors intensity (cfg_heartRate config)
                  (innerWidth w) /\
  lissajous w' = match r with Harmony => Some baseAttractors | _ => lissajous w end.
Proof.
  intros Hrnd Hr x y count colors intensity w'. subst w'.
  rewrite exec_celebrate_setup, Hr.
  destruct (run_recipe_effect r x y count colors intensity (cfg_heartRate config)
              (set_attractors [] w) Hrnd) as (Hg & Ha & Ht & Hl).
  repeat split; try done; apply Hg.
Qed.

Lemma celebrate_setup_unknown config w :
  recipe_of_name (cfg_type config) = None ->
  exec (celebrate_setup config) w = set_attractors [] w.
Proof. intros Hr. rewrite exec_celebrate_setup, Hr. reflexivity. Qed.

Lemma celebrate_setup_grows config w :
  rnd_ok w -> exists n, grows n w (exec (celebrate_setup config) w).
Proof.
  intros Hrnd. destruct (recipe_of_name (cfg_type config)) as [r|] eqn:Hr.
  - eexists. by apply (celebrate_setup_effect config r w).
  - exists 0%nat. rewrite celebrate_setup_unknown by done. by apply quiet_grows.
Qed.

(** ** The invariant holds in every reachable state *)

Lemma animate_wf w :
  (forall i p, particles w !! i = Some p -> (i < particleIdCounter w)%nat) ->
  (forall i p, particles w !! i = Some p -> p_id p = i) ->
  rafQueue w = [] -> rnd_ok w ->
  wf (exec animate w).
Proof.
  intros Hf Hid Hq Hrnd.
  destruct (animate_frame w) as (Hc & _ & Hr & _).
  split.
  - intros i p. rewrite (animate_lookup w i Hid), Hc.
    destruct (particles w !! i) as [q|] eqn:Hq'; [|done]. intros _. by eapply Hf.
  - intros i p. rewrite (animate_lookup w i Hid).
    destruct (particles w !! i) as [q|] eqn:Hq'; [|done]. cbv zeta.
    destruct (is_dead _); [done|]. intros [= <-].
    rewrite updateParticle_id. by eapply Hid.
  - destruct (animate_scheduler w Hq) as [(-> & -> & _)|(-> & -> & _)]; done.
  - intros i. destruct (animate_scheduler w Hq) as [(-> & _)|(-> & _ & -> & _)];
      [done|]. intros [= <-]. lia.
  - intros n. rewrite Hr. apply Hrnd.
Qed.

Lemma start_animation_wf w : wf w -> wf (exec start_animation w).
Proof.
  intros Hwf. rewrite exec_start_animation.
  destruct (animationId w) eqn:Ha; [done|].
  apply animate_wf;
    [apply (wf_fresh w Hwf)|apply (wf_id w Hwf)
    |by rewrite (wf_raf w Hwf), Ha|exact (wf_rnd w Hwf)].
Qed.

Lemma celebrate_wf config w : wf w -> wf (exec (celebrate config) w).
Proof.
  intros Hwf. rewrite exec_celebrate. destruct (isEnabled w); [|done].
  apply start_animation_wf.
  destruct (celebrate_setup_grows config w (wf_rnd w Hwf)) as [n Hg].
  by eapply grows_wf.
Qed.

Lemma clear_wf w : wf w -> wf (exec clear w).
Proof.
  intros Hwf. rewrite exec_clear. split; cbn; try done.
  - pose proof (wf_raf w Hwf) as Hq. destruct (animationId w) as [i|]; [|done].
    rewrite Hq. rewrite filter_cons, filter_nil. by case_decide.
  - apply Hwf.
Qed.

Lemma setEnabled_wf b w : wf w -> wf (exec (setEnabled b) w).
Proof.
  intros Hwf. rewrite exec_setEnabled. destruct b.
  - by destruct Hwf.
  - apply clear_wf. by destruct Hwf.
Qed.

Lemma fire_timer_wf k w : wf w -> wf (fire_timer k w).
Proof.
  intros Hwf. unfold fire_timer. destruct (timers w !! k) as [t|]; [|done].
  set (w1 := set_timers (delete k (timers w)) w).
  assert (wf w1) as Hwf1 by by destruct Hwf.
  destruct (run_callback_effect (t_callback t) w1 (wf_rnd w1 Hwf1)) as [Hg _].
  by eapply grows_wf.
Qed.

Lemma frame_wf w : wf w -> wf (frame w).
Proof.
  intros Hwf. unfold frame. destruct (rafQueue w) as [|i q] eqn:Hq; [done|].
  pose proof (wf_raf w Hwf) as Hraf. rewrite Hq in Hraf.
  destruct (animationId w); [|done]. injection Hraf as -> ->.
  apply animate_wf;
    [apply (wf_fresh w Hwf)|apply (wf_id w Hwf)|done|exact (wf_rnd w Hwf)].
Qed.

Lemma new_engine_wf width height reducedMotion random_values :
  (forall n, 0 <= random_values n < 1) ->
  wf (new_engine width height reducedMotion random_values).
Proof. intros Hrnd. split; try done. Qed.

Lemma host_step_wf w w' : wf w -> host_step w w' -> wf w'.
Proof.
  intros Hwf Hstep. destruct Hstep.
  - by apply celebrate_wf.
  - by apply clear_wf.
  - by apply setEnabled_wf.
  - by destruct Hwf.
  - by apply fire_timer_wf.
  - by apply frame_wf.
Qed.

Lemma reachable_wf w : reachable w -> wf w.
Proof.
  induction 1 as [width height rm rv Hrnd|w w' _ IH Hstep].
  - by apply new_engine_wf.
  - by eapply host_step_wf.
Qed.

(** ** Enabled and disabled engines *)

(** C8: [isEnabled] answers [false] exactly when the engine is disabled or
    the reduced-motion preference is active, and in every such state
    [celebrate] returns the state it was given: the particle map, the
    attractor list, the fields and everything else are unchanged. *)
Theorem celebrate_ignored_while_disabled (config : PhysicsCelebrationConfig) (w : World) :
  (isEnabled w = false <-> enabled w = false \/ prefersReducedMotion w = true) /\
  (isEnabled w = false ->
   exec (celebrate config) w = w /\
   particles (exec (celebrate config) w) = particles w /\
   attractors (exec (celebrate config) w) = attractors w /\
   fluid (exec (celebrate config) w) = fluid w /\
   flowField (exec (celebrate config) w) = flowField w).
Proof.
  split.
  - unfold isEnabled. destruct (enabled w), (prefersReducedMotion w); simpl; intuition.
  - intros Hoff. rewrite exec_celebrate, Hoff. done.
Qed.

(** ** New particles *)

(** C10: right after [addParticle], the particle stored under the
    identifier that the counter had is new to the map, has opacity 1, an
    empty trail, no acceleration and a maximal life equal to its life; the
    map has exactly one more entry, none of the old entries has changed, and
    the counter has moved on by one. *)
Theorem addParticle_adds_one_fresh_particle (config : ParticleConfig) (w : World) :
  wf w ->
  let w' := exec (addParticle config) w in
  exists p,
    particles w' = <[particleIdCounter w := p]> (particles w) /\
    particles w !! particleIdCounter w = None /\
    p_id p = particleIdCounter w /\
    p_opacity p = 1 /\ p_trail p = [] /\ p_ax p = 0 /\ p_ay p = 0 /\
    p_maxLife p = p_life p /\
    size (particles w') = S (size (particles w)) /\
    (forall i q, particles w !! i = Some q -> particles w' !! i = Some q) /\
    particleIdCounter w' = S (particleIdCounter w).
Proof.
  intros Hwf w'.
  assert (particles w !! particleIdCounter w = None) as Hnone.
  { destruct (particles w !! particleIdCounter w) as [q|] eqn:Hq; [|done].
    apply (wf_fresh w Hwf) in Hq. lia. }
  destruct (addParticle_lookup_new config w)
    as (p & Hp & Hid & Hop & Htr & Hax & Hay & Hl & Hm).
  exists p.
  assert (particles w' = <[particleIdCounter w := p]> (particles w)) as Heq.
  { apply map_eq. intros i. destruct (decide (i = particleIdCounter w)) as [->|Hne].
    - by rewrite lookup_insert_eq.
    - rewrite lookup_insert_ne by done. by apply addParticle_lookup_old. }
  repeat split; try done.
  - congruence.
  - rewrite Heq. by apply map_size_insert_None.
  - intros i q Hq. rewrite Heq, lookup_insert_ne; [done|]. congruence.
  - apply addParticle_counter.
Qed.

(** ** Opacity as a function of life *)

(** C6: for a particle whose maximal life is positive, the update sets the
    opacity to [min(1, life/maxLife * 2)] of the decremented life; so the
    opacity is 1 as long as the life is at least half the maximal life, it
    is 0 exactly when the life is 0, it is no larger for a smaller life, and
    it does not grow from one update to the next. *)
Theorem opacity_is_min_of_life_ratio (w : World) (p : PhysicsParticle) (dt : R) :
  0 < p_maxLife p ->
  let p' := updateParticle w p dt in
  p_life p' = p_life p - dt /\
  p_opacity p' = Rmin 1 (p_life p' / p_maxLife p' * 2) /\
  (p_maxLife p' / 2 <= p_life p' -> p_opacity p' = 1) /\
  (p_opacity p' = 0 <-> p_life p' = 0) /\
  (forall w2 q dt2,
     p_maxLife q = p_maxLife p -> p_life q - dt2 <= p_life p - dt ->
     p_opacity (updateParticle w2 q dt2) <= p_opacity p') /\
  (forall w2 dt2, 0 <= dt2 -> p_opacity (updateParticle w2 p' dt2) <= p_opacity p').
Proof.
  intros Hmax p'. subst p'.
  assert (forall a b, a <= b -> Rmin 1 (a / p_maxLife p * 2) <= Rmin 1 (b / p_maxLife p * 2))
    as Hmono.
  { intros a b Hab. apply Rle_min_compat_l.
    unfold Rdiv. apply Rmult_le_compat_r; [lra|].
    apply Rmult_le_compat_r; [|done]. left. by apply Rinv_0_lt_compat. }
  rewrite !updateParticle_opacity, !updateParticle_life, !updateParticle_maxLife.
  split; [done|]. split; [done|]. split; [|split; [|split]].
  - intros Hhalf. apply Rmin_left.
    assert (1 = p_maxLife p / 2 / p_maxLife p * 2) as -> by (field; lra).
    unfold Rdiv. apply Rmult_le_compat_r; [lra|].
    apply Rmult_le_compat_r; [|done]. left. by apply Rinv_0_lt_compat.
  - assert (forall l, l / p_maxLife p * 2 = 0 <-> l = 0) as Hz.
    { intros l. split; [|intros ->; field; lra].
      intros H. assert (l = l / p_maxLife p * 2 * (p_maxLife p / 2)) as -> by (field; lra).
      rewrite H. lra. }
    unfold Rmin. destruct (Rle_dec _ _) as [Hle|Hgt].
    + split; [lra|]. intros Hl. apply Hz in Hl. lra.
    + apply Hz.
  - intros w2 q dt2 Hq Hle.
    rewrite updateParticle_opacity, Hq. by apply Hmono.
  - intros w2 dt2 Hdt.
    rewrite updateParticle_opacity, updateParticle_life, updateParticle_maxLife.
    apply Hmono. lra.
Qed.

(** ** Attractor forces *)

Lemma apply_attractor_out_of_range px py acc a :
  ~ (0.1 < attractor_distance px py a < a_radius a) ->
  apply_attractor px py acc a = acc.
Proof.
  intros Hout. unfold apply_attractor, attractor_distance in *. destruct acc as [ax ay].
  destruct (Rltb _ (a_radius a)) eqn:H1; [|done].
  destruct (Rgtb _ 0.1) eqn:H2; [|done].
  apply Rltb_true in H1. unfold Rgtb in H2. apply Rltb_true in H2. lra.
Qed.

Lemma apply_attractor_in_range px py acc a :
  0.1 < attractor_distance px py a < a_radius a ->
  let dx := a_x a - px in
  let dy := a_y a - py in
  let d := attractor_distance px py a in
  let F := falloff_force (a_strength a) (a_radius a) d in
  apply_attractor px py acc a =
  match a_type a with
  | pull => (acc.1 + dx / d * F, acc.2 + dy / d * F)
  | push => (acc.1 - dx / d * F, acc.2 - dy / d * F)
  | orbit => (acc.1 + - dy / d * F * 0.7 + dx / d * F * 0.3,
              acc.2 + dx / d * F * 0.7 + dy / d * F * 0.3)
  | vortex => (acc.1 + - dy / d * F * 0.8 + dx / d * F * 0.5,
               acc.2 + dx / d * F * 0.8 + dy / d * F * 0.5)
  end.
Proof.
  intros [Hlo Hhi]. cbv zeta.
  unfold apply_attractor, falloff_force, attractor_distance in *. destruct acc as [ax ay].
  assert (Rltb (sqrt ((a_x a - px) * (a_x a - px) + (a_y a - py) * (a_y a - py)))
            (a_radius a) = true) as -> by by apply Rltb_true.
  assert (Rgtb (sqrt ((a_x a - px) * (a_x a - px) + (a_y a - py) * (a_y a - py)))
            0.1 = true) as -> by by apply Rltb_true.
  cbn [andb fst snd].
  destruct (a_type a); f_equal; unfold Rdiv; ring.
Qed.

Lemma attractor_contribution_magnitude px py a :
  0.1 < attractor_distance px py a < a_radius a ->
  magnitude (attractor_contribution px py a) =
  sqrt (blend_sq (a_type a)) *
  Rabs (falloff_force (a_strength a) (a_radius a) (attractor_distance px py a)).
Proof.
  intros Hr. unfold attractor_contribution, magnitude.
  rewrite (apply_attractor_in_range px py (0, 0) a Hr). cbv zeta.
  set (d := attractor_distance px py a) in *.
  set (F := falloff_force _ _ _).
  set (dx := a_x a - px). set (dy := a_y a - py).
  assert (d * d = dx * dx + dy * dy) as Hd.
  { subst d. unfold attractor_distance. apply sqrt_sqrt. fold dx dy.
    pose proof (Rle_0_sqr dx). pose proof (Rle_0_sqr dy). unfold Rsqr in *. lra. }
  assert ((dx * dx + dy * dy) * / d * / d = 1) as Hu.
  { rewrite <- Hd. field. lra. }
  rewrite <- sqrt_Rsqr_abs, <- sqrt_mult.
  - f_equal. unfold Rsqr.
    transitivity (blend_sq (a_type a) * (F * F) * ((dx * dx + dy * dy) * / d * / d));
      [|rewrite Hu; ring].
    destruct (a_type a); cbn [fst snd blend_sq]; unfold Rdiv; ring.
  - destruct (a_type a); cbn [blend_sq]; lra.
  - apply Rle_0_sqr.
Qed.

(** C5, as the program has it: what an attractor adds to the acceleration
    of a particle at distance [d] is added to whatever the earlier
    attractors gave; it is zero unless [0.1 < d < radius]; within that range
    its magnitude is [strength * (1 - d/radius)² / (d² + 100)] (in absolute
    value) for [pull] and [push], and that force scaled by
    [sqrt(0.7² + 0.3²)] for [orbit] and by [sqrt(0.8² + 0.5²)] for
    [vortex]; and every divisor met on the way, [d], [radius] and
    [d² + 100], is larger than the threshold 0.1. *)
Theorem attractor_force_contribution (px py : R) (acc : R * R) (a : Attractor) :
  let d := attractor_distance px py a in
  let c := attractor_contribution px py a in
  apply_attractor px py acc a = (acc.1 + c.1, acc.2 + c.2) /\
  (c <> (0, 0) -> 0.1 < d < a_radius a) /\
  (0.1 < d < a_radius a ->
   magnitude c =
   sqrt (blend_sq (a_type a)) * Rabs (falloff_force (a_strength a) (a_radius a) d) /\
   0.1 < d /\ 0.1 < a_radius a /\ 0.1 < d * d + 100).
Proof.
  cbv zeta. split; [|split].
  - unfold attractor_contribution.
    destruct (Rlt_dec 0.1 (attractor_distance px py a)) as [Hlo|Hlo];
      [destruct (Rlt_dec (attractor_distance px py a) (a_radius a)) as [Hhi|Hhi]|].
    + rewrite !apply_attractor_in_range by done. cbv zeta.
      destruct (a_type a); cbn [fst snd]; f_equal; ring.
    + rewrite !apply_attractor_out_of_range by lra. destruct acc. cbn. f_equal; ring.
    + rewrite !apply_attractor_out_of_range by lra. destruct acc. cbn. f_equal; ring.
  - intros Hc.
    destruct (Rlt_dec 0.1 (attractor_distance px py a)) as [Hlo|Hlo];
      [destruct (Rlt_dec (attractor_distance px py a) (a_radius a)) as [Hhi|Hhi]|];
      [done| |]; exfalso; apply Hc; unfold attractor_contribution;
      apply apply_attractor_out_of_range; lra.
  - intros Hr. split; [by apply attractor_contribution_magnitude|].
    repeat split; try lra. nra.
Qed.

(** ** Opacity of the live particles *)

Lemma is_dead_false p : is_dead p = false <-> 0 < p_life p /\ 0 < p_opacity p.
Proof.
  unfold is_dead. rewrite orb_false_iff, !Rleb_false. done.
Qed.

Lemma animate_survivor w k p' :
  (forall i p, particles w !! i = Some p -> p_id p = i) ->
  particles (exec animate w) !! k = Some p' ->
  exists p, particles w !! k = Some p /\
    p' = updateParticle (exec animate_fields w) p 1 /\
    0 < p_life p' /\ 0 < p_opacity p' <= 1.
Proof.
  intros Hid. rewrite (animate_lookup w k Hid).
  destruct (particles w !! k) as [p|]; [|done]. cbv zeta.
  destruct (is_dead _) eqn:Hd; [done|]. intros [= <-].
  apply is_dead_false in Hd as [Hl Ho].
  exists p. repeat split; try done.
  rewrite updateParticle_opacity. apply Rmin_l.
Qed.

Lemma grows_opacity n w w' :
  grows n w w' ->
  (forall i p, particles w !! i = Some p -> 0 < p_opacity p <= 1) ->
  (forall i p, particles w' !! i = Some p -> 0 < p_opacity p <= 1).
Proof.
  intros (_ & Hn & Ho & _) Hok i p Hp.
  destruct (decide (particleIdCounter w <= i < particleIdCounter w + n)%nat) as [Hin|Hout].
  - destruct (Hn i Hin) as (q & Hq & _ & Hop & _).
    assert (p = q) as -> by congruence. lra.
  - rewrite Ho in Hp by done. by eapply Hok.
Qed.

Lemma host_step_opacity w w' :
  wf w -> host_step w w' ->
  (forall i p, particles w !! i = Some p -> 0 < p_opacity p <= 1) ->
  (forall i p, particles w' !! i = Some p -> 0 < p_opacity p <= 1).
Proof.
  intros Hwf Hstep Hok. destruct Hstep as [config w|w|b w|b w|k w Hk|w Hq].
  - rewrite exec_celebrate. destruct (isEnabled w); [|done].
    destruct (celebrate_setup_grows config w (wf_rnd w Hwf)) as [n Hg].
    rewrite exec_start_animation. destruct (animationId _).
    + by eapply grows_opacity.
    + intros i p Hp. eapply animate_survivor in Hp as (_ & _ & _ & _ & Hop); [done|].
      apply (wf_id _ (grows_wf n w _ Hwf Hg)).
  - rewrite exec_clear. intros i p. cbn. by rewrite lookup_empty.
  - rewrite exec_setEnabled. destruct b; [done|].
    rewrite exec_clear. intros i p. cbn. by rewrite lookup_empty.
  - done.
  - unfold fire_timer. destruct (timers w !! k) as [t|]; [|done].
    set (w1 := set_timers (delete k (timers w)) w).
    assert (wf w1) as Hwf1 by by destruct Hwf.
    destruct (run_callback_effect (t_callback t) w1 (wf_rnd w1 Hwf1)) as [Hg _].
    by eapply grows_opacity.
  - unfold frame. destruct (rafQueue w) as [|j q]; [done|].
    intros i p Hp. eapply animate_survivor in Hp as (_ & _ & _ & _ & Hop); [done|].
    apply (wf_id w Hwf).
Qed.

Lemma reachable_opacity w :
  reachable w -> forall i p, particles w !! i = Some p -> 0 < p_opacity p <= 1.
Proof.
  induction 1 as [width height rm rv Hrnd|w w' Hreach IH Hstep].
  - intros i p. cbn. by rewrite lookup_empty.
  - eapply host_step_opacity; [by apply reachable_wf|done|done].
Qed.

Lemma mid_frame_lookup w j q k :
  rafQueue w = j :: q ->
  particles (mid_frame w) !! k =
  (fun p => updateParticle (exec animate_fields (set_raf q (rafNext w) w)) p 1)
    <$> particles w !! k.
Proof.
  intros Hq. unfold mid_frame. rewrite Hq. unfold animate_update.
  rewrite exec_seq, exec_modify, update_particles_lookup.
  by rewrite exec_animate_fields.
Qed.

(** C4, as the program has it: whenever the page is idle, and so after each
    tick and at each drawing, the opacity of every live particle lies in
    (0, 1]; inside a tick, once the particles have been updated and until
    the dead ones are deleted, the opacity of a particle is
    [min(1, life/maxLife * 2)], which is at most 1 and is negative when the
    life has dropped below 0. *)
Theorem opacity_between_ticks (w : World) (i : nat) (p : PhysicsParticle) :
  (reachable w -> particles w !! i = Some p -> 0 < p_opacity p <= 1) /\
  (rafQueue w ≠ [] -> particles (mid_frame w) !! i = Some p ->
   p_opacity p = Rmin 1 (p_life p / p_maxLife p * 2) /\ p_opacity p <= 1 /\
   (p_life p < 0 -> 0 < p_maxLife p -> p_opacity p < 0)).
Proof.
  split.
  - intros Hreach. by apply reachable_opacity.
  - intros Hq. destruct (rafQueue w) as [|j q] eqn:Hraf; [done|].
    rewrite (mid_frame_lookup w j q i Hraf).
    destruct (particles w !! i) as [p0|]; [|done]. simpl. intros [= <-].
    rewrite updateParticle_opacity, updateParticle_life, updateParticle_maxLife.
    split; [done|]. split; [apply Rmin_l|].
    intros Hl Hm. eapply Rle_lt_trans; [apply Rmin_r|].
    assert (0 < / p_maxLife p0) by by apply Rinv_0_lt_compat.
    unfold Rdiv. nra.
Qed.

(** ** Loops whose bound is a number *)

Lemma count_up_seq fuel i b n :
  (forall j, (i <= j < i + n)%nat -> INR j < b) ->
  ~ INR (i + n) < b -> (n <= fuel)%nat ->
  count_up fuel i b = seq i n.
Proof.
  revert fuel i. induction n as [|n IH]; intros fuel i Hlt Hge Hfuel.
  - rewrite Nat.add_0_r in Hge. destruct fuel as [|fuel]; [done|]. simpl.
    assert (Rltb (INR i) b = false) as ->; [|done].
    apply Rltb_false. lra.
  - destruct fuel as [|fuel]; [lia|]. cbn [count_up seq].
    assert (Rltb (INR i) b = true) as ->.
    { apply Rltb_true, Hlt. lia. }
    f_equal. apply IH; [|by replace (S i + n)%nat with (i + S n)%nat by lia|lia].
    intros j Hj. apply Hlt. lia.
Qed.

Lemma INR_lt_fifths (k j c : nat) :
  INR j * 5 < INR c * INR k <-> (5 * j < k * c)%nat.
Proof.
  assert (INR (5 * j) = INR j * 5) as H5 by (rewrite mult_INR; simpl; lra).
  assert (INR (k * c) = INR c * INR k) as Hk by (rewrite mult_INR; lra).
  rewrite <- H5, <- Hk. split.
  - apply INR_lt.
  - apply lt_INR.
Qed.

Lemma count_up_fifths (k c fuel : nat) (b : R) :
  b * 5 = INR c * INR k -> (k <= 5)%nat -> (c <= fuel)%nat ->
  count_up fuel 0 b = seq 0 ((k * c + 4) / 5).
Proof.
  intros Hb Hk Hfuel. apply count_up_seq.
  - intros j Hj.
    assert (INR j * 5 < INR c * INR k); [|lra].
    apply INR_lt_fifths.
    pose proof (Nat.div_mod_eq (k * c + 4) 5).
    pose proof (Nat.mod_upper_bound (k * c + 4) 5). lia.
  - intros Hlt.
    assert (INR (0 + (k * c + 4) / 5) * 5 < INR c * INR k) as H by lra.
    apply INR_lt_fifths in H.
    pose proof (Nat.div_mod_eq (k * c + 4) 5).
    pose proof (Nat.mod_upper_bound (k * c + 4) 5). lia.
  - pose proof (Nat.div_mod_eq (k * c + 4) 5).
    pose proof (Nat.mod_upper_bound (k * c + 4) 5). nia.
Qed.

(** The burst of [createSupernova] visits [ceil(0.6 * count)] indices and
    its delayed ring [ceil(0.4 * count)]; the loops stop on their test, so
    any fuel from [count] on gives the same indices. *)
Lemma count_up_burst count fuel :
  (count <= fuel)%nat ->
  count_up fuel 0 (INR count * 0.6) = seq 0 ((3 * count + 4) / 5).
Proof.
  intros Hfuel. apply (count_up_fifths 3); [simpl; lra|lia|done].
Qed.

Lemma count_up_ring count fuel :
  (count <= fuel)%nat ->
  count_up fuel 0 (INR count * 0.4) = seq 0 ((2 * count + 4) / 5).
Proof.
  intros Hfuel. apply (count_up_fifths 2); [simpl; lra|lia|done].
Qed.

Lemma angles_below_steps fuel n start step bound :
  0 < step ->
  start + INR n * step >= bound -> start + INR n * step - step < bound ->
  (n <= fuel)%nat ->
  angles_below fuel start step bound =
  (fun k => start + INR k * step) <$> seq 0 n.
Proof.
  intros Hstep. revert fuel start. induction n as [|n IH]; intros fuel start Hge Hlt Hfuel.
  - simpl in Hge. destruct fuel as [|fuel]; [done|]. simpl.
    assert (Rltb start bound = false) as ->; [|done].
    apply Rltb_false. lra.
  - destruct fuel as [|fuel]; [lia|]. rewrite S_INR in Hge, Hlt.
    cbn [angles_below seq]. rewrite fmap_cons.
    assert (Rltb start bound = true) as ->.
    { apply Rltb_true. pose proof (pos_INR n). nra. }
    f_equal; [simpl; lra|].
    rewrite (IH fuel (start + step)); [|lra|lra|lia].
    rewrite <- fmap_S_seq, <- list_fmap_compose. apply list_fmap_ext.
    intros _ k _. unfold compose. rewrite S_INR. lra.
Qed.

(** The shockwave of [createSupernova] pushes in 16 directions and each
    pulse of [createResonance] in 8. *)
Lemma supernova_angles :
  angles_below 32 0 (PI / 8) (PI * 2) = (fun k => 0 + INR k * (PI / 8)) <$> seq 0 16.
Proof.
  pose proof PI_RGT_0.
  apply angles_below_steps; [lra| | |lia];
    replace (INR 16) with 16 by (simpl; lra); lra.
Qed.

Lemma resonance_angles :
  angles_below 16 0 (PI / 4) (PI * 2) = (fun k => 0 + INR k * (PI / 4)) <$> seq 0 8.
Proof.
  pose proof PI_RGT_0.
  apply angles_below_steps; [lra| | |lia];
    replace (INR 8) with 8 by (simpl; lra); lra.
Qed.

(** ** Clearing the session *)

Lemma clear_state w :
  wf w ->
  particles (exec clear w) = ∅ /\ attractors (exec clear w) = [] /\
  animationId (exec clear w) = None /\ rafQueue (exec clear w) = [] /\
  lissajous (exec clear w) = None /\
  timers (exec clear w) = timers w /\
  particleIdCounter (exec clear w) = particleIdCounter w /\
  enabled (exec clear w) = enabled w.
Proof.
  intros Hwf. rewrite exec_clear. cbn. repeat split.
  pose proof (wf_raf w Hwf) as Hq. destruct (animationId w) as [i|]; [|done].
  rewrite Hq, filter_cons, filter_nil. by case_decide.
Qed.

Lemma fire_timer_effect k t w :
  wf w -> timers w !! k = Some t ->
  recipe_effect (spawned_later (t_callback t)) [] [] (lissajous w)
    (set_timers (delete k (timers w)) w) (fire_timer k w).
Proof.
  intros Hwf Hk. unfold fire_timer. rewrite Hk.
  apply (run_callback_effect (t_callback t) (set_timers (delete k (timers w)) w)).
  exact (wf_rnd w Hwf).
Qed.

Lemma fire_timer_size k t w :
  wf w -> timers w !! k = Some t ->
  size (particles (fire_timer k w)) =
  (size (particles w) + spawned_later (t_callback t))%nat /\
  animationId (fire_timer k w) = animationId w /\
  rafQueue (fire_timer k w) = rafQueue w.
Proof.
  intros Hwf Hk. destruct (fire_timer_effect k t w Hwf Hk) as [Hg _].
  split; [|split].
  - apply (grows_size _ (set_timers (delete k (timers w)) w)); [by destruct Hwf|done].
  - by destruct Hg as (_ & _ & _ & -> & _).
  - by destruct Hg as (_ & _ & _ & _ & _ & _ & _ & _ & _ & -> & _).
Qed.

(** C1, as the program has it: [clear()] and [setEnabled(false)] empty the
    particle map and the attractor list and cancel the pending tick, so
    that no animation frame stays requested; they leave every pending
    delayed callback in the timer queue; and when such a callback fires
    afterwards it adds its particles to the cleared session, which then
    holds exactly those, while no tick is scheduled to animate them. *)
Theorem clear_cancels_the_tick_only (w w' : World) :
  wf w ->
  w' = exec clear w \/ w' = exec (setEnabled false) w ->
  particles w' = ∅ /\ attractors w' = [] /\
  animationId w' = None /\ rafQueue w' = [] /\
  timers w' = timers w /\
  (forall k t, timers w !! k = Some t ->
     host_step w' (fire_timer k w') /\
     size (particles (fire_timer k w')) = spawned_later (t_callback t) /\
     animationId (fire_timer k w') = None /\ rafQueue (fire_timer k w') = []).
Proof.
  intros Hwf Hw'.
  assert (exists w0, wf w0 /\ timers w0 = timers w /\ w' = exec clear w0)
    as (w0 & Hwf0 & Ht0 & ->).
  { destruct Hw' as [->| ->].
    - by exists w.
    - exists (set_enabled false w). rewrite exec_setEnabled. by destruct Hwf. }
  destruct (clear_state w0 Hwf0) as (Hp & Ha & Hid & Hq & _ & Ht & _).
  repeat split; try done; try congruence.
  - apply step_timer. rewrite Ht, Ht0. eauto.
  - assert (timers (exec clear w0) !! k = Some t) as Hk by by rewrite Ht, Ht0.
    destruct (fire_timer_size k t _ (clear_wf w0 Hwf0) Hk) as (-> & _).
    by rewrite Hp, map_size_empty.
  - assert (timers (exec clear w0) !! k = Some t) as Hk by by rewrite Ht, Ht0.
    destruct (fire_timer_size k t _ (clear_wf w0 Hwf0) Hk) as (_ & -> & _). done.
  - assert (timers (exec clear w0) !! k = Some t) as Hk by by rewrite Ht, Ht0.
    destruct (fire_timer_size k t _ (clear_wf w0 Hwf0) Hk) as (_ & _ & ->). done.
Qed.

(** ** Unknown recipe names *)

Lemma update_lissajous_none w : lissajous w = None -> update_lissajous w = w.
Proof. intros H. unfold update_lissajous. by rewrite H. Qed.

Lemma update_lissajous_few w :
  (length (attractors w) < 3)%nat -> update_lissajous w = w.
Proof.
  intros H. unfold update_lissajous. destruct (lissajous w); [|done].
  by assert ((3 <=? length (attractors w))%nat = false) as -> by (apply Nat.leb_gt; lia).
Qed.

(** C3, as the program has it: with a recipe name that is none of the
    twelve, [celebrate] creates no particle and no timer, installs no
    attractor, adds no entry to the particle map, and it is a total function
    of the state, so nothing is thrown.  An enabled engine still empties its
    attractor list and, when the animation loop is not running, runs one
    tick.  The call therefore leaves the state as it was exactly when the
    engine is disabled, or when the loop is running and no attractor is
    installed. *)
Theorem celebrate_unknown_recipe (config : PhysicsCelebrationConfig) (w : World) :
  recipe_of_name (cfg_type config) = None ->
  let w' := exec (celebrate config) w in
  w' = (if isEnabled w then exec start_animation (set_attractors [] w) else w) /\
  particleIdCounter w' = particleIdCounter w /\
  timers w' = timers w /\
  (isEnabled w = true -> attractors w' = []) /\
  (isEnabled w = true -> animationId w <> None -> w' = set_attractors [] w) /\
  (isEnabled w = true -> animationId w = None -> time w' = time w + 1) /\
  (w' = w <-> isEnabled w = false \/ (animationId w <> None /\ attractors w = [])) /\
  (wf w -> forall i, is_Some (particles w' !! i) -> is_Some (particles w !! i)).
Proof.
  intros Hr w'. subst w'. rewrite exec_celebrate, celebrate_setup_unknown by done.
  split; [done|]. rewrite exec_start_animation.
  destruct (isEnabled w).
  { cbn [animationId set_attractors].
    destruct (animationId w) as [j|] eqn:Hj.
    - split; [done|]. split; [done|]. split; [done|]. split; [done|].
      split; [done|]. split.
      + split.
        * intros Heq. right. split; [done|]. by rewrite <- Heq.
        * intros [?|[_ Ha]]; [done|]. rewrite <- Ha. apply set_attractors_id.
      + done.
    - destruct (animate_frame (set_attractors [] w)) as (Hc & Ht & _ & _ & _ & _ & _ & _ & Htime).
      split; [done|]. split; [done|]. split.
      { intros _. rewrite animate_attractors. by rewrite update_lissajous_few by (cbn; lia). }
      split; [done|]. split; [done|]. split.
      + split.
        * intros Heq. rewrite Heq in Htime. cbn [time set_attractors] in Htime. lra.
        * by intros [?|[? _]].
      + intros Hwf i [p Hp].
        apply animate_survivor in Hp as (q & Hq & _); [by eauto|].
        apply (wf_id w Hwf). }
  split; [done|]. split; [done|]. split; [done|]. split; [done|]. split; [done|].
  split; [by split; [left|]|]. done.
Qed.

(** ** A count of zero *)

Lemma run_recipe_count_zero r x y colors intensity heartRate w :
  let w1 := exec (run_recipe (Some r) x y 0 colors intensity heartRate) w in
  particles w1 = particles w /\ particleIdCounter w1 = particleIdCounter w /\
  attractors w1 = attractors w ++ recipe_attractors r x y intensity /\
  fluid w1 = fluid (exec (recipe_field_setup r x y intensity) w) /\
  flowField w1 = flowField (exec (recipe_field_setup r x y intensity) w) /\
  timers w1 =
    timers w ++ recipe_timers r x y 0 colors intensity heartRate (innerWidth w).
Proof.
  cbv zeta. destruct r; cbn [run_recipe recipe_field_setup recipe_attractors recipe_timers].
  - unfold createVortex. rewrite !exec_seq. cbn [seq for_each]. rewrite exec_ret.
    by rewrite app_nil_r.
  - unfold createSupernova. rewrite !exec_seq, exec_setTimeout.
    cbn [count_up for_each]. rewrite exec_ret. by rewrite app_nil_r.
  - unfold createAurora. rewrite !exec_get_bind, exec_seq. cbv zeta.
    change (0 / 4)%nat with 0%nat. cbn [seq for_each]. rewrite !exec_seq, !exec_ret.
    by rewrite !app_nil_r.
  - unfold createResonance. cbv zeta. rewrite !exec_seq, exec_for_each_setTimeout.
    change (0 / 4)%nat with 0%nat. cbn [seq for_each]. rewrite !exec_seq, !exec_ret.
    done.
  - unfold createOrbit. cbv zeta. rewrite exec_seq.
    change (0 / 3)%nat with 0%nat. cbn [seq for_each imap]. rewrite !exec_seq, !exec_ret.
    unfold push_attractor. rewrite !exec_modify. cbn. by rewrite <- !app_assoc, app_nil_r.
  - unfold createCascade. rewrite !exec_get_bind. cbv zeta. rewrite exec_seq.
    cbn [seq for_each]. rewrite exec_ret. by rewrite !app_nil_r.
  - unfold createEmergence. cbv zeta. rewrite exec_seq.
    cbn [seq for_each]. rewrite exec_ret. by rewrite !app_nil_r.
  - unfold createHarmony, baseAttractors. rewrite !exec_seq.
    cbn [seq for_each]. rewrite !exec_seq, !exec_ret.
    unfold push_attractor. rewrite !exec_modify. cbn. by rewrite <- !app_assoc, app_nil_r.
  - unfold createHelix. rewrite exec_get_bind. cbv zeta.
    change (0 / 2)%nat with 0%nat. cbn [seq for_each]. rewrite !exec_seq, !exec_ret.
    by rewrite !app_nil_r.
  - unfold createBloom. cbv zeta. rewrite exec_seq.
    change (0 / 8 / 4)%nat with 0%nat. cbn [seq for_each]. rewrite !exec_seq, !exec_ret.
    by rewrite app_nil_r.
  - unfold createConstellation. rewrite !exec_get_bind.
    cbn [seq for_each]. rewrite exec_ret. by rewrite !app_nil_r.
  - unfold createNebula. rewrite exec_seq. cbn [seq for_each]. rewrite exec_ret.
    assert (grows 0 w (exec (nebula_density x y intensity) w)) as (Hc & _ & Hp & _).
    { unfold nebula_density. rewrite exec_get_bind. destruct (fluid w); quiet. }
    assert (attractors (exec (nebula_density x y intensity) w) = attractors w /\
            timers (exec (nebula_density x y intensity) w) = timers w) as [Ha Ht].
    { unfold nebula_density. rewrite exec_get_bind. by destruct (fluid w). }
    rewrite Ha, Ht, !app_nil_r. repeat split; try done; [|lia].
    apply map_eq. intros i. apply Hp. lia.
Qed.

Lemma zero_count_timers_spawn_nothing r x y colors intensity heartRate width t u :
  t ∈ recipe_timers r x y 0 colors intensity heartRate width ->
  particles (exec (run_callback (t_callback t)) u) = particles u /\
  particleIdCounter (exec (run_callback (t_callback t)) u) = particleIdCounter u.
Proof.
  destruct r; cbn [recipe_timers]; intros Ht;
    try (by apply not_elem_of_nil in Ht).
  - apply list_elem_of_singleton in Ht as ->. done.
  - apply list_elem_of_fmap in Ht as (i & -> & _). done.
Qed.

Lemma recipe_field_setup_attractors r x y intensity atts w :
  fluid (exec (recipe_field_setup r x y intensity) (set_attractors atts w)) =
  fluid (exec (recipe_field_setup r x y intensity) w) /\
  flowField (exec (recipe_field_setup r x y intensity) (set_attractors atts w)) =
  flowField (exec (recipe_field_setup r x y intensity) w).
Proof.
  destruct r; try done.
  cbn [recipe_field_setup]. unfold nebula_density. rewrite !exec_get_bind.
  cbn [fluid set_attractors]. by destruct (fluid w).
Qed.

Lemma angles_calls (h : R -> FieldCall) (step : R) (l : list nat) (f : fluid_t) :
  foldl (fun f angle => fluid_call (h angle) f) f ((fun k => 0 + INR k * step) <$> l) =
  fluid_calls ((fun k : nat => h (INR k * step)) <$> l) f.
Proof.
  unfold fluid_calls. revert f. induction l as [|k l IH]; intros f; [done|].
  cbn [fmap list_fmap foldl]. rewrite Rplus_0_l. apply IH.
Qed.

Lemma fluid_calls_app l1 l2 (f : fluid_t) :
  fluid_calls (l1 ++ l2) f = fluid_calls l2 (fluid_calls l1 f).
Proof. apply foldl_app. Qed.

Lemma recipe_field_setup_calls r x y intensity w :
  fluid (exec (recipe_field_setup r x y intensity) w) =
    fluid_calls (recipe_fluid_calls r x y intensity (rnd w) (rndPos w)) <$> fluid w /\
  flowField (exec (recipe_field_setup r x y intensity) w) =
    flow_calls (recipe_flow_calls r x y (innerWidth w) (innerHeight w) intensity)
      <$> flowField w.
Proof.
  destruct r; cbn [recipe_field_setup recipe_fluid_calls recipe_flow_calls];
    try (destruct w as [ps atts [f|] [ff|] aid tm cnt en prm lis iw ih tms raf nxt rv pos];
         split; reflexivity).
  unfold with_fluid. rewrite exec_modify. cbn [fluid flowField set_fluid].
  split; [|by destruct (flowField w)].
  destruct (fluid w) as [f|]; [|done].
  cbn [fmap option_fmap option_map]. f_equal.
  unfold supernova_shockwave. cbv zeta. rewrite supernova_angles.
  rewrite fluid_calls_app.
  rewrite <- (angles_calls
                (fun angle => CallAddForce (x / 20) (y / 20) (cos angle * 100 * intensity)
                                (sin angle * 100 * intensity) 5) (PI / 8) (seq 0 16) f).
  reflexivity.
Qed.

Lemma zero_count_timers_fields r x y colors intensity heartRate width t u :
  t ∈ recipe_timers r x y 0 colors intensity heartRate width ->
  fluid (exec (run_callback (t_callback t)) u) =
    fluid_calls (callback_fluid_calls (t_callback t)) <$> fluid u /\
  flowField (exec (run_callback (t_callback t)) u) = flowField u.
Proof.
  destruct r; cbn [recipe_timers]; intros Ht;
    try (by apply not_elem_of_nil in Ht).
  - apply list_elem_of_singleton in Ht as ->.
    cbn [t_callback run_callback callback_fluid_calls]. unfold supernovaSecondary.
    cbn [count_up for_each]. rewrite exec_ret. split; [by destruct (fluid u)|done].
  - apply list_elem_of_fmap in Ht as (i & -> & _).
    cbn [t_callback run_callback callback_fluid_calls]. unfold resonancePulse, with_fluid.
    rewrite exec_modify. cbn [fluid flowField set_fluid]. split; [|done].
    destruct (fluid u) as [f|]; [|done].
    cbn [fmap option_fmap option_map]. f_equal. cbv zeta. rewrite resonance_angles.
    change (CallAddDensity (x / 20) (y / 20) 50 8 :: ?l)
      with ([CallAddDensity (x / 20) (y / 20) 50 8] ++ l).
    rewrite fluid_calls_app.
    rewrite <- (angles_calls
                  (fun angle => CallAddForce (x / 20) (y / 20) (cos angle * 30)
                                  (sin angle * 30) 3) (PI / 4) (seq 0 8)).
    reflexivity.
Qed.

(** C9: with a count of 0 every recipe leaves the particle map and the
    identifier counter as they were, and the callbacks that it delays add
    no particle when they fire.  Yet it pushes its attractors onto the
    emptied list, makes its calls on the fluid and on the flow field (the
    force of the vortex, the sixteen forces and the density of the
    supernova, the five densities of the nebula, the cleared field and the
    sources of aurora, cascade and emergence), and queues its timers, of
    which each pulse of the resonance gives the fluid a density bump and
    eight forces; [celebrate] then goes on to start the animation loop as
    for any other count. *)
Theorem celebrate_count_zero (config : PhysicsCelebrationConfig)
    (r : PhysicsCelebrationType) (w : World) :
  recipe_of_name (cfg_type config) = Some r ->
  cfg_count config = Some 0%nat ->
  let x := (default (0.5, 0.5) (cfg_origin config)).1 * innerWidth w in
  let y := (default (0.5, 0.5) (cfg_origin config)).2 * innerHeight w in
  let colors :=
    default (getColorsForEmotion (cfg_emotionContext config ≫= dominantEmotion))
      (cfg_colors config) in
  let intensity := default 1 (cfg_intensity config) in
  let delayed :=
    recipe_timers r x y 0 colors intensity (cfg_heartRate config) (innerWidth w) in
  let w1 := exec (celebrate_setup config) w in
  particles w1 = particles w /\ particleIdCounter w1 = particleIdCounter w /\
  attractors w1 = recipe_attractors r x y intensity /\
  fluid w1 =
    fluid_calls (recipe_fluid_calls r x y intensity (rnd w) (rndPos w)) <$> fluid w /\
  flowField w1 =
    flow_calls (recipe_flow_calls r x y (innerWidth w) (innerHeight w) intensity)
      <$> flowField w /\
  timers w1 = timers w ++ delayed /\
  (forall t u, t ∈ delayed ->
     particles (exec (run_callback (t_callback t)) u) = particles u /\
     particleIdCounter (exec (run_callback (t_callback t)) u) = particleIdCounter u /\
     fluid (exec (run_callback (t_callback t)) u) =
       fluid_calls (callback_fluid_calls (t_callback t)) <$> fluid u /\
     flowField (exec (run_callback (t_callback t)) u) = flowField u) /\
  (r = Resonance ->
   delayed = (fun i => {| t_delay := INR i * (60000 / default 72 (cfg_heartRate config));
                          t_callback := ResonancePulse x y |}) <$> seq 0 5) /\
  (isEnabled w = true -> exec (celebrate config) w = exec start_animation w1).
Proof.
  intros Hr Hc. cbv zeta. rewrite exec_celebrate, exec_celebrate_setup, Hr, Hc.
  change (default 100%nat (Some 0%nat)) with 0%nat.
  match goal with
  | |- context [exec (run_recipe (Some r) ?x ?y 0%nat ?colors ?intensity ?hr) ?w0] =>
      destruct (run_recipe_count_zero r x y colors intensity hr w0)
        as (Hp & Hn & Ha & Hf & Hff & Ht)
  end.
  destruct (recipe_field_setup_attractors r
              ((default (0.5, 0.5) (cfg_origin config)).1 * innerWidth w)
              ((default (0.5, 0.5) (cfg_origin config)).2 * innerHeight w)
              (default 1 (cfg_intensity config)) [] w) as [Hf' Hff'].
  destruct (recipe_field_setup_calls r
              ((default (0.5, 0.5) (cfg_origin config)).1 * innerWidth w)
              ((default (0.5, 0.5) (cfg_origin config)).2 * innerHeight w)
              (default 1 (cfg_intensity config)) w) as [Hf'' Hff''].
  split; [done|]. split; [done|]. split; [done|].
  split; [congruence|]. split; [congruence|]. split; [done|]. split; [|split].
  - intros t u Ht'.
    destruct (zero_count_timers_spawn_nothing _ _ _ _ _ _ _ t u Ht') as [H1 H2].
    destruct (zero_count_timers_fields _ _ _ _ _ _ _ t u Ht') as [H3 H4].
    done.
  - by intros ->.
  - by intros ->.
Qed.

(** ** Counting the particles of a celebration *)

Lemma celebrate_enabled config w :
  wf w -> isEnabled w = true ->
  exec (celebrate config) w =
  match animationId w with
  | None => exec animate (exec (celebrate_setup config) w)
  | Some _ => exec (celebrate_setup config) w
  end.
Proof.
  intros Hwf Hon. rewrite exec_celebrate, Hon, exec_start_animation.
  destruct (celebrate_setup_grows config w (wf_rnd w Hwf)) as (n & _ & _ & _ & -> & _).
  done.
Qed.

Lemma updateParticle_alive w p :
  1 < p_life p -> 0 < p_maxLife p -> is_dead (updateParticle w p 1) = false.
Proof.
  intros Hl Hm. apply is_dead_false.
  rewrite updateParticle_life, updateParticle_opacity. split; [lra|].
  apply Rmin_glb_lt; [lra|].
  assert (0 < / p_maxLife p) by by apply Rinv_0_lt_compat.
  unfold Rdiv. nra.
Qed.

Lemma animate_keeps_young w :
  (forall i p, particles w !! i = Some p -> p_id p = i) ->
  (forall i p, particles w !! i = Some p -> 1 < p_life p /\ 0 < p_maxLife p) ->
  dom (particles (exec animate w)) = dom (particles w).
Proof.
  intros Hid Hyoung. apply set_eq. intros i. rewrite !elem_of_dom.
  rewrite (animate_lookup w i Hid).
  destruct (particles w !! i) as [p|] eqn:Hp; [|done]. cbv zeta.
  destruct (Hyoung i p Hp) as [Hl Hm].
  rewrite updateParticle_alive by done. split; eauto.
Qed.

Lemma grows_from_empty n w w' i p :
  wf w -> particles w = ∅ -> grows n w w' ->
  particles w' !! i = Some p -> fresh_particle i p.
Proof.
  intros Hwf He (_ & Hn & Ho & _) Hp.
  destruct (decide (particleIdCounter w <= i < particleIdCounter w + n)%nat) as [Hin|Hout].
  - destruct (Hn i Hin) as (q & Hq & Hfresh). congruence.
  - rewrite Ho, He, lookup_empty in Hp; done.
Qed.

(** On an engine without particles, [celebrate] returns with exactly the
    particles that its recipe has added: none of them dies in the tick that
    [celebrate] runs when it starts the animation loop. *)
Lemma celebrate_size_fresh config r w :
  wf w -> isEnabled w = true -> particles w = ∅ ->
  recipe_of_name (cfg_type config) = Some r ->
  size (particles (exec (celebrate config) w)) =
  spawned_now r (default 100%nat (cfg_count config)) (innerWidth w) (innerHeight w).
Proof.
  intros Hwf Hon He Hr. rewrite celebrate_enabled by done.
  destruct (celebrate_setup_effect config r w (wf_rnd w Hwf) Hr) as [Hg _].
  pose proof (grows_size _ _ _ Hwf Hg) as Hsize.
  rewrite He, map_size_empty in Hsize.
  destruct (animationId w); [done|].
  rewrite <- size_dom, animate_keeps_young, size_dom; [done| |].
  - apply (wf_id _ (grows_wf _ _ _ Hwf Hg)).
  - intros i p Hp.
    destruct (grows_from_empty _ _ _ i p Hwf He Hg Hp) as (_ & _ & Hm & Hl). lra.
Qed.

Lemma celebrate_size_running config r w :
  wf w -> isEnabled w = true -> animationId w <> None ->
  recipe_of_name (cfg_type config) = Some r ->
  size (particles (exec (celebrate config) w)) =
  (size (particles w) +
   spawned_now r (default 100%nat (cfg_count config)) (innerWidth w) (innerHeight w))%nat.
Proof.
  intros Hwf Hon Hrun Hr. rewrite celebrate_enabled by done.
  destruct (celebrate_setup_effect config r w (wf_rnd w Hwf) Hr) as [Hg _].
  destruct (animationId w); [|done]. by apply grows_size.
Qed.

Lemma celebrate_timers config r w :
  wf w -> isEnabled w = true ->
  recipe_of_name (cfg_type config) = Some r ->
  timers (exec (celebrate config) w) =
  timers w ++
  recipe_timers r
    ((default (0.5, 0.5) (cfg_origin config)).1 * innerWidth w)
    ((default (0.5, 0.5) (cfg_origin config)).2 * innerHeight w)
    (default 100%nat (cfg_count config))
    (default (getColorsForEmotion (cfg_emotionContext config ≫= dominantEmotion))
       (cfg_colors config))
    (default 1 (cfg_intensity config)) (cfg_heartRate config) (innerWidth w).
Proof.
  intros Hwf Hon Hr. rewrite celebrate_enabled by done.
  destruct (celebrate_setup_effect config r w (wf_rnd w Hwf) Hr) as (_ & _ & Ht & _).
  destruct (animationId w); [done|].
  by destruct (animate_frame (exec (celebrate_setup config) w)) as (_ & -> & _).
Qed.

Lemma constellation_kept_le width height count :
  (constellation_kept width height count <= count)%nat.
Proof.
  unfold constellation_kept.
  etransitivity; [apply length_filter|]. by rewrite length_seq.
Qed.

Lemma spawned_now_closed r count width height :
  spawned_now r count width height =
  match r with
  | Vortex | Harmony | Nebula => count
  | Supernova => ((3 * count + 4) / 5)%nat
  | Aurora | Resonance => (4 * (count / 4))%nat
  | Orbit => (3 * (count / 3))%nat
  | Helix => (2 * (count / 2))%nat
  | Bloom => (32 * (count / 32))%nat
  | Cascade | Emergence => 0%nat
  | Constellation => constellation_kept width height count
  end.
Proof.
  destruct r; cbn [spawned_now]; try done.
  - by rewrite count_up_burst, length_seq.
  - rewrite Nat.Div0.div_div. change (8 * 4)%nat with 32%nat. lia.
Qed.

Lemma spawned_now_le r count width height :
  (spawned_now r count width height <= count)%nat.
Proof.
  rewrite spawned_now_closed. destruct r; try lia.
  - pose proof (Nat.div_mod_eq (3 * count + 4) 5).
    pose proof (Nat.mod_upper_bound (3 * count + 4) 5). lia.
  - pose proof (Nat.div_mod_eq count 4). lia.
  - pose proof (Nat.div_mod_eq count 4). lia.
  - pose proof (Nat.div_mod_eq count 3). lia.
  - pose proof (Nat.div_mod_eq count 2). lia.
  - pose proof (Nat.div_mod_eq count 32). lia.
  - apply constellation_kept_le.
Qed.

Lemma spawned_later_closed cb :
  spawned_later cb =
  match cb with
  | SupernovaSecondary _ _ count _ _ => ((2 * count + 4) / 5)%nat
  | ResonancePulse _ _ => 0%nat
  | CascadeSpawn _ _ | EmergenceSpawn _ _ _ _ => 1%nat
  end.
Proof. destruct cb; cbn [spawned_later]; try done. by rewrite count_up_ring, length_seq. Qed.

(** C2, as the program has it: on an enabled engine whose particle map is
    empty, [celebrate] with one of the twelve recipes returns with
    [count] live particles for vortex, harmony and nebula,
    [ceil(0.6 * count)] for supernova, [4 * floor(count / 4)] for aurora
    and resonance, [3 * floor(count / 3)] for orbit, [2 * floor(count / 2)]
    for helix, [32 * floor(count / 32)] for bloom, none for cascade and
    emergence, and as many as there are on-screen spiral positions for
    constellation; on an engine whose loop is running this number is added
    to what the map holds.  It never exceeds [count].  The delayed
    sub-spawns land later: every timer that is pending after the call adds,
    when it fires, [ceil(0.4 * count)] particles for the ring of supernova,
    one for each callback of cascade and emergence, none for a pulse of
    resonance. *)
Theorem celebrate_spawn_counts (config : PhysicsCelebrationConfig)
    (r : PhysicsCelebrationType) (w : World) :
  wf w -> isEnabled w = true ->
  recipe_of_name (cfg_type config) = Some r ->
  let count := default 100%nat (cfg_count config) in
  let now :=
    match r with
    | Vortex | Harmony | Nebula => count
    | Supernova => ((3 * count + 4) / 5)%nat
    | Aurora | Resonance => (4 * (count / 4))%nat
    | Orbit => (3 * (count / 3))%nat
    | Helix => (2 * (count / 2))%nat
    | Bloom => (32 * (count / 32))%nat
    | Cascade | Emergence => 0%nat
    | Constellation => constellation_kept (innerWidth w) (innerHeight w) count
    end in
  let w' := exec (celebrate config) w in
  (particles w = ∅ -> size (particles w') = now) /\
  (animationId w <> None -> size (particles w') = (size (particles w) + now)%nat) /\
  (now <= count)%nat /\
  (forall k t, timers w' !! k = Some t ->
     size (particles (fire_timer k w')) =
     (size (particles w') +
      match t_callback t with
      | SupernovaSecondary _ _ c _ _ => (2 * c + 4) / 5
      | ResonancePulse _ _ => 0
      | CascadeSpawn _ _ | EmergenceSpawn _ _ _ _ => 1
      end)%nat).
Proof.
  intros Hwf Hon Hr count now w'.
  assert (now = spawned_now r count (innerWidth w) (innerHeight w)) as ->
    by (symmetry; apply spawned_now_closed).
  split; [|split; [|split]].
  - intros He. by apply celebrate_size_fresh.
  - intros Hrun. by apply celebrate_size_running.
  - apply spawned_now_le.
  - intros k t Hk. rewrite <- spawned_later_closed.
    by apply fire_timer_size; [apply celebrate_wf|].
Qed.

(** ** Successive celebrations *)

Lemma celebrate_isEnabled config w :
  wf w -> isEnabled (exec (celebrate config) w) = isEnabled w.
Proof.
  intros Hwf. destruct (isEnabled w) eqn:Hon;
    [|by rewrite exec_celebrate, Hon].
  rewrite celebrate_enabled by done.
  destruct (celebrate_setup_grows config w (wf_rnd w Hwf))
    as (n & _ & _ & _ & _ & _ & He & Hp & _).
  unfold isEnabled in *.
  destruct (animationId w).
  - by rewrite He, Hp.
  - destruct (animate_frame (exec (celebrate_setup config) w))
      as (_ & _ & _ & _ & -> & -> & _). by rewrite He, Hp.
Qed.

(** When [celebrate] returns without a frame requested, the session is
    empty. *)
Lemma celebrate_idle_after config w :
  wf w -> isEnabled w = true ->
  animationId (exec (celebrate config) w) = None ->
  particles (exec (celebrate config) w) = ∅ /\
  attractors (exec (celebrate config) w) = [] /\
  lissajous (exec (celebrate config) w) = None.
Proof.
  intros Hwf Hon. rewrite celebrate_enabled by done.
  destruct (celebrate_setup_grows config w (wf_rnd w Hwf))
    as (n & _ & _ & _ & Ha & _ & _ & _ & _ & _ & Hq & _).
  destruct (animationId w) eqn:Hid; [by rewrite Ha|].
  assert (rafQueue (exec (celebrate_setup config) w) = []) as Hq'.
  { by rewrite Hq, (wf_raf w Hwf), Hid. }
  destruct (animate_scheduler _ Hq') as [(_ & _ & _ & Hp & Hat & Hl)|(-> & _)]; done.
Qed.

Lemma lissajous_move_ext w w' params a :
  innerWidth w' = innerWidth w -> innerHeight w' = innerHeight w -> time w' = time w ->
  lissajous_move w' params a = lissajous_move w params a.
Proof. intros Hw Hh Ht. unfold lissajous_move. by rewrite Hw, Hh, Ht. Qed.

Lemma update_lissajous_harmony w a :
  lissajous w = Some baseAttractors -> attractors w = replicate 3 a ->
  attractors (update_lissajous w) = (fun params => lissajous_move w params a) <$> baseAttractors.
Proof.
  intros Hl Ha. unfold update_lissajous. rewrite Hl, Ha. reflexivity.
Qed.

(** The attractor list with which [celebrate] returns. *)
Lemma celebrate_attractors config r w :
  wf w -> isEnabled w = true ->
  recipe_of_name (cfg_type config) = Some r ->
  let x := (default (0.5, 0.5) (cfg_origin config)).1 * innerWidth w in
  let y := (default (0.5, 0.5) (cfg_origin config)).2 * innerHeight w in
  let intensity := default 1 (cfg_intensity config) in
  attractors (exec (celebrate config) w) =
  match animationId w, lissajous w, r with
  | None, _, Harmony
  | None, Some _, Orbit =>
      attractors (update_lissajous (set_time (time w + 1) (exec (celebrate_setup config) w)))
  | _, _, _ => recipe_attractors r x y intensity
  end.
Proof.
  intros Hwf Hon Hr x y intensity. rewrite celebrate_enabled by done.
  destruct (celebrate_setup_effect config r w (wf_rnd w Hwf) Hr)
    as ((_ & _ & _ & _ & Ht & _) & Ha & _ & Hl).
  fold x y intensity in Ha.
  destruct (animationId w); [by destruct (lissajous w), r|].
  rewrite animate_attractors, Ht.
  destruct r; try (by destruct (lissajous w));
    try (rewrite update_lissajous_few; [by destruct (lissajous w)|];
         cbn [attractors set_time]; rewrite Ha; cbn; lia).
  destruct (lissajous w) eqn:Hlw; [done|].
  rewrite update_lissajous_none; [done|]. cbn [lissajous set_time]. by rewrite Hl.
Qed.

(** C7, as the program has it: of two successive calls of [celebrate] with
    known recipes on an enabled engine, the second keeps every particle
    that the map held after the first, unchanged, and adds its own; and the
    attractor list after the second call is the list that its recipe
    installs, nothing of the first call's list being left: it is that
    list as installed when the first call left the animation loop running
    or the second recipe is not harmony; when the loop was idle and the
    second recipe is harmony, the tick that [celebrate] runs before it
    returns has already moved the three attractors to their Lissajous
    positions, their strength, radius and kind being as installed. *)
Theorem successive_celebrations (c1 c2 : PhysicsCelebrationConfig)
    (r1 r2 : PhysicsCelebrationType) (w : World) :
  wf w -> isEnabled w = true ->
  recipe_of_name (cfg_type c1) = Some r1 ->
  recipe_of_name (cfg_type c2) = Some r2 ->
  let w1 := exec (celebrate c1) w in
  let w2 := exec (celebrate c2) w1 in
  let count := default 100%nat (cfg_count c2) in
  let installed :=
    recipe_attractors r2
      ((default (0.5, 0.5) (cfg_origin c2)).1 * innerWidth w1)
      ((default (0.5, 0.5) (cfg_origin c2)).2 * innerHeight w1)
      (default 1 (cfg_intensity c2)) in
  (forall i p, particles w1 !! i = Some p -> particles w2 !! i = Some p) /\
  size (particles w2) =
    (size (particles w1) + spawned_now r2 count (innerWidth w1) (innerHeight w1))%nat /\
  (animationId w1 <> None \/ r2 <> Harmony -> attractors w2 = installed) /\
  (animationId w1 = None -> r2 = Harmony ->
   attractors w2 =
   zip_with (lissajous_move (set_time (time w1 + 1) w1)) baseAttractors installed).
Proof.
  intros Hwf Hon Hr1 Hr2 w1 w2 count installed.
  assert (wf w1) as Hwf1 by by apply celebrate_wf.
  assert (isEnabled w1 = true) as Hon1 by (subst w1; by rewrite celebrate_isEnabled).
  assert (animationId w1 = None ->
          particles w1 = ∅ /\ attractors w1 = [] /\ lissajous w1 = None) as Hidle
    by by apply celebrate_idle_after.
  pose proof (celebrate_attractors c2 r2 w1 Hwf1 Hon1 Hr2) as Hatt.
  cbv zeta in Hatt. fold w2 installed in Hatt.
  split; [|split; [|split]].
  - intros i p Hp. subst w2. rewrite celebrate_enabled by done.
    destruct (animationId w1) eqn:Hid.
    + destruct (celebrate_setup_effect c2 r2 w1 (wf_rnd w1 Hwf1) Hr2) as [Hg _].
      by eapply grows_old.
    + destruct Hidle as (He & _); [done|]. by rewrite He, lookup_empty in Hp.
  - destruct (animationId w1) eqn:Hid.
    + apply celebrate_size_running; try done. by rewrite Hid.
    + destruct Hidle as (He & _); [done|]. rewrite He, map_size_empty.
      by apply celebrate_size_fresh.
  - intros Hcase. rewrite Hatt.
    destruct (animationId w1) eqn:Hid; [by destruct (lissajous w1), r2|].
    destruct Hidle as (_ & _ & ->); [done|]. destruct Hcase as [?|?]; [done|].
    by destruct r2.
  - intros Hid ->. rewrite Hatt, Hid.
    destruct (celebrate_setup_effect c2 Harmony w1 (wf_rnd w1 Hwf1) Hr2)
      as ((_ & _ & _ & Hs) & Ha & _ & Hl).
    destruct Hs as (_ & Ht & _ & _ & Hw & Hh & _).
    assert (attractors
              (update_lissajous (set_time (time w1 + 1) (exec (celebrate_setup c2) w1))) =
            (fun params =>
               lissajous_move (set_time (time w1 + 1) (exec (celebrate_setup c2) w1)) params
                 {| a_x := (default (0.5, 0.5) (cfg_origin c2)).1 * innerWidth w1;
                    a_y := (default (0.5, 0.5) (cfg_origin c2)).2 * innerHeight w1;
                    a_strength := 100 * default 1 (cfg_intensity c2);
                    a_radius := 200; a_type := pull |}) <$> baseAttractors) as Hmove.
    { apply update_lissajous_harmony; [exact Hl|exact Ha]. }
    destruct (lissajous w1); rewrite Hmove; subst installed;
      cbn [recipe_attractors replicate baseAttractors zip_with fmap list_fmap];
      (apply (f_equal2 cons); [|apply (f_equal2 cons); [|apply (f_equal2 cons); [|done]]]);
      apply lissajous_move_ext; cbn [innerWidth innerHeight time set_time]; done.
Qed.

(** ** Following one particle through the frames *)

Lemma frame_survivor w i p :
  wf w -> rafQueue w ≠ [] -> particles w !! i = Some p ->
  1 < p_life p -> 0 < p_maxLife p ->
  rafQueue (frame w) ≠ [] /\
  exists p', particles (frame w) !! i = Some p' /\
    p_life p' = p_life p - 1 /\ p_maxLife p' = p_maxLife p.
Proof.
  intros Hwf Hq Hp Hl Hm. unfold frame.
  destruct (rafQueue w) as [|j q] eqn:Hraf; [done|].
  pose proof (wf_raf w Hwf) as Hw. rewrite Hraf in Hw.
  destruct (animationId w); [|done]. injection Hw as -> ->.
  set (w0 := set_raf [] (rafNext w) w).
  assert (particles (exec animate w0) !! i =
          Some (updateParticle (exec animate_fields w0) p 1)) as Hp'.
  { rewrite animate_lookup by apply (wf_id w Hwf).
    replace (particles w0 !! i) with (Some p) by done. cbv zeta.
    by rewrite updateParticle_alive. }
  split.
  - destruct (animate_scheduler w0 eq_refl) as [(_ & _ & _ & He & _)|(_ & -> & _)];
      [|done]. by rewrite He, lookup_empty in Hp'.
  - eexists. split; [exact Hp'|].
    by rewrite updateParticle_life, updateParticle_maxLife.
Qed.

Lemma frames_survivor n w i p :
  reachable w -> rafQueue w ≠ [] -> particles w !! i = Some p ->
  INR n < p_life p -> 0 < p_maxLife p ->
  reachable (Nat.iter n frame w) /\ rafQueue (Nat.iter n frame w) ≠ [] /\
  exists p', particles (Nat.iter n frame w) !! i = Some p' /\
    p_life p' = p_life p - INR n /\ p_maxLife p' = p_maxLife p.
Proof.
  intros Hreach Hq Hp. induction n as [|n IH]; intros Hl Hm.
  - simpl. repeat split; try done. exists p. repeat split; try done. lra.
  - rewrite S_INR in Hl. destruct IH as (Hreach' & Hq' & p' & Hp' & Hl' & Hm'); [lra|done|].
    cbn [Nat.iter]. set (wn := Nat.iter n frame w) in *.
    destruct (frame_survivor wn i p' (reachable_wf wn Hreach') Hq' Hp')
      as (Hq'' & p'' & Hp'' & Hl'' & Hm''); [lra|lra|].
    split; [|split; [done|]].
    + eapply reachable_step; [exact Hreach'|]. by apply step_frame.
    + exists p''. rewrite S_INR. repeat split; try done; [lra|congruence].
Qed.

Lemma set_rndPos_proj k w :
  particleIdCounter (set_rndPos k w) = particleIdCounter w /\
  rnd (set_rndPos k w) = rnd w /\ rndPos (set_rndPos k w) = k.
Proof. done. Qed.

Lemma set_fluid_proj v w :
  particleIdCounter (set_fluid v w) = particleIdCounter w /\
  rnd (set_fluid v w) = rnd w /\ rndPos (set_fluid v w) = rndPos w.
Proof. done. Qed.

Lemma particles_set_timers v w : particles (set_timers v w) = particles w.
Proof. done. Qed.

Lemma set_attractors_proj v w :
  particleIdCounter (set_attractors v w) = particleIdCounter w /\
  rnd (set_attractors v w) = rnd w /\ rndPos (set_attractors v w) = rndPos w.
Proof. done. Qed.

(** A vortex of one is one particle, whose life is drawn as
    [200 + random * 150] from the fifth value of the random stream. *)
Lemma createVortex_one x y colors intensity w :
  exists p,
    particles (exec (createVortex x y 1 colors intensity) w) !! particleIdCounter w =
      Some p /\
    p_life p = 200 + rnd w (S (S (S (S (rndPos w))))) * 150 /\
    p_maxLife p = 200 + rnd w (S (S (S (S (rndPos w))))) * 150.
Proof.
  unfold createVortex. rewrite !exec_seq. cbn [seq].
  rewrite exec_for_each_cons. cbn [for_each]. rewrite exec_ret.
  unfold with_fluid, push_attractor. rewrite !exec_modify.
  set (w0 := set_fluid _ _).
  assert (particleIdCounter w = particleIdCounter w0 /\ rnd w = rnd w0 /\
          rndPos w = rndPos w0) as (-> & -> & ->) by done.
  clearbody w0.
  rewrite exec_random_bind. cbv beta zeta.
  set (w1 := set_rndPos _ w0).
  rewrite exec_random_bind. cbv beta zeta.
  set (w2 := set_rndPos _ w1).
  rewrite exec_random_bind. cbv beta zeta.
  set (w3 := set_rndPos _ w2).
  rewrite exec_random_bind. cbv beta zeta.
  set (w4 := set_rndPos _ w3).
  rewrite exec_random_bind. cbv beta zeta.
  set (w5 := set_rndPos _ w4).
  rewrite exec_random_bind. cbv beta zeta.
  set (w6 := set_rndPos _ w5).
  match goal with
  | |- context [exec (addParticle ?c) ?u] =>
      destruct (addParticle_lookup_new c u) as (p & Hp & _ & _ & _ & _ & _ & Hl & Hm)
  end.
  assert (particleIdCounter w6 = particleIdCounter w0) as Hc by done.
  assert (rnd w4 (rndPos w4) = rnd w0 (S (S (S (S (rndPos w0)))))) as Hr by done.
  exists p. rewrite <- Hc, <- Hr. split; [exact Hp|]. split; [exact Hl|exact Hm].
Qed.

(** When [celebrate] returns from a vortex of one on an idle engine, one
    tick has passed for its particle and the next frame is requested. *)
Lemma vortex_of_one config w :
  wf w -> isEnabled w = true -> animationId w = None ->
  cfg_type config = "vortex"%string -> cfg_count config = Some 1%nat ->
  let life := 200 + rnd w (S (S (S (S (rndPos w))))) * 150 in
  rafQueue (exec (celebrate config) w) ≠ [] /\
  exists p, particles (exec (celebrate config) w) !! particleIdCounter w = Some p /\
    p_life p = life - 1 /\ p_maxLife p = life.
Proof.
  intros Hwf Hon Hid Hty Hc life.
  assert (80 <= life) as Hlife.
  { subst life. pose proof (wf_rnd w Hwf (S (S (S (S (rndPos w)))))). lra. }
  rewrite celebrate_enabled, Hid by done.
  assert (exists p, particles (exec (celebrate_setup config) w) !! particleIdCounter w = Some p /\
                    p_life p = life /\ p_maxLife p = life) as (p & Hp & Hl & Hm).
  { rewrite exec_celebrate_setup, Hty, Hc.
    change (recipe_of_name "vortex") with (Some Vortex).
    change (default 100%nat (Some 1%nat)) with 1%nat.
    cbn [run_recipe].
    match goal with
    | |- context [exec (createVortex ?x ?y 1 ?colors ?intensity) ?u] =>
        apply (createVortex_one x y colors intensity u)
    end. }
  destruct (celebrate_setup_grows config w (wf_rnd w Hwf)) as [n Hg].
  pose proof (grows_wf _ _ _ Hwf Hg) as Hwf1.
  assert (rafQueue (exec (celebrate_setup config) w) = []) as Hq1.
  { destruct Hg as (_ & _ & _ & _ & _ & _ & _ & _ & _ & Hq & _).
    by rewrite Hq, (wf_raf w Hwf), Hid. }
  set (w1 := exec (celebrate_setup config) w) in *. clearbody w1.
  assert (particles (exec animate w1) !! particleIdCounter w =
          Some (updateParticle (exec animate_fields w1) p 1)) as Hp'.
  { rewrite animate_lookup by apply (wf_id w1 Hwf1). rewrite Hp. cbv zeta.
    rewrite updateParticle_alive; [done|lra|lra]. }
  split.
  - destruct (animate_scheduler w1 Hq1) as [(_ & _ & _ & He & _)|(_ & Hq & _)].
    + by rewrite He, lookup_empty in Hp'.
    + by rewrite Hq.
  - eexists. split; [exact Hp'|].
    rewrite updateParticle_life, updateParticle_maxLife. split; [lra|done].
Qed.

(** The harmony recipe on an idle engine: when [celebrate] returns, the
    tick has moved the three attractors. *)
Lemma celebrate_harmony_idle config w :
  wf w -> isEnabled w = true -> animationId w = None ->
  recipe_of_name (cfg_type config) = Some Harmony ->
  attractors (exec (celebrate config) w) =
  (fun params =>
     lissajous_move (set_time (time w + 1) w) params
       {| a_x := (default (0.5, 0.5) (cfg_origin config)).1 * innerWidth w;
          a_y := (default (0.5, 0.5) (cfg_origin config)).2 * innerHeight w;
          a_strength := 100 * default 1 (cfg_intensity config);
          a_radius := 200; a_type := pull |}) <$> baseAttractors.
Proof.
  intros Hwf Hon Hid Hr.
  rewrite (celebrate_attractors config Harmony w Hwf Hon Hr), Hid.
  destruct (celebrate_setup_effect config Harmony w (wf_rnd w Hwf) Hr)
    as ((_ & _ & _ & Hs) & Ha & _ & Hl).
  destruct Hs as (_ & Ht & _ & _ & Hw & Hh & _).
  transitivity
    (attractors (update_lissajous (set_time (time w + 1) (exec (celebrate_setup config) w))));
    [by destruct (lissajous w)|].
  set (u := exec (celebrate_setup config) w) in *. clearbody u.
  rewrite (update_lissajous_harmony (set_time (time w + 1) u) _ Hl Ha).
  unfold baseAttractors. cbn [fmap list_fmap].
  (apply (f_equal2 cons); [|apply (f_equal2 cons); [|apply (f_equal2 cons); [|done]]]);
    apply lissajous_move_ext; cbn [innerWidth innerHeight time set_time]; done.
Qed.

Lemma celebrate_unknown_attractors config w :
  isEnabled w = true -> recipe_of_name (cfg_type config) = None ->
  attractors (exec (celebrate config) w) = [].
Proof.
  intros Hon Hr. rewrite exec_celebrate, Hon, celebrate_setup_unknown by done.
  rewrite exec_start_animation. cbn [animationId set_attractors].
  destruct (animationId w); [done|].
  rewrite animate_attractors. by rewrite update_lissajous_few by (cbn; lia).
Qed.

(** What the first [celebrate] on an idle engine does to the clock and to
    the scheduler. *)
Lemma celebrate_on_idle config w :
  wf w -> isEnabled w = true -> animationId w = None ->
  time (exec (celebrate config) w) = time w + 1 /\
  innerWidth (exec (celebrate config) w) = innerWidth w /\
  innerHeight (exec (celebrate config) w) = innerHeight w /\
  (particles (exec (celebrate config) w) = ∅ ->
   attractors (exec (celebrate config) w) = [] ->
   animationId (exec (celebrate config) w) = None) /\
  (attractors (exec (celebrate config) w) ≠ [] ->
   animationId (exec (celebrate config) w) ≠ None).
Proof.
  intros Hwf Hon Hid. rewrite celebrate_enabled, Hid by done.
  destruct (celebrate_setup_grows config w (wf_rnd w Hwf))
    as (n & _ & _ & _ & _ & Ht & _ & _ & Hw & Hh & Hq & _).
  rewrite (wf_raf w Hwf), Hid in Hq.
  set (u := exec (celebrate_setup config) w) in *. clearbody u.
  destruct (animate_frame u) as (_ & _ & _ & _ & _ & _ & -> & -> & ->).
  split; [by rewrite Ht|]. split; [done|]. split; [done|].
  destruct (animate_scheduler u Hq) as [(Hi & _ & _ & _ & Ha & _)|(Hi & _ & _ & _ & Hne)].
  - split; [done|]. intros Hn. by rewrite Ha in Hn.
  - split; [|by rewrite Hi].
    intros Hp Ha. by destruct Hne.
Qed.

(** During the first 49 ticks of an engine the first Lissajous attractor
    is away from the centre line, so a harmony that starts on an idle engine
    with the default origin does not return with its attractors where it
    installed them. *)
Lemma harmony_first_tick_moves config w :
  wf w -> isEnabled w = true -> animationId w = None ->
  recipe_of_name (cfg_type config) = Some Harmony ->
  cfg_origin config = None -> 0 <= time w < 49 ->
  attractors (exec (celebrate config) w) <>
  recipe_attractors Harmony (0.5 * innerWidth w) (0.5 * innerHeight w)
    (default 1 (cfg_intensity config)).
Proof.
  intros Hwf Hon Hid Hr Ho Ht.
  rewrite (celebrate_harmony_idle config w Hwf Hon Hid Hr), Ho.
  unfold baseAttractors. cbn [fmap list_fmap recipe_attractors replicate].
  intros Heq. injection Heq as Hx _.
  unfold lissajous_move in Hx. cbn [time innerWidth set_time freqX phaseX] in Hx.
  assert (0 < sin ((time w + 1) * 0.02 * 3 + 0)) as Hsin.
  { apply sin_gt_0; [lra|]. pose proof PI2_3_2. lra. }
  cbn [default from_option fst id] in Hx. lra.
Qed.

End Properties.

(** * The properties at sample states *)

Section Samples.
#[local] Existing Instance LoggedFluids.
#[local] Existing Instance LoggedFlow.

Local Open Scope R_scope.

Lemma sample_engine_wf rm r : 0 <= r < 1 -> wf (sample_engine rm r).
Proof. intros Hr. by apply new_engine_wf. Qed.

Lemma sample_engine_reachable rm r : 0 <= r < 1 -> reachable (sample_engine rm r).
Proof. intros Hr. by apply reachable_new. Qed.

Lemma celebrate_ignored_while_disabled_witness :
  isEnabled (sample_engine true 0) = false /\
  exec (celebrate (sample_config "vortex" 10)) (sample_engine true 0) =
  sample_engine true 0.
Proof.
  split; [reflexivity|].
  apply (celebrate_ignored_while_disabled (sample_config "vortex" 10) (sample_engine true 0)).
  reflexivity.
Defined.

Lemma addParticle_adds_one_fresh_particle_witness :
  wf (sample_engine false 0) /\
  exists p,
    particles (exec (addParticle (particle_config 1 2 3 4 None 8 150 star 1))
                 (sample_engine false 0)) = <[0%nat := p]> ∅ /\
    p_opacity p = 1 /\ p_trail p = [] /\ p_maxLife p = p_life p.
Proof.
  assert (wf (sample_engine false 0)) as Hwf by (apply sample_engine_wf; lra).
  split; [exact Hwf|].
  destruct (addParticle_adds_one_fresh_particle
              (particle_config 1 2 3 4 None 8 150 star 1) (sample_engine false 0) Hwf)
    as (p & Hp & _ & _ & Hop & Htr & _ & _ & Hm & _).
  exists p. repeat split; assumption.
Defined.

Lemma opacity_is_min_of_life_ratio_witness :
  0 < p_maxLife sample_particle /\
  p_opacity (updateParticle (sample_engine false 0) sample_particle 1) =
  Rmin 1 (p_life (updateParticle (sample_engine false 0) sample_particle 1) /
          p_maxLife (updateParticle (sample_engine false 0) sample_particle 1) * 2).
Proof.
  assert (0 < p_maxLife sample_particle) as Hm by (simpl; lra).
  split; [exact Hm|].
  apply (opacity_is_min_of_life_ratio (sample_engine false 0) sample_particle 1 Hm).
Defined.

Lemma sample_attractor_distance t : attractor_distance 0 0 (sample_attractor t) = 5.
Proof.
  unfold attractor_distance. simpl.
  replace ((3 - 0) * (3 - 0) + (4 - 0) * (4 - 0)) with (5 * 5) by lra.
  apply sqrt_square. lra.
Qed.

Lemma attractor_force_contribution_witness :
  0.1 < attractor_distance 0 0 (sample_attractor pull) < a_radius (sample_attractor pull) /\
  magnitude (attractor_contribution 0 0 (sample_attractor pull)) =
  sqrt (blend_sq pull) *
  Rabs (falloff_force 500 10 (attractor_distance 0 0 (sample_attractor pull))).
Proof.
  assert (0.1 < attractor_distance 0 0 (sample_attractor pull)
          < a_radius (sample_attractor pull)) as Hr.
  { rewrite sample_attractor_distance. simpl. lra. }
  split; [exact Hr|].
  apply (attractor_force_contribution 0 0 (0, 0) (sample_attractor pull)). exact Hr.
Defined.

(** C5 as stated fails for an [orbit] attractor: at distance 5 from an
    attractor of strength 500 and radius 10 the formula gives a force of 1,
    and the attractor adds the vector (-0.38, 0.66), of magnitude
    [sqrt 0.58]. *)
Lemma orbit_contribution_is_not_the_falloff_force :
  0.1 < attractor_distance 0 0 (sample_attractor orbit) < a_radius (sample_attractor orbit) /\
  falloff_force 500 10 (attractor_distance 0 0 (sample_attractor orbit)) = 1 /\
  attractor_contribution 0 0 (sample_attractor orbit) = (-0.38, 0.66) /\
  magnitude (attractor_contribution 0 0 (sample_attractor orbit)) <>
  falloff_force 500 10 (attractor_distance 0 0 (sample_attractor orbit)).
Proof.
  assert (0.1 < attractor_distance 0 0 (sample_attractor orbit)
          < a_radius (sample_attractor orbit)) as Hr.
  { rewrite sample_attractor_distance. simpl. lra. }
  assert (falloff_force 500 10 (attractor_distance 0 0 (sample_attractor orbit)) = 1) as HF.
  { rewrite sample_attractor_distance. unfold falloff_force. field. }
  assert (attractor_contribution 0 0 (sample_attractor orbit) = (-0.38, 0.66)) as Hc.
  { unfold attractor_contribution.
    rewrite (apply_attractor_in_range 0 0 (0, 0) (sample_attractor orbit) Hr).
    cbv zeta. cbn [a_type a_x a_y a_strength a_radius sample_attractor fst snd].
    rewrite HF, sample_attractor_distance. f_equal; lra. }
  split; [exact Hr|]. split; [exact HF|]. split; [exact Hc|].
  rewrite Hc, HF. unfold magnitude. cbn [fst snd].
  intros Heq.
  assert (sqrt (-0.38 * -0.38 + 0.66 * 0.66) < sqrt 1) as Hlt.
  { apply sqrt_lt_1; lra. }
  rewrite sqrt_1 in Hlt. lra.
Qed.
Lemma after_celebrate_wf type count r : 0 <= r < 1 -> wf (after_celebrate type count r).
Proof. intros Hr. apply celebrate_wf. by apply sample_engine_wf. Qed.

Lemma after_celebrate_reachable type count r :
  0 <= r < 1 -> reachable (after_celebrate type count r).
Proof.
  intros Hr. eapply reachable_step; [by apply sample_engine_reachable|].
  apply step_celebrate.
Qed.

Lemma after_celebrate_isEnabled type count r :
  0 <= r < 1 -> isEnabled (after_celebrate type count r) = true.
Proof.
  intros Hr. unfold after_celebrate.
  by rewrite celebrate_isEnabled by by apply sample_engine_wf.
Qed.

(** ** Clearing *)

Lemma clear_cancels_the_tick_only_witness :
  wf (after_celebrate "cascade" 1 0) /\
  particles (exec clear (after_celebrate "cascade" 1 0)) = ∅ /\
  rafQueue (exec clear (after_celebrate "cascade" 1 0)) = [] /\
  timers (exec clear (after_celebrate "cascade" 1 0)) =
  timers (after_celebrate "cascade" 1 0).
Proof.
  assert (wf (after_celebrate "cascade" 1 0)) as Hwf by (apply after_celebrate_wf; lra).
  split; [exact Hwf|].
  destruct (clear_cancels_the_tick_only (after_celebrate "cascade" 1 0)
              (exec clear (after_celebrate "cascade" 1 0)) Hwf (or_introl eq_refl))
    as (Hp & _ & _ & Hq & Ht & _).
  split; [exact Hp|]. split; [exact Hq|exact Ht].
Defined.

(** C1 as stated fails: after [celebrate({ type: 'cascade', count: 1 })] and
    [clear()] the particle map is empty, yet the callback that the recipe
    has delayed is still pending, can fire, and leaves one particle in the
    cleared session. *)
Lemma delayed_spawn_survives_clear :
  reachable (exec clear (after_celebrate "cascade" 1 0)) /\
  particles (exec clear (after_celebrate "cascade" 1 0)) = ∅ /\
  is_Some (timers (exec clear (after_celebrate "cascade" 1 0)) !! 0%nat) /\
  host_step (exec clear (after_celebrate "cascade" 1 0))
    (fire_timer 0 (exec clear (after_celebrate "cascade" 1 0))) /\
  size (particles (fire_timer 0 (exec clear (after_celebrate "cascade" 1 0)))) = 1%nat.
Proof.
  assert (0 <= 0 < 1) as H0 by lra.
  pose proof (after_celebrate_wf "cascade" 1 0 H0) as Hwf.
  pose proof (after_celebrate_reachable "cascade" 1 0 H0) as Hreach.
  destruct (clear_state _ Hwf) as (Hp & _ & _ & _ & _ & Ht & _).
  assert (exists width colors,
            timers (after_celebrate "cascade" 1 0) !! 0%nat =
            Some {| t_delay := INR 0 * (2000 / INR 1);
                    t_callback := CascadeSpawn width colors |})
    as (width & colors & Hk).
  { unfold after_celebrate.
    rewrite (celebrate_timers (sample_config "cascade" 1) Cascade)
      by first [by apply sample_engine_wf|reflexivity].
    eexists _, _. reflexivity. }
  rewrite <- Ht in Hk.
  split; [|split; [exact Hp|split; [by eauto|split]]].
  - eapply reachable_step; [exact Hreach|apply step_clear].
  - apply step_timer. by eauto.
  - destruct (fire_timer_size 0 _ _ (clear_wf _ Hwf) Hk) as (-> & _).
    by rewrite Hp, map_size_empty.
Qed.

(** ** Counting *)

Lemma celebrate_spawn_counts_witness :
  wf (sample_engine false 0) /\ isEnabled (sample_engine false 0) = true /\
  recipe_of_name (cfg_type (sample_config "vortex" 7)) = Some Vortex /\
  size (particles (after_celebrate "vortex" 7 0)) = 7%nat.
Proof.
  assert (wf (sample_engine false 0)) as Hwf by (apply sample_engine_wf; lra).
  split; [exact Hwf|]. split; [reflexivity|]. split; [reflexivity|].
  destruct (celebrate_spawn_counts (sample_config "vortex" 7) Vortex (sample_engine false 0)
              Hwf eq_refl eq_refl) as (Hfresh & _).
  apply Hfresh. reflexivity.
Defined.

(** C2 as stated fails: [celebrate({ type: 'aurora', count: 10 })] on a
    fresh engine returns with 8 live particles, two for each of the four
    ribbons, and the recipe delays nothing. *)
Lemma aurora_of_ten_spawns_eight :
  particles (sample_engine false 0) = ∅ /\
  size (particles (after_celebrate "aurora" 10 0)) = 8%nat /\
  size (particles (after_celebrate "aurora" 10 0)) <> 10%nat /\
  timers (after_celebrate "aurora" 10 0) = [].
Proof.
  assert (wf (sample_engine false 0)) as Hwf by (apply sample_engine_wf; lra).
  assert (size (particles (after_celebrate "aurora" 10 0)) = 8%nat) as Hsize.
  { unfold after_celebrate.
    by rewrite (celebrate_size_fresh (sample_config "aurora" 10) Aurora). }
  split; [reflexivity|]. split; [exact Hsize|]. split; [rewrite Hsize; lia|].
  unfold after_celebrate.
  by rewrite (celebrate_timers (sample_config "aurora" 10) Aurora).
Qed.

(** ** Unknown names *)

Lemma celebrate_unknown_recipe_witness :
  recipe_of_name (cfg_type (sample_config "fireworks" 3)) = None /\
  particleIdCounter (after_celebrate "fireworks" 3 0) =
  particleIdCounter (sample_engine false 0) /\
  attractors (after_celebrate "fireworks" 3 0) = [] /\
  time (after_celebrate "fireworks" 3 0) = time (sample_engine false 0) + 1.
Proof.
  split; [reflexivity|].
  destruct (celebrate_unknown_recipe (sample_config "fireworks" 3) (sample_engine false 0)
              eq_refl) as (_ & Hc & _ & Ha & _ & Ht & _).
  split; [exact Hc|]. split; [apply Ha; reflexivity|]. apply Ht; reflexivity.
Defined.

Lemma after_vortex_attractors :
  attractors (after_celebrate "vortex" 0 0) =
  recipe_attractors Vortex (0.5 * 1000) (0.5 * 800) 1.
Proof.
  assert (wf (sample_engine false 0)) as Hwf by (apply sample_engine_wf; lra).
  unfold after_celebrate.
  by rewrite (celebrate_attractors (sample_config "vortex" 0) Vortex).
Qed.

(** C3 as stated fails: after [celebrate({ type: 'vortex', count: 0 })] the
    engine holds the attractor of the vortex; a call with the name
    ['fireworks'] then empties the attractor list, so it is not a no-op. *)
Lemma unknown_recipe_discards_the_attractors :
  reachable (after_celebrate "vortex" 0 0) /\
  isEnabled (after_celebrate "vortex" 0 0) = true /\
  recipe_of_name (cfg_type (sample_config "fireworks" 0)) = None /\
  attractors (after_celebrate "vortex" 0 0) <> [] /\
  attractors (exec (celebrate (sample_config "fireworks" 0)) (after_celebrate "vortex" 0 0))
    = [] /\
  exec (celebrate (sample_config "fireworks" 0)) (after_celebrate "vortex" 0 0) <>
  after_celebrate "vortex" 0 0.
Proof.
  assert (0 <= 0 < 1) as H0 by lra.
  pose proof (after_celebrate_isEnabled "vortex" 0 0 H0) as Hon.
  assert (attractors (after_celebrate "vortex" 0 0) <> []) as Hne
    by by rewrite after_vortex_attractors.
  assert (attractors (exec (celebrate (sample_config "fireworks" 0))
                        (after_celebrate "vortex" 0 0)) = []) as He
    by by apply celebrate_unknown_attractors.
  split; [by apply after_celebrate_reachable|]. split; [exact Hon|].
  split; [reflexivity|]. split; [exact Hne|]. split; [exact He|].
  intros Heq. apply Hne. by rewrite <- Heq.
Qed.

(** ** Opacity *)

Lemma vortex_particle :
  rafQueue (after_celebrate "vortex" 1 (1 / 300)) ≠ [] /\
  exists p, particles (after_celebrate "vortex" 1 (1 / 300)) !! 0%nat = Some p /\
    p_life p = 199.5 /\ p_maxLife p = 200.5.
Proof.
  assert (wf (sample_engine false (1 / 300))) as Hwf by (apply sample_engine_wf; lra).
  destruct (vortex_of_one (sample_config "vortex" 1) (sample_engine false (1 / 300))
              Hwf eq_refl eq_refl eq_refl eq_refl) as (Hq & p & Hp & Hl & Hm).
  split; [exact Hq|]. exists p. split; [exact Hp|].
  change (rnd (sample_engine false (1 / 300))
            (S (S (S (S (rndPos (sample_engine false (1 / 300))))))))
    with (1 / 300) in Hl, Hm.
  split; lra.
Qed.

Lemma opacity_between_ticks_witness :
  exists p,
    reachable (after_celebrate "vortex" 1 (1 / 300)) /\
    particles (after_celebrate "vortex" 1 (1 / 300)) !! 0%nat = Some p /\
    0 < p_opacity p <= 1.
Proof.
  assert (reachable (after_celebrate "vortex" 1 (1 / 300))) as Hreach
    by (apply after_celebrate_reachable; lra).
  destruct vortex_particle as (_ & p & Hp & _).
  exists p. split; [exact Hreach|]. split; [exact Hp|].
  apply (opacity_between_ticks (after_celebrate "vortex" 1 (1 / 300)) 0 p);
    [exact Hreach|exact Hp].
Defined.

(** C4 as stated fails inside a tick: with [Math.random()] answering 1/300,
    the particle of [celebrate({ type: 'vortex', count: 1 })] is given a
    life of 200.5; 199 frames after the call its life is 0.5, and in the
    next frame, when the particles have been updated and the dead ones are
    still in the map, its life is -0.5 and its opacity is negative. *)
Lemma expiring_particle_has_negative_opacity :
  reachable (Nat.iter 199 frame (after_celebrate "vortex" 1 (1 / 300))) /\
  rafQueue (Nat.iter 199 frame (after_celebrate "vortex" 1 (1 / 300))) ≠ [] /\
  exists p,
    particles (mid_frame (Nat.iter 199 frame (after_celebrate "vortex" 1 (1 / 300))))
      !! 0%nat = Some p /\
    p_life p = -0.5 /\ p_opacity p < 0.
Proof.
  assert (reachable (after_celebrate "vortex" 1 (1 / 300))) as Hreach
    by (apply after_celebrate_reachable; lra).
  destruct vortex_particle as (Hq & p & Hp & Hl & Hm).
  assert (INR 199 = 199) as H199 by (rewrite INR_IZR_INZ; reflexivity).
  destruct (frames_survivor 199 _ 0 p Hreach Hq Hp) as (Hreach' & Hq' & p' & Hp' & Hl' & Hm');
    [rewrite H199; lra|lra|].
  rewrite H199, Hl in Hl'. rewrite Hm in Hm'.
  set (w := Nat.iter 199 frame (after_celebrate "vortex" 1 (1 / 300))) in *.
  clearbody w.
  split; [exact Hreach'|]. split; [exact Hq'|].
  destruct (rafQueue w) as [|j q] eqn:Hraf; [done|].
  rewrite (mid_frame_lookup w j q 0 Hraf), Hp'.
  eexists. split; [reflexivity|].
  rewrite updateParticle_life, updateParticle_opacity, Hl', Hm'.
  split; [lra|].
  eapply Rle_lt_trans; [apply Rmin_r|]. lra.
Qed.

(** ** Successive calls *)

Lemma successive_celebrations_witness :
  wf (sample_engine false 0) /\ isEnabled (sample_engine false 0) = true /\
  recipe_of_name (cfg_type (sample_config "vortex" 3)) = Some Vortex /\
  recipe_of_name (cfg_type (sample_config "orbit" 6)) = Some Orbit /\
  attractors (exec (celebrate (sample_config "orbit" 6)) (after_celebrate "vortex" 3 0)) =
  recipe_attractors Orbit
    (0.5 * innerWidth (after_celebrate "vortex" 3 0))
    (0.5 * innerHeight (after_celebrate "vortex" 3 0)) 1.
Proof.
  assert (wf (sample_engine false 0)) as Hwf by (apply sample_engine_wf; lra).
  split; [exact Hwf|]. split; [reflexivity|]. split; [reflexivity|]. split; [reflexivity|].
  destruct (successive_celebrations (sample_config "vortex" 3) (sample_config "orbit" 6)
              Vortex Orbit (sample_engine false 0) Hwf eq_refl eq_refl eq_refl)
    as (_ & _ & Hinst & _).
  apply Hinst. right. discriminate.
Defined.

Lemma after_cascade_idle :
  animationId (after_celebrate "cascade" 0 0) = None /\
  time (after_celebrate "cascade" 0 0) = 1 /\
  innerWidth (after_celebrate "cascade" 0 0) = 1000 /\
  innerHeight (after_celebrate "cascade" 0 0) = 800.
Proof.
  assert (wf (sample_engine false 0)) as Hwf by (apply sample_engine_wf; lra).
  destruct (celebrate_on_idle (sample_config "cascade" 0) (sample_engine false 0)
              Hwf eq_refl eq_refl) as (Ht & Hw & Hh & Hidle & _).
  fold (after_celebrate "cascade" 0 0) in *.
  split; [|split; [|split]].
  - apply Hidle.
    + apply map_size_empty_inv. unfold after_celebrate.
      by rewrite (celebrate_size_fresh (sample_config "cascade" 0) Cascade).
    + unfold after_celebrate.
      by rewrite (celebrate_attractors (sample_config "cascade" 0) Cascade).
  - rewrite Ht. change (time (sample_engine false 0)) with 0. lra.
  - by rewrite Hw.
  - by rewrite Hh.
Qed.

(** C7 as stated fails for harmony on an idle engine: after
    [celebrate({ type: 'cascade', count: 0 })] no frame is requested, so
    [celebrate({ type: 'harmony', count: 0 })] runs a tick before it
    returns, and the first attractor, installed at x = 500, is then at
    x = 500 + 150 * sin(0.12). *)
Lemma harmony_attractors_have_moved :
  reachable (after_celebrate "cascade" 0 0) /\
  isEnabled (after_celebrate "cascade" 0 0) = true /\
  animationId (after_celebrate "cascade" 0 0) = None /\
  attractors (exec (celebrate (sample_config "harmony" 0)) (after_celebrate "cascade" 0 0)) <>
  recipe_attractors Harmony (0.5 * 1000) (0.5 * 800) 1.
Proof.
  assert (0 <= 0 < 1) as H0 by lra.
  pose proof (after_celebrate_wf "cascade" 0 0 H0) as Hwf.
  pose proof (after_celebrate_isEnabled "cascade" 0 0 H0) as Hon.
  destruct after_cascade_idle as (Hid & Ht & Hw & Hh).
  split; [by apply after_celebrate_reachable|]. split; [exact Hon|]. split; [exact Hid|].
  rewrite <- Hw at 1. rewrite <- Hh.
  apply (harmony_first_tick_moves (sample_config "harmony" 0) _ Hwf Hon Hid eq_refl eq_refl).
  rewrite Ht. lra.
Qed.

(** ** A count of zero *)

Lemma celebrate_count_zero_witness :
  recipe_of_name (cfg_type (sample_config "vortex" 0)) = Some Vortex /\
  cfg_count (sample_config "vortex" 0) = Some 0%nat /\
  particles (exec (celebrate_setup (sample_config "vortex" 0)) (sample_engine false 0)) = ∅ /\
  attractors (exec (celebrate_setup (sample_config "vortex" 0)) (sample_engine false 0)) =
    [ {| a_x := 0.5 * 1000; a_y := 0.5 * 800; a_strength := 200 * 1;
         a_radius := 400; a_type := vortex |} ] /\
  fluid (exec (celebrate_setup (sample_config "vortex" 0)) (sample_engine false 0)) =
    Some [CallAddForce (0.5 * 1000 / 20) (0.5 * 800 / 20) 0 (-50 * 1) 10] /\
  flowField (exec (celebrate_setup (sample_config "vortex" 0)) (sample_engine false 0)) =
    Some [] /\
  recipe_of_name (cfg_type (sample_config "resonance" 0)) = Some Resonance /\
  length (timers (exec (celebrate_setup (sample_config "resonance" 0))
                    (sample_engine false 0))) = 5%nat /\
  fluid (exec (run_callback (ResonancePulse (0.5 * 1000) (0.5 * 800)))
           (sample_engine false 0)) =
    Some (CallAddDensity (0.5 * 1000 / 20) (0.5 * 800 / 20) 50 8 ::
          ((fun k : nat =>
              CallAddForce (0.5 * 1000 / 20) (0.5 * 800 / 20)
                (cos (INR k * (PI / 4)) * 30) (sin (INR k * (PI / 4)) * 30) 3)
             <$> seq 0 8)) /\
  particles (exec (run_callback (ResonancePulse (0.5 * 1000) (0.5 * 800)))
               (sample_engine false 0)) = ∅.
Proof.
  assert (recipe_of_name (cfg_type (sample_config "vortex" 0)) = Some Vortex) as Hv
    by reflexivity.
  assert (recipe_of_name (cfg_type (sample_config "resonance" 0)) = Some Resonance) as Hr
    by reflexivity.
  assert (cfg_count (sample_config "vortex" 0) = Some 0%nat) as Hc by reflexivity.
  assert (cfg_count (sample_config "resonance" 0) = Some 0%nat) as Hc' by reflexivity.
  destruct (celebrate_count_zero (sample_config "vortex" 0) Vortex (sample_engine false 0)
              Hv Hc) as (Hp & _ & Ha & Hf & Hff & _).
  destruct (celebrate_count_zero (sample_config "resonance" 0) Resonance
              (sample_engine false 0) Hr Hc') as (_ & _ & _ & _ & _ & Ht & Hcb & _).
  split; [exact Hv|]. split; [exact Hc|]. split; [exact Hp|]. split; [exact Ha|].
  split; [exact Hf|]. split; [exact Hff|]. split; [exact Hr|]. split.
  { rewrite Ht. reflexivity. }
  destruct (Hcb {| t_delay := INR 0 * (60000 / 72);
                   t_callback := ResonancePulse (0.5 * 1000) (0.5 * 800) |}
              (sample_engine false 0)) as (Hq & _ & Hg & _).
  { left. }
  split; [exact Hg|exact Hq].
Defined.

End Samples.

(** * Invariants of the particles *)

(** ** Properties that every method keeps *)

Section Preservation.
Context {SF : StableFluids} {FF : FlowField2D}.
Local Open Scope R_scope.

Lemma addParticle_particles config w :
  rnd_ok w ->
  exists r1 r2 r3, 0 <= r1 < 1 /\ 0 <= r2 < 1 /\ 0 <= r3 < 1 /\
    particles (exec (addParticle config) w) =
      <[particleIdCounter w := new_particle config (particleIdCounter w) r1 r2 r3]>
        (particles w).
Proof.
  intros Hrnd. unfold addParticle, new_particle.
  destruct (c_pulsePhase config) as [ph|].
  - exists (rnd w (rndPos w)), (rnd w (S (rndPos w))), 0.
    repeat split; try apply Hrnd; try lra.
  - exists (rnd w (rndPos w)), (rnd w (S (rndPos w))), (rnd w (S (S (rndPos w)))).
    repeat split; try apply Hrnd.
Qed.

Lemma addParticle_rnd config w : rnd (exec (addParticle config) w) = rnd w.
Proof. unfold addParticle. by destruct (c_pulsePhase config). Qed.

(** ** Rules for [keeps] *)

Lemma keeps_ret Q {A} (a : A) : keeps Q (mret a).
Proof. intros w Hr Hq. done. Qed.

Lemma keeps_bind Q {A B} (m : M A) (f : A -> M B) :
  keeps Q m -> (forall a, keeps Q (f a)) -> keeps Q (m ≫= f).
Proof.
  intros Hm Hf w Hr Hq. rewrite exec_bind.
  destruct (Hm w Hr Hq) as [Hq1 Hr1]. unfold exec in Hq1, Hr1.
  destruct (Hf (m w).1 (m w).2) as [Hq2 Hr2].
  - intros n. rewrite Hr1. apply Hr.
  - exact Hq1.
  - split; [exact Hq2|]. by rewrite Hr2.
Qed.

Lemma keeps_bind_random Q {B} (k : R -> M B) :
  (forall r, 0 <= r < 1 -> keeps Q (k r)) -> keeps Q (random ≫= k).
Proof.
  intros Hk w Hr Hq. rewrite exec_random_bind.
  destruct (Hk (rnd w (rndPos w)) (Hr _) (set_rndPos (S (rndPos w)) w)) as [Hq2 Hr2];
    [exact Hr|exact Hq|].
  split; [exact Hq2|exact Hr2].
Qed.

Lemma keeps_bind_get Q {A B} (field : World -> A) (k : A -> M B) :
  (forall a, keeps Q (k a)) -> keeps Q (get field ≫= k).
Proof. intros Hk w Hr Hq. rewrite exec_get_bind. by apply Hk. Qed.

Lemma keeps_modify Q (f : World -> World) :
  (forall w, particles (f w) = particles w) -> (forall w, rnd (f w) = rnd w) ->
  keeps Q (modify f).
Proof.
  intros Hp Hrn w Hr Hq. rewrite exec_modify. split; [|apply Hrn].
  intros i p. rewrite Hp. apply Hq.
Qed.

Lemma keeps_for_each Q {A} (l : list A) (body : A -> M unit) :
  (forall a, a ∈ l -> keeps Q (body a)) -> keeps Q (for_each l body).
Proof.
  induction l as [|a l IH]; intros Hb.
  - apply keeps_ret.
  - cbn [for_each]. apply keeps_bind.
    + apply Hb. by left.
    + intros _. apply IH. intros b Hin. apply Hb. by right.
Qed.

Lemma keeps_addParticle Q config :
  (forall i r1 r2 r3, 0 <= r1 < 1 -> 0 <= r2 < 1 -> 0 <= r3 < 1 ->
     Q (new_particle config i r1 r2 r3)) ->
  keeps Q (addParticle config).
Proof.
  intros Hnew w Hr Hq. split; [|apply addParticle_rnd].
  destruct (addParticle_particles config w Hr) as (r1 & r2 & r3 & H1 & H2 & H3 & Heq).
  intros i p. rewrite Heq. destruct (decide (i = particleIdCounter w)) as [->|Hne].
  - rewrite lookup_insert_eq. intros [= <-]. by apply Hnew.
  - rewrite lookup_insert_ne by done. apply Hq.
Qed.


End Preservation.

Ltac keeps_quiet := apply keeps_modify; intros; reflexivity.

Ltac keeps_step :=
  cbv beta zeta;
  lazymatch goal with
  | |- keeps _ (random ≫= _) => apply keeps_bind_random; intros ? ?
  | |- keeps _ (get _ ≫= _) => apply keeps_bind_get; intros ?
  | |- keeps _ (for_each _ _) => apply keeps_for_each; intros ? ?
  | |- keeps _ (mret _) => apply keeps_ret
  | |- keeps _ (push_attractor _) => keeps_quiet
  | |- keeps _ (with_fluid _) => keeps_quiet
  | |- keeps _ (with_flowField _) => keeps_quiet
  | |- keeps _ (setTimeout _ _) => keeps_quiet
  | |- keeps _ (modify _) => keeps_quiet
  | |- keeps _ (_ ≫= _) => apply keeps_bind; [|intros ?]
  end.


(** ** Bounds on the fields of a particle *)

Section SoundParticles.
Context {SF : StableFluids} {FF : FlowField2D}.
Local Open Scope R_scope.

Ltac sound_new :=
  apply keeps_addParticle; intros;
  unfold sound_particle, new_particle, particle_config;
  cbn [p_maxLife p_life p_opacity p_mass p_size p_rotationVelocity p_trail
       c_life c_mass c_size default from_option Datatypes.id length];
  repeat match goal with
  | H : _ ∈ seq _ _ |- _ => apply elem_of_seq in H
  end;
  repeat match goal with
  | |- context [INR ?n] =>
      let H := fresh in
      pose proof (pos_INR n) as H;
      try (let H' := fresh in
           assert (n <= 3)%nat as H' by lia; apply le_INR in H'; cbn [INR] in H');
      generalize dependent (INR n); intros
  end;
  repeat split; try lra; try (unfold trailLength; lia); try apply Forall_nil_2.

Lemma createVortex_sound x y count colors intensity :
  keeps sound_particle (createVortex x y count colors intensity).
Proof. unfold createVortex. repeat keeps_step. sound_new. Qed.


Lemma createSupernova_sound x y count colors intensity :
  keeps sound_particle (createSupernova x y count colors intensity).
Proof. unfold createSupernova. repeat keeps_step. sound_new. Qed.

Lemma supernovaSecondary_sound x y count colors intensity :
  keeps sound_particle (supernovaSecondary x y count colors intensity).
Proof. unfold supernovaSecondary. repeat keeps_step. sound_new. Qed.

Lemma createAurora_sound count colors intensity :
  keeps sound_particle (createAurora count colors intensity).
Proof. unfold createAurora. repeat keeps_step. sound_new. Qed.

Lemma createResonance_sound x y count colors intensity heartRate :
  keeps sound_particle (createResonance x y count colors intensity heartRate).
Proof. unfold createResonance. repeat keeps_step. sound_new. Qed.

Lemma resonancePulse_sound x y : keeps sound_particle (resonancePulse x y).
Proof. unfold resonancePulse. keeps_step. Qed.

Lemma createOrbit_sound x y count colors intensity :
  keeps sound_particle (createOrbit x y count colors intensity).
Proof.
  unfold createOrbit. keeps_step.
  - keeps_step. destruct a as [[cx cy] strength]. keeps_step.
  - keeps_step. destruct a0 as [ci [[cx cy] strength]]. repeat keeps_step. sound_new.
Qed.

Lemma createCascade_sound count colors intensity :
  keeps sound_particle (createCascade count colors intensity).
Proof. unfold createCascade. repeat keeps_step. Qed.

Lemma cascadeSpawn_sound width colors : keeps sound_particle (cascadeSpawn width colors).
Proof. unfold cascadeSpawn. repeat keeps_step. sound_new. Qed.

Lemma createEmergence_sound x y count colors intensity :
  keeps sound_particle (createEmergence x y count colors intensity).
Proof. unfold createEmergence. repeat keeps_step. Qed.

Lemma emergenceSpawn_sound x y i colors : keeps sound_particle (emergenceSpawn x y i colors).
Proof. unfold emergenceSpawn. repeat keeps_step. sound_new. Qed.

Lemma createHarmony_sound x y count colors intensity :
  keeps sound_particle (createHarmony x y count colors intensity).
Proof. unfold createHarmony. repeat keeps_step. sound_new. Qed.

Lemma createHelix_sound x y count colors intensity :
  keeps sound_particle (createHelix x y count colors intensity).
Proof. unfold createHelix. repeat keeps_step. sound_new. Qed.

Lemma createBloom_sound x y count colors intensity :
  keeps sound_particle (createBloom x y count colors intensity).
Proof. unfold createBloom. repeat keeps_step. sound_new. Qed.

Lemma createConstellation_sound count colors intensity :
  keeps sound_particle (createConstellation count colors intensity).
Proof.
  unfold createConstellation. repeat keeps_step.
  destruct (constellation_position a a0 a1) as [px py].
  destruct (constellation_on_screen a a0 a1); repeat keeps_step. sound_new.
Qed.

Lemma createNebula_sound x y count colors intensity :
  keeps sound_particle (createNebula x y count colors intensity).
Proof.
  unfold createNebula, nebula_density. keeps_step.
  - keeps_step. destruct a; repeat keeps_step.
  - repeat keeps_step. sound_new.
Qed.

Lemma run_recipe_sound type x y count colors intensity heartRate :
  keeps sound_particle (run_recipe type x y count colors intensity heartRate).
Proof.
  destruct type as [[]|]; cbn [run_recipe].
  - apply createVortex_sound.
  - apply createSupernova_sound.
  - apply createAurora_sound.
  - apply createResonance_sound.
  - apply createOrbit_sound.
  - apply createCascade_sound.
  - apply createEmergence_sound.
  - apply createHarmony_sound.
  - apply createHelix_sound.
  - apply createBloom_sound.
  - apply createConstellation_sound.
  - apply createNebula_sound.
  - apply keeps_ret.
Qed.

Lemma run_callback_sound cb : keeps sound_particle (run_callback cb).
Proof.
  destruct cb; cbn [run_callback].
  - apply supernovaSecondary_sound.
  - apply resonancePulse_sound.
  - apply cascadeSpawn_sound.
  - apply emergenceSpawn_sound.
Qed.

Lemma celebrate_setup_sound config : keeps sound_particle (celebrate_setup config).
Proof. unfold celebrate_setup. repeat keeps_step. apply run_recipe_sound. Qed.


(** ** The tick and the bounds *)

Lemma updateParticle_static w p dt :
  p_mass (updateParticle w p dt) = p_mass p /\
  p_rotationVelocity (updateParticle w p dt) = p_rotationVelocity p /\
  p_color (updateParticle w p dt) = p_color p /\
  p_shape (updateParticle w p dt) = p_shape p /\
  p_pulsePhase (updateParticle w p dt) = p_pulsePhase p /\
  p_rotation (updateParticle w p dt) = p_rotation p + p_rotationVelocity p /\
  p_trail (updateParticle w p dt) =
    push_trail {| tp_x := p_x p; tp_y := p_y p; tp_opacity := p_opacity p |} (p_trail p) /\
  p_size (updateParticle w p dt) =
    p_size p *
    ((1 + sin (time w * 0.1 + p_pulsePhase p) * 0.15) /
     (1 + sin (time w * 0.1 + p_pulsePhase p) * 0.15 -
      0.15 * sin (time w * 0.1 + p_pulsePhase p - 0.1))).
Proof.
  unfold updateParticle.
  repeat match goal with |- context [let '(_, _) := ?e in _] => destruct e end.
  repeat split; reflexivity.
Qed.

Lemma push_trail_sound (P : TrailPoint -> Prop) pt trail :
  P pt -> Forall P trail -> (length trail <= trailLength)%nat ->
  Forall P (push_trail pt trail) /\ (length (push_trail pt trail) <= trailLength)%nat.
Proof.
  intros Hpt Htr Hlen. unfold push_trail. cbn [length].
  destruct (trailLength <? S (length trail))%nat eqn:Hl.
  - rewrite removelast_firstn_len. cbn [length Nat.pred]. split.
    + apply Forall_take. by constructor.
    + rewrite length_take. cbn [length]. lia.
  - apply Nat.ltb_ge in Hl. split; [by constructor|done].
Qed.

Lemma pulse_factor_pos a b :
  0 < (1 + sin a * 0.15) / (1 + sin a * 0.15 - 0.15 * sin b).
Proof.
  pose proof (SIN_bound a). pose proof (SIN_bound b).
  apply Rdiv_lt_0_compat; lra.
Qed.

Lemma updateParticle_sound w p :
  sound_particle p -> is_dead (updateParticle w p 1) = false ->
  sound_particle (updateParticle w p 1).
Proof.
  intros (Hm & Hl & Ho & Hma & Hs & Hrv & Htl & Hto) Hd.
  apply is_dead_false in Hd as [Hl' Ho'].
  destruct (updateParticle_static w p 1) as (Hma' & Hrv' & _ & _ & _ & _ & Ht & Hsz).
  unfold sound_particle.
  rewrite Hma', Hrv', updateParticle_maxLife. rewrite updateParticle_life in *.
  destruct (push_trail_sound (fun t => 0 < tp_opacity t <= 1)
              {| tp_x := p_x p; tp_y := p_y p; tp_opacity := p_opacity p |}
              (p_trail p) Ho Hto Htl) as [Hf Hlen].
  rewrite Ht, Hsz.
  repeat split; try lra; try done.
  - rewrite updateParticle_opacity. apply Rmin_l.
  - apply Rmult_lt_0_compat; [lra|apply pulse_factor_pos].
Qed.

Lemma animate_all Q w :
  (forall i p, particles w !! i = Some p -> p_id p = i) ->
  (forall w0 p, Q p -> is_dead (updateParticle w0 p 1) = false ->
     Q (updateParticle w0 p 1)) ->
  all_particles Q w -> all_particles Q (exec animate w).
Proof.
  intros Hid Hup Hq i p'. rewrite (animate_lookup w i Hid).
  destruct (particles w !! i) as [p|] eqn:Hp; [|done]. cbv zeta.
  destruct (is_dead _) eqn:Hd; [done|]. intros [= <-].
  apply Hup; [by eapply Hq|done].
Qed.

Lemma start_animation_all Q w :
  (forall i p, particles w !! i = Some p -> p_id p = i) ->
  (forall w0 p, Q p -> is_dead (updateParticle w0 p 1) = false ->
     Q (updateParticle w0 p 1)) ->
  all_particles Q w -> all_particles Q (exec start_animation w).
Proof.
  intros Hid Hup Hq. rewrite exec_start_animation.
  destruct (animationId w); [done|]. by apply animate_all.
Qed.

Lemma celebrate_sound config w :
  wf w -> all_particles sound_particle w ->
  all_particles sound_particle (exec (celebrate config) w).
Proof.
  intros Hwf Hq. rewrite exec_celebrate. destruct (isEnabled w); [|done].
  destruct (celebrate_setup_grows config w (wf_rnd w Hwf)) as [n Hg].
  apply start_animation_all.
  - apply (wf_id _ (grows_wf n w _ Hwf Hg)).
  - intros w0 p. apply updateParticle_sound.
  - by apply (celebrate_setup_sound config w (wf_rnd w Hwf)).
Qed.

Lemma clear_particles w : particles (exec clear w) = ∅.
Proof. by rewrite exec_clear. Qed.

Lemma all_particles_empty Q w : particles w = ∅ -> all_particles Q w.
Proof. intros He i p. by rewrite He, lookup_empty. Qed.

Lemma fire_timer_all Q k w :
  rnd_ok w -> (forall cb, keeps Q (run_callback cb)) ->
  all_particles Q w -> all_particles Q (fire_timer k w).
Proof.
  intros Hr Hk Hq. unfold fire_timer. destruct (timers w !! k) as [t|]; [|done].
  by apply (Hk (t_callback t) (set_timers (delete k (timers w)) w)).
Qed.

Lemma frame_all Q w :
  wf w ->
  (forall w0 p, Q p -> is_dead (updateParticle w0 p 1) = false ->
     Q (updateParticle w0 p 1)) ->
  all_particles Q w -> all_particles Q (frame w).
Proof.
  intros Hwf Hup Hq. unfold frame. destruct (rafQueue w) as [|j q]; [done|].
  apply animate_all; [apply (wf_id w Hwf)|done|done].
Qed.

Lemma host_step_sound w w' :
  wf w -> host_step w w' ->
  all_particles sound_particle w -> all_particles sound_particle w'.
Proof.
  intros Hwf Hstep Hq. destruct Hstep as [config w|w|b w|b w|k w Hk|w Hne].
  - by apply celebrate_sound.
  - apply all_particles_empty, clear_particles.
  - rewrite exec_setEnabled. destruct b; [done|].
    apply all_particles_empty, clear_particles.
  - done.
  - apply fire_timer_all; [exact (wf_rnd w Hwf)|apply run_callback_sound|done].
  - apply frame_all; [done| |done]. intros w0 p. apply updateParticle_sound.
Qed.

Lemma reachable_sound w : reachable w -> all_particles sound_particle w.
Proof.
  induction 1 as [width height rm rv Hrnd|w w' Hreach IH Hstep].
  - by apply all_particles_empty.
  - eapply host_step_sound; [by apply reachable_wf|done|done].
Qed.

End SoundParticles.


(** * The life of a particle and of the animation *)

Section Lifecycle.
Context {SF : StableFluids} {FF : FlowField2D}.
Local Open Scope R_scope.

Lemma frame_pending w :
  wf w -> rafQueue w ≠ [] -> frame w = exec animate (set_raf [] (rafNext w) w).
Proof.
  intros Hwf Hq. unfold frame.
  destruct (rafQueue w) as [|j q] eqn:Hraf; [done|].
  pose proof (wf_raf w Hwf) as Hw. rewrite Hraf in Hw.
  destruct (animationId w); [|done]. by injection Hw as -> ->.
Qed.

Lemma frame_idle w : rafQueue w = [] -> frame w = w.
Proof. intros Hq. unfold frame. by rewrite Hq. Qed.

Lemma frame_outcome w :
  wf w -> rafQueue w ≠ [] ->
  (animationId (frame w) = None /\ rafQueue (frame w) = [] /\
   particles (frame w) = ∅ /\ attractors (frame w) = [] /\ lissajous (frame w) = None) \/
  (animationId (frame w) <> None /\ rafQueue (frame w) ≠ [] /\
   (particles (frame w) ≠ ∅ \/ attractors (frame w) ≠ [])).
Proof.
  intros Hwf Hq. rewrite frame_pending by done.
  destruct (animate_scheduler (set_raf [] (rafNext w) w) eq_refl)
    as [(Hi & Hr & _ & Hp & Ha & Hl)|(Hi & Hr & _ & _ & Hne)].
  - left. done.
  - right. rewrite Hi, Hr. done.
Qed.

Lemma frame_lives w i p' :
  wf w -> rafQueue w ≠ [] -> particles (frame w) !! i = Some p' ->
  exists p, particles w !! i = Some p /\
    p_life p' = p_life p - 1 /\ p_maxLife p' = p_maxLife p.
Proof.
  intros Hwf Hq. rewrite frame_pending by done. intros Hp'.
  apply animate_survivor in Hp' as (p & Hp & -> & _); [|apply (wf_id w Hwf)].
  exists p. by rewrite updateParticle_life, updateParticle_maxLife.
Qed.

Lemma update_lissajous_length w :
  length (attractors (update_lissajous w)) = length (attractors w).
Proof.
  unfold update_lissajous. destruct (lissajous w) as [l|]; [|done].
  destruct (3 <=? length (attractors w))%nat; [|done].
  cbn [attractors set_attractors].
  generalize (seq 0 (3 `min` length (attractors w))). intros idx.
  generalize (attractors w).
  induction idx as [|i idx IH]; intros atts; [done|].
  cbn [foldl]. rewrite IH. destruct (l !! i); [|done]. apply length_alter.
Qed.

Lemma frame_attractors_length w :
  wf w -> length (attractors (frame w)) = length (attractors w).
Proof.
  intros Hwf. destruct (rafQueue w) as [|j q] eqn:Hq; [by rewrite frame_idle|].
  rewrite (frame_pending w Hwf) by by rewrite Hq.
  by rewrite animate_attractors, update_lissajous_length.
Qed.

Lemma frame_time w :
  wf w -> rafQueue w ≠ [] -> time (frame w) = time w + 1.
Proof.
  intros Hwf Hq. rewrite frame_pending by done.
  by destruct (animate_frame (set_raf [] (rafNext w) w)) as (_ & _ & _ & _ & _ & _ & _ & _ & ->).
Qed.

Lemma frames_reachable n w : reachable w -> reachable (Nat.iter n frame w).
Proof.
  intros Hreach. induction n as [|n IH]; [done|].
  change (Nat.iter (S n) frame w) with (frame (Nat.iter n frame w)).
  destruct (rafQueue (Nat.iter n frame w)) as [|j q] eqn:Hq.
  - by rewrite frame_idle.
  - eapply reachable_step; [exact IH|]. apply step_frame. by rewrite Hq.
Qed.

(** The frames that follow a state in which a frame is pending. *)
Lemma frames_lives n w :
  reachable w -> rafQueue w ≠ [] ->
  (forall i p', particles (Nat.iter n frame w) !! i = Some p' ->
     exists p, particles w !! i = Some p /\
       p_life p' = p_life p - INR n /\ p_maxLife p' = p_maxLife p) /\
  (rafQueue (Nat.iter n frame w) = [] ->
   particles (Nat.iter n frame w) = ∅ /\ attractors (Nat.iter n frame w) = [] /\
   lissajous (Nat.iter n frame w) = None) /\
  ((0 < n)%nat -> rafQueue (Nat.iter n frame w) ≠ [] ->
   particles (Nat.iter n frame w) ≠ ∅ \/ attractors (Nat.iter n frame w) ≠ []) /\
  length (attractors (Nat.iter n frame w)) = length (attractors w).
Proof.
  intros Hreach Hq. induction n as [|n (IHl & IHs & IHr & IHa)].
  - cbn [Nat.iter]. split; [|split; [done|split; [lia|done]]].
    intros i p' Hp'. exists p'. cbn [INR]. repeat split; [done|lra].
  - change (Nat.iter (S n) frame w) with (frame (Nat.iter n frame w)).
    set (wn := Nat.iter n frame w) in *.
    assert (wf wn) as Hwf by by apply reachable_wf, frames_reachable.
    destruct (rafQueue wn) as [|j q] eqn:Hqn.
    + rewrite frame_idle by done. destruct (IHs eq_refl) as (Hp & Ha & Hl).
      split; [|split; [done|split; [by rewrite Hqn|done]]].
      intros i p'. by rewrite Hp, lookup_empty.
    + assert (rafQueue wn ≠ []) as Hne by by rewrite Hqn.
      split; [|split; [|split]].
      * intros i p' Hp'.
        destruct (frame_lives wn i p' Hwf Hne Hp') as (q' & Hq' & Hl' & Hm').
        destruct (IHl i q' Hq') as (p & Hp & Hl & Hm).
        exists p. rewrite S_INR. repeat split; [done|lra|congruence].
      * intros Hidle.
        destruct (frame_outcome wn Hwf Hne) as [(_ & _ & ? & ? & ?)|(_ & ? & _)]; done.
      * intros _ Hrun.
        destruct (frame_outcome wn Hwf Hne) as [(_ & ? & _)|(_ & _ & ?)]; done.
      * by rewrite frame_attractors_length.
Qed.


Lemma INR_700 : INR 700 = 700.
Proof. rewrite INR_IZR_INZ. reflexivity. Qed.

(** X1: every particle of a running engine stays within the bounds that the
    recipes give it: a total life between 80 and 700 ticks, of which some
    is left, a mass between 0.4 and 1.5, a positive size and a spin of at
    most 0.1 per tick. *)
Theorem particles_stay_within_bounds (w : World) (i : nat) (p : PhysicsParticle) :
  reachable w -> particles w !! i = Some p ->
  80 <= p_maxLife p <= 700 /\ 0 < p_life p <= p_maxLife p /\
  0.4 <= p_mass p <= 1.5 /\ 0 < p_size p /\
  -0.1 <= p_rotationVelocity p <= 0.1.
Proof.
  intros Hreach Hp.
  destruct (reachable_sound w Hreach i p Hp) as (Hm & Hl & _ & Hma & Hs & Hrv & _).
  done.
Qed.

(** X2: the trail of a particle holds its last positions, the most recent
    first and eight at most, each with the opacity that the particle had
    there, which lies in (0, 1]; a tick pushes the current position at the
    front and keeps the first eight. *)
Theorem trail_keeps_the_last_eight_positions (w : World) (i : nat) (p : PhysicsParticle) :
  reachable w -> particles w !! i = Some p ->
  (length (p_trail p) <= 8)%nat /\
  Forall (fun t => 0 < tp_opacity t <= 1) (p_trail p) /\
  forall w0 dt,
    p_trail (updateParticle w0 p dt) =
    take 8 ({| tp_x := p_x p; tp_y := p_y p; tp_opacity := p_opacity p |} :: p_trail p).
Proof.
  intros Hreach Hp.
  destruct (reachable_sound w Hreach i p Hp) as (_ & _ & _ & _ & _ & _ & Hlen & Hop).
  unfold trailLength in Hlen. split; [done|]. split; [done|].
  intros w0 dt.
  destruct (updateParticle_static w0 p dt) as (_ & _ & _ & _ & _ & _ & -> & _).
  unfold push_trail, trailLength. cbn [length].
  destruct (8 <? S (length (p_trail p)))%nat eqn:Hl.
  - apply Nat.ltb_lt in Hl. rewrite removelast_firstn_len. cbn [length Nat.pred].
    by replace (length (p_trail p)) with 8%nat by lia.
  - apply Nat.ltb_ge in Hl. symmetry. apply take_ge. cbn [length]. lia.
Qed.

(** X3: once 700 frames have been drawn one after the other, with no call
    of [celebrate] and no delayed callback between them, no particle is
    left, and when no attractor is installed the animation loop has
    stopped: no frame is requested and the Lissajous parameters are
    gone. *)
Theorem animation_ends_within_700_frames (w : World) (n : nat) :
  reachable w -> rafQueue w ≠ [] -> (700 <= n)%nat ->
  particles (Nat.iter n frame w) = ∅ /\
  (attractors w = [] ->
   animationId (Nat.iter n frame w) = None /\ rafQueue (Nat.iter n frame w) = [] /\
   lissajous (Nat.iter n frame w) = None).
Proof.
  intros Hreach Hq Hn.
  destruct (frames_lives n w Hreach Hq) as (Hl & Hs & Hr & Ha).
  pose proof (frames_reachable n w Hreach) as Hreach'.
  assert (particles (Nat.iter n frame w) = ∅) as He.
  { apply map_empty. intros i.
    destruct (particles (Nat.iter n frame w) !! i) as [p'|] eqn:Hp'; [|done].
    exfalso. destruct (Hl i p' Hp') as (p & Hp & Hlife & _).
    destruct (reachable_sound w Hreach i p Hp) as (Hm & Hlp & _).
    destruct (reachable_sound _ Hreach' i p' Hp') as (_ & Hlp' & _).
    apply le_INR in Hn. rewrite INR_700 in Hn. lra. }
  split; [exact He|]. intros Hno.
  assert (attractors (Nat.iter n frame w) = []) as Hno'.
  { apply nil_length_inv. by rewrite Ha, Hno. }
  assert (rafQueue (Nat.iter n frame w) = []) as Hidle.
  { destruct (rafQueue (Nat.iter n frame w)) as [|j q] eqn:Hraf; [done|].
    destruct Hr as [Hr|Hr]; [lia|done|done|done]. }
  split; [|split; [done|by apply Hs]].
  pose proof (wf_raf _ (reachable_wf _ Hreach')) as Hw. rewrite Hidle in Hw.
  by destruct (animationId (Nat.iter n frame w)).
Qed.

Lemma frames_running n w :
  reachable w -> rafQueue w ≠ [] -> attractors w ≠ [] ->
  rafQueue (Nat.iter n frame w) ≠ [] /\ time (Nat.iter n frame w) = time w + INR n.
Proof.
  intros Hreach Hq Hatt.
  assert (forall k, rafQueue (Nat.iter k frame w) ≠ []) as Hrun.
  { intros k Hidle. destruct (frames_lives k w Hreach Hq) as (_ & Hs & _ & Ha).
    destruct (Hs Hidle) as (_ & Hno & _). rewrite Hno in Ha.
    destruct (attractors w); done. }
  split; [apply Hrun|]. induction n as [|n IH]; [cbn; lra|].
  change (Nat.iter (S n) frame w) with (frame (Nat.iter n frame w)).
  rewrite frame_time, IH, S_INR; [lra| |apply Hrun].
  by apply reachable_wf, frames_reachable.
Qed.

(** X4: while an attractor is installed the animation loop keeps itself
    going: after any number of frames another one is requested, the
    attractors are as many as before and the clock has advanced by one per
    frame.  Only [celebrate] and [clear] remove attractors. *)
Theorem animation_runs_while_attractors_remain (w : World) (n : nat) :
  reachable w -> rafQueue w ≠ [] -> attractors w ≠ [] ->
  rafQueue (Nat.iter n frame w) ≠ [] /\ animationId (Nat.iter n frame w) <> None /\
  length (attractors (Nat.iter n frame w)) = length (attractors w) /\
  time (Nat.iter n frame w) = time w + INR n.
Proof.
  intros Hreach Hq Hatt.
  destruct (frames_running n w Hreach Hq Hatt) as [Hrun Ht].
  destruct (frames_lives n w Hreach Hq) as (_ & _ & _ & Ha).
  split; [exact Hrun|]. split; [|split; [exact Ha|exact Ht]].
  pose proof (wf_raf _ (reachable_wf _ (frames_reachable n w Hreach))) as Hw.
  intros Hnone. rewrite Hnone in Hw. done.
Qed.

(** X5: a particle is drawn for as many frames as its life has ticks: [n]
    frames on, it is still in the map exactly when [n] is less than the
    life it had, and its life is then [n] less. *)
Theorem particle_is_removed_when_its_life_runs_out
    (w : World) (i : nat) (p : PhysicsParticle) (n : nat) :
  reachable w -> rafQueue w ≠ [] -> particles w !! i = Some p ->
  (is_Some (particles (Nat.iter n frame w) !! i) <-> INR n < p_life p) /\
  (forall p', particles (Nat.iter n frame w) !! i = Some p' ->
     p_life p' = p_life p - INR n /\ p_maxLife p' = p_maxLife p).
Proof.
  intros Hreach Hq Hp.
  destruct (frames_lives n w Hreach Hq) as (Hl & _).
  assert (forall p', particles (Nat.iter n frame w) !! i = Some p' ->
            p_life p' = p_life p - INR n /\ p_maxLife p' = p_maxLife p) as Hlife.
  { intros p' Hp'. destruct (Hl i p' Hp') as (q & Hq' & ? & ?).
    assert (q = p) as -> by congruence. done. }
  split; [|exact Hlife]. split.
  - intros [p' Hp']. destruct (Hlife p' Hp') as [Hlp _].
    destruct (reachable_sound _ (frames_reachable n w Hreach) i p' Hp') as (_ & Hpos & _).
    lra.
  - intros Hn. destruct (reachable_sound w Hreach i p Hp) as (Hm & _).
    destruct (frames_survivor n w i p Hreach Hq Hp Hn) as (_ & _ & p' & Hp' & _); [lra|].
    by eexists.
Qed.

End Lifecycle.

Section LifecycleSamples.
#[local] Existing Instance LoggedFluids.
#[local] Existing Instance LoggedFlow.
Local Open Scope R_scope.

Lemma after_vortex_one :
  reachable (after_celebrate "vortex" 1 (1 / 300)) /\
  rafQueue (after_celebrate "vortex" 1 (1 / 300)) ≠ [] /\
  attractors (after_celebrate "vortex" 1 (1 / 300)) ≠ [].
Proof.
  assert (wf (sample_engine false (1 / 300))) as Hwf by (apply sample_engine_wf; lra).
  split; [apply after_celebrate_reachable; lra|].
  split; [apply vortex_particle|].
  unfold after_celebrate.
  by rewrite (celebrate_attractors (sample_config "vortex" 1) Vortex).
Qed.

Lemma particles_stay_within_bounds_witness :
  exists p,
    reachable (after_celebrate "vortex" 1 (1 / 300)) /\
    particles (after_celebrate "vortex" 1 (1 / 300)) !! 0%nat = Some p /\
    80 <= p_maxLife p <= 700 /\ 0.4 <= p_mass p <= 1.5.
Proof.
  destruct after_vortex_one as (Hreach & _).
  destruct vortex_particle as (_ & p & Hp & _).
  exists p. split; [exact Hreach|]. split; [exact Hp|].
  destruct (particles_stay_within_bounds (after_celebrate "vortex" 1 (1 / 300)) 0 p Hreach Hp)
    as (Hm & _ & Hma & _).
  split; [exact Hm|exact Hma].
Defined.

Lemma trail_keeps_the_last_eight_positions_witness :
  exists p,
    reachable (after_celebrate "vortex" 1 (1 / 300)) /\
    particles (after_celebrate "vortex" 1 (1 / 300)) !! 0%nat = Some p /\
    (length (p_trail p) <= 8)%nat.
Proof.
  destruct after_vortex_one as (Hreach & _).
  destruct vortex_particle as (_ & p & Hp & _).
  exists p. split; [exact Hreach|]. split; [exact Hp|].
  destruct (trail_keeps_the_last_eight_positions
              (after_celebrate "vortex" 1 (1 / 300)) 0 p Hreach Hp) as (Hlen & _).
  exact Hlen.
Defined.

Lemma animation_ends_within_700_frames_witness :
  reachable (after_celebrate "vortex" 1 (1 / 300)) /\
  rafQueue (after_celebrate "vortex" 1 (1 / 300)) ≠ [] /\
  particles (Nat.iter 700 frame (after_celebrate "vortex" 1 (1 / 300))) = ∅.
Proof.
  destruct after_vortex_one as (Hreach & Hq & _).
  split; [exact Hreach|]. split; [exact Hq|].
  destruct (animation_ends_within_700_frames
              (after_celebrate "vortex" 1 (1 / 300)) 700 Hreach Hq (le_n 700)) as (He & _).
  exact He.
Defined.

Lemma animation_runs_while_attractors_remain_witness :
  reachable (after_celebrate "vortex" 1 (1 / 300)) /\
  rafQueue (after_celebrate "vortex" 1 (1 / 300)) ≠ [] /\
  attractors (after_celebrate "vortex" 1 (1 / 300)) ≠ [] /\
  animationId (Nat.iter 1000 frame (after_celebrate "vortex" 1 (1 / 300))) <> None.
Proof.
  destruct after_vortex_one as (Hreach & Hq & Ha).
  split; [exact Hreach|]. split; [exact Hq|]. split; [exact Ha|].
  destruct (animation_runs_while_attractors_remain
              (after_celebrate "vortex" 1 (1 / 300)) 1000 Hreach Hq Ha) as (_ & Hid & _).
  exact Hid.
Defined.

Lemma particle_is_removed_when_its_life_runs_out_witness :
  exists p,
    reachable (after_celebrate "vortex" 1 (1 / 300)) /\
    rafQueue (after_celebrate "vortex" 1 (1 / 300)) ≠ [] /\
    particles (after_celebrate "vortex" 1 (1 / 300)) !! 0%nat = Some p /\
    (is_Some (particles (Nat.iter 200 frame (after_celebrate "vortex" 1 (1 / 300))) !! 0%nat)
     <-> INR 200 < p_life p).
Proof.
  destruct after_vortex_one as (Hreach & Hq & _).
  destruct vortex_particle as (_ & p & Hp & _).
  exists p. split; [exact Hreach|]. split; [exact Hq|]. split; [exact Hp|].
  destruct (particle_is_removed_when_its_life_runs_out
              (after_celebrate "vortex" 1 (1 / 300)) 0 p 200 Hreach Hq Hp) as (Hiff & _).
  exact Hiff.
Defined.

End LifecycleSamples.

(** * Bounds on forces and velocities *)

Section Physics.
Context {SF : StableFluids} {FF : FlowField2D}.
Local Open Scope R_scope.

Lemma blend_sq_le_1 t : 0 <= blend_sq t <= 1.
Proof. destruct t; cbn [blend_sq]; lra. Qed.

Lemma falloff_force_bound strength radius d :
  0.1 < d < radius ->
  Rabs (falloff_force strength radius d) <= Rabs strength / 100.
Proof.
  intros [Hlo Hhi]. unfold falloff_force.
  set (f := 1 - d / radius).
  assert (0 < f < 1) as Hf.
  { subst f. assert (0 < d / radius < 1); [|lra].
    split; [apply Rdiv_lt_0_compat; lra|].
    apply (Rmult_lt_reg_r radius); [lra|]. unfold Rdiv.
    rewrite Rmult_assoc, Rinv_l by lra. lra. }
  assert (0 <= f * f <= 1) as Hff by nra.
  assert (0 < / (d * d + 100) <= / 100) as Hinv.
  { split; [apply Rinv_0_lt_compat; nra|].
    apply Rinv_le_contravar; nra. }
  unfold Rdiv. rewrite Rabs_mult, Rabs_mult.
  rewrite (Rabs_pos_eq (f * f)) by lra.
  rewrite (Rabs_pos_eq (/ (d * d + 100))) by lra.
  pose proof (Rabs_pos strength) as Hs.
  assert (Rabs strength * (f * f) <= Rabs strength) by nra.
  assert (0 <= Rabs strength * (f * f)) by nra.
  nra.
Qed.

(** X6: the softening constant bounds the pull of an attractor: whatever its
    kind and wherever the particle is, what it adds to the acceleration
    has a magnitude of at most a hundredth of its strength. *)
Theorem attractor_force_is_bounded (px py : R) (a : Attractor) :
  magnitude (attractor_contribution px py a) <= Rabs (a_strength a) / 100.
Proof.
  destruct (Rlt_dec 0.1 (attractor_distance px py a)) as [Hlo|Hlo];
    [destruct (Rlt_dec (attractor_distance px py a) (a_radius a)) as [Hhi|Hhi]|].
  - rewrite attractor_contribution_magnitude by done.
    pose proof (falloff_force_bound (a_strength a) (a_radius a)
                  (attractor_distance px py a) (conj Hlo Hhi)) as HF.
    pose proof (blend_sq_le_1 (a_type a)) as [Hb0 Hb1].
    assert (0 <= sqrt (blend_sq (a_type a)) <= 1) as Hs.
    { split; [apply sqrt_pos|]. rewrite <- sqrt_1. by apply sqrt_le_1_alt. }
    pose proof (Rabs_pos (falloff_force (a_strength a) (a_radius a)
                            (attractor_distance px py a))).
    nra.
  - unfold attractor_contribution.
    rewrite apply_attractor_out_of_range by lra.
    unfold magnitude. cbn [fst snd]. rewrite Rmult_0_l, Rplus_0_l, sqrt_0.
    pose proof (Rabs_pos (a_strength a)). lra.
  - unfold attractor_contribution.
    rewrite apply_attractor_out_of_range by lra.
    unfold magnitude. cbn [fst snd]. rewrite Rmult_0_l, Rplus_0_l, sqrt_0.
    pose proof (Rabs_pos (a_strength a)). lra.
Qed.

Lemma updateParticle_motion w p dt :
  let acc := foldl (apply_attractor (p_x p) (p_y p)) (0, gravity * p_mass p) (attractors w) in
  let fl := match fluid w with
            | Some f => if Rgtb fluidInfluence 0
                        then fluid_getVelocity f (p_x p / 20) (p_y p / 20) else (0, 0)
            | None => (0, 0)
            end in
  let fw := match flowField w with
            | Some ff => flow_sample ff (p_x p) (p_y p)
            | None => (0, 0)
            end in
  p_ax (updateParticle w p dt) = acc.1 /\
  p_ay (updateParticle w p dt) = acc.2 /\
  p_vx (updateParticle w p dt) =
    (p_vx p + fl.1 * fluidInfluence * dt + fw.1 * 0.1 * dt + acc.1 * dt) * drag /\
  p_vy (updateParticle w p dt) =
    (p_vy p + fl.2 * fluidInfluence * dt + fw.2 * 0.1 * dt + acc.2 * dt) * drag /\
  p_x (updateParticle w p dt) = p_x p + p_vx (updateParticle w p dt) * dt /\
  p_y (updateParticle w p dt) = p_y p + p_vy (updateParticle w p dt) * dt.
Proof.
  cbv zeta. unfold updateParticle.
  destruct (foldl _ _ (attractors w)) as [ax ay].
  destruct (fluid w) as [f|]; destruct (flowField w) as [ff|];
    try destruct (Rgtb fluidInfluence 0);
    cbn [fst snd p_ax p_ay p_vx p_vy p_x p_y]; repeat split; ring.
Qed.

(** X7: with no attractor installed and both fields at rest where the particle
    is, a tick multiplies the horizontal velocity by the drag of 0.98, adds
    gravity times the mass to the vertical velocity before the drag, and
    moves the particle by its new velocity; the vertical speed of a
    particle that is not faster than 7.35 times its mass stays within that
    terminal velocity. *)
Theorem free_fall_has_a_terminal_velocity (w : World) (p : PhysicsParticle) :
  attractors w = [] ->
  (forall f, fluid w = Some f -> fluid_getVelocity f (p_x p / 20) (p_y p / 20) = (0, 0)) ->
  (forall ff, flowField w = Some ff -> flow_sample ff (p_x p) (p_y p) = (0, 0)) ->
  p_vx (updateParticle w p 1) = 0.98 * p_vx p /\
  p_vy (updateParticle w p 1) = 0.98 * (p_vy p + 0.15 * p_mass p) /\
  p_x (updateParticle w p 1) = p_x p + p_vx (updateParticle w p 1) /\
  p_y (updateParticle w p 1) = p_y p + p_vy (updateParticle w p 1) /\
  (0 <= p_mass p -> Rabs (p_vy p) <= 7.35 * p_mass p ->
   Rabs (p_vy (updateParticle w p 1)) <= 7.35 * p_mass p).
Proof.
  intros Ha Hf Hff.
  destruct (updateParticle_motion w p 1) as (_ & _ & Hvx & Hvy & Hx & Hy).
  rewrite Ha in Hvx, Hvy. cbn [foldl fst snd] in Hvx, Hvy.
  assert ((match fluid w with
           | Some f => if Rgtb fluidInfluence 0
                       then fluid_getVelocity f (p_x p / 20) (p_y p / 20) else (0, 0)
           | None => (0, 0)
           end) = (0, 0)) as Hfl.
  { destruct (fluid w) as [f|]; [|done]. rewrite (Hf f eq_refl). by destruct (Rgtb _ _). }
  assert ((match flowField w with
           | Some ff => flow_sample ff (p_x p) (p_y p)
           | None => (0, 0)
           end) = (0, 0)) as Hfw.
  { destruct (flowField w) as [ff|]; [|done]. by rewrite (Hff ff eq_refl). }
  rewrite Hfl, Hfw in Hvx, Hvy. cbn [fst snd] in Hvx, Hvy.
  unfold drag, gravity, fluidInfluence in *.
  assert (p_vx (updateParticle w p 1) = 0.98 * p_vx p) as Hvx' by (rewrite Hvx; lra).
  assert (p_vy (updateParticle w p 1) = 0.98 * (p_vy p + 0.15 * p_mass p)) as Hvy'
    by (rewrite Hvy; lra).
  split; [exact Hvx'|]. split; [exact Hvy'|].
  split; [rewrite Hx; lra|]. split; [rewrite Hy; lra|].
  intros Hm Hv. rewrite Hvy'.
  unfold Rabs in *. repeat destruct (Rcase_abs _); lra.
Qed.

End Physics.

Section PhysicsSamples.
#[local] Existing Instance LoggedFluids.
#[local] Existing Instance LoggedFlow.
Local Open Scope R_scope.

Lemma free_fall_has_a_terminal_velocity_witness :
  attractors (sample_engine false 0) = [] /\
  p_vy (updateParticle (sample_engine false 0) sample_particle 1) =
  0.98 * (p_vy sample_particle + 0.15 * p_mass sample_particle).
Proof.
  split; [reflexivity|].
  destruct (free_fall_has_a_terminal_velocity (sample_engine false 0) sample_particle)
    as (_ & Hvy & _); [reflexivity|intros f _; reflexivity|intros ff _; reflexivity|].
  exact Hvy.
Defined.

End PhysicsSamples.

(** * Colours *)

Section Colours.
Context {SF : StableFluids} {FF : FlowField2D}.
Local Open Scope R_scope.

Lemma default_colour_in (colors : list string) (k : nat) :
  default "#10b981"%string (colors !! k) ∈ "#10b981"%string :: colors.
Proof.
  destruct (colors !! k) as [c|] eqn:Hc; cbn.
  - right. by eapply list_elem_of_lookup_2.
  - left.
Qed.

Ltac palette_new :=
  apply keeps_addParticle; intros; right;
  unfold new_particle, particle_config; cbn [p_color c_color];
  try match goal with |- context [if ?b then _ else _] => destruct b end;
  apply default_colour_in.

Lemma run_recipe_palette n0 type x y count colors intensity heartRate :
  keeps (from_palette n0 colors) (run_recipe type x y count colors intensity heartRate).
Proof.
  destruct type as [[]|]; cbn [run_recipe].
  - unfold createVortex. repeat keeps_step. palette_new.
  - unfold createSupernova. repeat keeps_step. palette_new.
  - unfold createAurora. repeat keeps_step. palette_new.
  - unfold createResonance. repeat keeps_step. palette_new.
  - unfold createOrbit. keeps_step.
    + keeps_step. destruct a as [[cx cy] strength]. keeps_step.
    + keeps_step. destruct a0 as [ci [[cx cy] strength]]. repeat keeps_step. palette_new.
  - unfold createCascade. repeat keeps_step.
  - unfold createEmergence. repeat keeps_step.
  - unfold createHarmony. repeat keeps_step. palette_new.
  - unfold createHelix. repeat keeps_step. palette_new.
  - unfold createBloom. repeat keeps_step. palette_new.
  - unfold createConstellation. repeat keeps_step.
    destruct (constellation_position a a0 a1) as [px py].
    destruct (constellation_on_screen a a0 a1); repeat keeps_step. palette_new.
  - unfold createNebula, nebula_density. keeps_step.
    + keeps_step. destruct a; repeat keeps_step.
    + repeat keeps_step. palette_new.
  - apply keeps_ret.
Qed.

Lemma run_callback_palette n0 cb :
  keeps (from_palette n0 (callback_colors cb)) (run_callback cb).
Proof.
  destruct cb; cbn [run_callback callback_colors].
  - unfold supernovaSecondary. repeat keeps_step. palette_new.
  - unfold resonancePulse. keeps_step.
  - unfold cascadeSpawn. repeat keeps_step. palette_new.
  - unfold emergenceSpawn. repeat keeps_step. palette_new.
Qed.

Lemma updateParticle_from_palette n0 colors w p :
  from_palette n0 colors p -> from_palette n0 colors (updateParticle w p 1).
Proof.
  unfold from_palette. rewrite updateParticle_id.
  by destruct (updateParticle_static w p 1) as (_ & _ & -> & _).
Qed.

Lemma older_from_palette colors w :
  wf w -> all_particles (from_palette (particleIdCounter w) colors) w.
Proof.
  intros Hwf i p Hp. left.
  rewrite (wf_id w Hwf i p Hp). by eapply wf_fresh.
Qed.

(** X8: every particle that a call of [celebrate] adds has the default colour
    ['#10b981'] or a colour of the palette in use, which is the [colors]
    of the call or else the palette of its emotion; and every particle
    that a delayed callback adds has the default colour or a colour of the
    palette that the callback has captured. *)
Theorem new_particles_take_their_colour_from_the_palette
    (config : PhysicsCelebrationConfig) (w : World) (i : nat) (p : PhysicsParticle) :
  wf w -> (particleIdCounter w <= i)%nat ->
  (particles (exec (celebrate config) w) !! i = Some p ->
   p_color p ∈
     "#10b981"%string ::
     default (getColorsForEmotion (cfg_emotionContext config ≫= dominantEmotion))
       (cfg_colors config)) /\
  (forall k t, timers w !! k = Some t -> particles (fire_timer k w) !! i = Some p ->
     p_color p ∈ "#10b981"%string :: callback_colors (t_callback t)).
Proof.
  intros Hwf Hi. split.
  - set (colors := default _ (cfg_colors config)). intros Hp.
    assert (all_particles (from_palette (particleIdCounter w) colors)
              (exec (celebrate config) w)) as Hall.
    { rewrite exec_celebrate. destruct (isEnabled w); [|by apply older_from_palette].
      destruct (celebrate_setup_grows config w (wf_rnd w Hwf)) as [n Hg].
      apply start_animation_all.
      - apply (wf_id _ (grows_wf n w _ Hwf Hg)).
      - intros w0 q Hq _. by apply updateParticle_from_palette.
      - rewrite exec_celebrate_setup.
        apply (run_recipe_palette (particleIdCounter w)); [exact (wf_rnd w Hwf)|].
        by apply (older_from_palette colors w). }
    destruct (Hall i p Hp) as [Hold|Hnew]; [|done].
    rewrite (wf_id _ (celebrate_wf config w Hwf) i p Hp) in Hold. lia.
  - intros k t Hk Hp.
    assert (all_particles (from_palette (particleIdCounter w) (callback_colors (t_callback t)))
              (fire_timer k w)) as Hall.
    { unfold fire_timer. rewrite Hk.
      apply (run_callback_palette (particleIdCounter w)); [exact (wf_rnd w Hwf)|].
      by apply (older_from_palette _ w). }
    destruct (Hall i p Hp) as [Hold|Hnew]; [|done].
    rewrite (wf_id _ (fire_timer_wf k w Hwf) i p Hp) in Hold. lia.
Qed.

(** ** Emotion palettes *)

Lemma toLowerCase_empty e : toLowerCase e = ""%string -> e = ""%string.
Proof. by destruct e. Qed.

Lemma lookup_key_elem_of {A} (k : string) (l : list (string * A)) (v : A) :
  lookup_key k l = Some v -> v ∈ l.*2.
Proof.
  induction l as [|[k' v'] l IH]; [done|]. cbn [lookup_key].
  destruct (String.eqb k k').
  - intros [= ->]. left.
  - intros H. right. by apply IH.
Qed.

(** X9: the palette of an emotion does not depend on the case of its letters;
    a name that is one of the nine keys of the table once in lower case gets the
    five colours of that emotion; and without a name, or with an empty one,
    the palette is the eight emerald and teal brand colours. *)
Theorem emotion_palette_ignores_case (e e' : string) :
  toLowerCase e = toLowerCase e' ->
  getColorsForEmotion (Some e) = getColorsForEmotion (Some e') /\
  (forall palette, lookup_key (toLowerCase e) EMOTION_PALETTES = Some palette ->
     getColorsForEmotion (Some e') = palette /\ length palette = 5%nat) /\
  getColorsForEmotion None = BRAND_COLORS_emerald ++ BRAND_COLORS_teal /\
  getColorsForEmotion (Some ""%string) = BRAND_COLORS_emerald ++ BRAND_COLORS_teal /\
  length (BRAND_COLORS_emerald ++ BRAND_COLORS_teal) = 8%nat.
Proof.
  intros Heq.
  assert (getColorsForEmotion (Some e) = getColorsForEmotion (Some e')) as Hsame.
  { unfold getColorsForEmotion. rewrite Heq.
    destruct (String.eqb_spec e ""), (String.eqb_spec e' ""); try done.
    - subst e. symmetry in Heq. apply toLowerCase_empty in Heq. done.
    - subst e'. apply toLowerCase_empty in Heq. done. }
  split; [exact Hsame|]. split; [|done].
  intros palette Hp. split.
  - rewrite <- Hsame. unfold getColorsForEmotion.
    destruct (String.eqb_spec e "") as [->|Hne]; [done|]. cbn [negb].
    by rewrite Hp.
  - apply lookup_key_elem_of in Hp.
    assert (Forall (fun pal : list string => length pal = 5%nat) EMOTION_PALETTES.*2) as Hall
      by (repeat constructor).
    by eapply (proj1 (Forall_forall _ _) Hall).
Qed.

End Colours.

Section ColourSamples.
#[local] Existing Instance LoggedFluids.
#[local] Existing Instance LoggedFlow.
Local Open Scope R_scope.

Lemma emotion_palette_ignores_case_witness :
  toLowerCase "JOY" = toLowerCase "Joy" /\
  getColorsForEmotion (Some "JOY"%string) = getColorsForEmotion (Some "Joy"%string).
Proof.
  split; [reflexivity|].
  destruct (emotion_palette_ignores_case "JOY" "Joy" eq_refl) as (Hsame & _).
  exact Hsame.
Defined.

Lemma after_celebrate_eq type count r :
  after_celebrate type count r =
  exec (celebrate (sample_config type count)) (sample_engine false r).
Proof. reflexivity. Qed.

Lemma new_particles_take_their_colour_from_the_palette_witness :
  exists p,
    wf (sample_engine false (1 / 300)) /\
    (particleIdCounter (sample_engine false (1 / 300)) <= 0)%nat /\
    particles (after_celebrate "vortex" 1 (1 / 300)) !! 0%nat = Some p /\
    p_color p ∈
      "#10b981"%string ::
      default (getColorsForEmotion
                 (cfg_emotionContext (sample_config "vortex" 1) ≫= dominantEmotion))
        (cfg_colors (sample_config "vortex" 1)).
Proof.
  assert (wf (sample_engine false (1 / 300))) as Hwf by (apply sample_engine_wf; lra).
  destruct vortex_particle as (_ & p & Hp & _).
  exists p. split; [exact Hwf|]. split; [apply le_n|]. split; [exact Hp|].
  destruct (new_particles_take_their_colour_from_the_palette
              (sample_config "vortex" 1) (sample_engine false (1 / 300)) 0 p Hwf (le_n 0))
    as (Hcol & _).
  rewrite after_celebrate_eq in Hp. exact (Hcol Hp).
Defined.

End ColourSamples.

(** * Attractors and positions of the recipes *)

Section Lissajous.
Context {SF : StableFluids} {FF : FlowField2D}.
Local Open Scope R_scope.

(** X10: while the animation loop runs, a call of [celebrate] whose recipe is
    not harmony leaves the Lissajous parameters of an earlier harmony in
    place. *)
Theorem lissajous_outlives_its_harmony (config : PhysicsCelebrationConfig) (w : World) :
  wf w -> isEnabled w = true -> animationId w <> None ->
  recipe_of_name (cfg_type config) <> Some Harmony ->
  lissajous (exec (celebrate config) w) = lissajous w.
Proof.
  intros Hwf Hon Hrun Hr. rewrite celebrate_enabled by done.
  destruct (animationId w); [|done].
  destruct (recipe_of_name (cfg_type config)) as [r|] eqn:Hrec.
  - destruct (celebrate_setup_effect config r w (wf_rnd w Hwf) Hrec) as (_ & _ & _ & ->).
    by destruct r.
  - by rewrite celebrate_setup_unknown.
Qed.

Lemma lissajous_fold_lookup w (l : list LissajousParams) (idx : list nat)
    (atts : list Attractor) (i : nat) :
  NoDup idx ->
  foldl (fun (atts : list Attractor) (i : nat) =>
           match l !! i with
           | Some params => alter (lissajous_move w params) i atts
           | None => atts
           end) atts idx !! i =
  if decide (i ∈ idx) then
    match l !! i with
    | Some params => lissajous_move w params <$> atts !! i
    | None => atts !! i
    end
  else atts !! i.
Proof.
  intros Hnd. revert atts. induction Hnd as [|j idx Hj Hnd IH]; intros atts.
  - cbn [foldl]. by rewrite decide_False by apply not_elem_of_nil.
  - cbn [foldl]. rewrite IH.
    destruct (decide (i = j)) as [->|Hne].
    + rewrite (decide_False (P := j ∈ idx)) by done.
      rewrite (decide_True (P := j ∈ j :: idx)) by left.
      destruct (l !! j); [|done]. apply list_lookup_alter_eq.
    + assert ((match l !! j with
               | Some params => alter (lissajous_move w params) j atts
               | None => atts
               end) !! i = atts !! i) as Hsame.
      { destruct (l !! j); [|done]. apply list_lookup_alter_ne. congruence. }
      destruct (decide (i ∈ idx)) as [Hin|Hout].
      * rewrite (decide_True (P := i ∈ j :: idx)) by by right. by rewrite Hsame.
      * rewrite (decide_False (P := i ∈ j :: idx)); [done|].
        intros [?|?]%elem_of_cons; done.
Qed.

Lemma update_lissajous_lookup w l i :
  lissajous w = Some l -> (3 <= length (attractors w))%nat ->
  attractors (update_lissajous w) !! i =
  if decide (i < 3)%nat then
    match l !! i with
    | Some params => lissajous_move w params <$> attractors w !! i
    | None => attractors w !! i
    end
  else attractors w !! i.
Proof.
  intros Hl Hlen. unfold update_lissajous. rewrite Hl.
  assert ((3 <=? length (attractors w))%nat = true) as -> by by apply Nat.leb_le.
  cbn [attractors set_attractors]. rewrite Nat.min_l by done.
  rewrite lissajous_fold_lookup by apply NoDup_seq.
  destruct (decide (i < 3)%nat) as [Hi|Hi].
  - rewrite decide_True; [done|]. apply elem_of_seq. lia.
  - rewrite decide_False; [done|]. rewrite elem_of_seq. lia.
Qed.

Lemma frame_attractors w :
  wf w -> rafQueue w ≠ [] ->
  attractors (frame w) =
  attractors (update_lissajous (set_time (time w + 1) (set_raf [] (rafNext w) w))).
Proof. intros Hwf Hq. rewrite frame_pending by done. by rewrite animate_attractors. Qed.

(** X11: while Lissajous parameters are set and at least three attractors are
    installed, each frame puts every one of the first three attractors
    that has parameters on its curve around the centre of the window, at
    most 150 away from it on each axis, whatever recipe installed the
    attractor and wherever; its strength, radius and kind stay, and the
    attractors after the third are not moved. *)
Theorem frame_moves_the_lissajous_attractors
    (w : World) (l : list LissajousParams) (i : nat) (a : Attractor) :
  wf w -> rafQueue w ≠ [] -> lissajous w = Some l ->
  (3 <= length (attractors w))%nat -> attractors w !! i = Some a ->
  ((3 <= i)%nat -> attractors (frame w) !! i = Some a) /\
  (forall params, (i < 3)%nat -> l !! i = Some params ->
     exists a', attractors (frame w) !! i = Some a' /\
       a_x a' = innerWidth w / 2 +
                sin ((time w + 1) * 0.02 * freqX params + phaseX params) * 150 /\
       a_y a' = innerHeight w / 2 +
                sin ((time w + 1) * 0.02 * freqY params + phaseY params) * 150 /\
       a_strength a' = a_strength a /\ a_radius a' = a_radius a /\
       a_type a' = a_type a /\
       Rabs (a_x a' - innerWidth w / 2) <= 150 /\
       Rabs (a_y a' - innerHeight w / 2) <= 150).
Proof.
  intros Hwf Hq Hl Hlen Ha.
  rewrite frame_attractors by done.
  set (w1 := set_time (time w + 1) (set_raf [] (rafNext w) w)).
  rewrite (update_lissajous_lookup w1 l i Hl Hlen).
  split.
  - intros Hi. by rewrite decide_False by lia.
  - intros params Hi Hp. rewrite decide_True by done. rewrite Hp.
    replace (attractors w1 !! i) with (Some a) by done.
    eexists. split; [reflexivity|].
    unfold lissajous_move.
    cbn [a_x a_y a_strength a_radius a_type time innerWidth innerHeight w1 set_time set_raf].
    repeat split.
    + pose proof (SIN_bound ((time w + 1) * 0.02 * freqX params + phaseX params)).
      unfold Rabs. destruct (Rcase_abs _); lra.
    + pose proof (SIN_bound ((time w + 1) * 0.02 * freqY params + phaseY params)).
      unfold Rabs. destruct (Rcase_abs _); lra.
Qed.

End Lissajous.

Section Geometry.
Context {SF : StableFluids} {FF : FlowField2D}.
Local Open Scope R_scope.

Lemma older_particles (Q : PhysicsParticle -> Prop) w :
  wf w -> all_particles (fun p => (p_id p < particleIdCounter w)%nat \/ Q p) w.
Proof.
  intros Hwf i p Hp. left. rewrite (wf_id w Hwf i p Hp). by eapply wf_fresh.
Qed.

Lemma newer_particles (Q : PhysicsParticle -> Prop) n0 w i p :
  wf w -> all_particles (fun p => (p_id p < n0)%nat \/ Q p) w ->
  particles w !! i = Some p -> (n0 <= i)%nat -> Q p.
Proof.
  intros Hwf Hall Hp Hi. destruct (Hall i p Hp) as [Hold|HQ]; [|done].
  rewrite (wf_id w Hwf i p Hp) in Hold. lia.
Qed.

(** X12: the stars that [createConstellation] adds are at least 50 away from
    every edge of the window: a position of the golden-angle spiral that
    falls outside this margin gets no particle. *)
Theorem constellation_stars_are_on_screen
    (count : nat) (colors : list string) (intensity : R) (w : World)
    (i : nat) (p : PhysicsParticle) :
  wf w -> (particleIdCounter w <= i)%nat ->
  particles (exec (createConstellation count colors intensity) w) !! i = Some p ->
  50 < p_x p < innerWidth w - 50 /\ 50 < p_y p < innerHeight w - 50 /\
  p_shape p = star /\ p_vx p * p_vx p + p_vy p * p_vy p <= 0.125.
Proof.
  intros Hwf Hi Hp.
  pose proof (createConstellation_effect count colors intensity w (wf_rnd w Hwf)) as [Hg _].
  pose proof (grows_wf _ _ _ Hwf Hg) as Hwf'.
  set (Q := fun p : PhysicsParticle =>
              50 < p_x p < innerWidth w - 50 /\ 50 < p_y p < innerHeight w - 50 /\
              p_shape p = star /\ p_vx p * p_vx p + p_vy p * p_vy p <= 0.125).
  apply (newer_particles Q (particleIdCounter w) _ i p Hwf'); [|exact Hp|exact Hi].
  unfold createConstellation. rewrite !exec_get_bind.
  match goal with
  | |- all_particles ?Q' (exec ?m w) =>
      assert (keeps Q' m) as Hk;
        [|exact (proj1 (Hk w (wf_rnd w Hwf) (older_particles Q w Hwf)))]
  end.
  keeps_step.
  destruct (constellation_position (innerWidth w) (innerHeight w) a) as [px py] eqn:Hpos.
  destruct (constellation_on_screen (innerWidth w) (innerHeight w) a) eqn:Hon;
    [|apply keeps_ret].
  unfold constellation_on_screen in Hon. rewrite Hpos in Hon.
  apply andb_prop in Hon as [Hon H4]. apply andb_prop in Hon as [Hon H3].
  apply andb_prop in Hon as [H1 H2].
  unfold Rgtb in *. apply Rltb_true in H1, H2, H3, H4.
  repeat keeps_step. apply keeps_addParticle. intros. right.
  unfold Q, new_particle, particle_config.
  cbn [p_x p_y p_vx p_vy p_shape c_x c_y c_vx c_vy c_shape default from_option Datatypes.id].
  repeat split; try lra. nra.
Qed.

Lemma cos_quarter_turn a : cos (a + PI / 2) = - sin a.
Proof. rewrite cos_plus, cos_PI2, sin_PI2. ring. Qed.

Lemma sin_quarter_turn a : sin (a + PI / 2) = cos a.
Proof. rewrite sin_plus, cos_PI2, sin_PI2. ring. Qed.

Lemma sin2_cos2_1 a : sin a * sin a + cos a * cos a = 1.
Proof. pose proof (sin2_cos2 a) as H. unfold Rsqr in H. exact H. Qed.

(** X13: the particles that [createVortex] adds start on a ring around the
    origin of the vortex, between 150 and 350 away from it, and move along
    the ring, all in the same sense, at a speed between 3 and 6. *)
Theorem vortex_particles_start_on_a_ring
    (x y : R) (count : nat) (colors : list string) (intensity : R) (w : World)
    (i : nat) (p : PhysicsParticle) :
  wf w -> (particleIdCounter w <= i)%nat ->
  particles (exec (createVortex x y count colors intensity) w) !! i = Some p ->
  exists radius speed, 150 <= radius < 350 /\ 3 <= speed < 6 /\
    (p_x p - x) * (p_x p - x) + (p_y p - y) * (p_y p - y) = radius * radius /\
    p_vx p * p_vx p + p_vy p * p_vy p = speed * speed /\
    p_vx p * (p_x p - x) + p_vy p * (p_y p - y) = 0 /\
    (p_x p - x) * p_vy p - (p_y p - y) * p_vx p = radius * speed.
Proof.
  intros Hwf Hi Hp.
  pose proof (createVortex_effect x y count colors intensity w (wf_rnd w Hwf)) as [Hg _].
  pose proof (grows_wf _ _ _ Hwf Hg) as Hwf'.
  set (Q := fun p : PhysicsParticle =>
              exists radius speed, 150 <= radius < 350 /\ 3 <= speed < 6 /\
                (p_x p - x) * (p_x p - x) + (p_y p - y) * (p_y p - y) = radius * radius /\
                p_vx p * p_vx p + p_vy p * p_vy p = speed * speed /\
                p_vx p * (p_x p - x) + p_vy p * (p_y p - y) = 0 /\
                (p_x p - x) * p_vy p - (p_y p - y) * p_vx p = radius * speed).
  apply (newer_particles Q (particleIdCounter w) _ i p Hwf'); [|exact Hp|exact Hi].
  match goal with
  | |- all_particles ?Q' (exec ?m w) =>
      assert (keeps Q' m) as Hk;
        [|exact (proj1 (Hk w (wf_rnd w Hwf) (older_particles Q w Hwf)))]
  end.
  unfold createVortex. repeat keeps_step. apply keeps_addParticle. intros. right.
  unfold Q, new_particle, particle_config.
  cbn [p_x p_y p_vx p_vy c_x c_y c_vx c_vy default from_option Datatypes.id].
  exists (150 + r0 * 200), (3 + r1 * 3).
  rewrite cos_quarter_turn, sin_quarter_turn.
  set (angle := INR a1 / INR count * PI * 2 + r * 0.3).
  pose proof (sin2_cos2_1 angle) as Hsc.
  set (s := sin angle) in *. set (c := cos angle) in *.
  split; [lra|]. split; [lra|].
  repeat split.
  - transitivity ((150 + r0 * 200) * (150 + r0 * 200) * (s * s + c * c)); [ring|].
    rewrite Hsc. ring.
  - transitivity ((3 + r1 * 3) * (3 + r1 * 3) * (s * s + c * c)); [ring|].
    rewrite Hsc. ring.
  - ring.
  - transitivity ((150 + r0 * 200) * (3 + r1 * 3) * (s * s + c * c)); [ring|].
    rewrite Hsc. ring.
Qed.

End Geometry.

(** * Rendering *)

Section RenderingProperties.
Context {SF : StableFluids} {FF : FlowField2D}.
Local Open Scope R_scope.

Lemma ratio_bounds (i n : nat) : (i < n)%nat -> 0 <= INR i / INR n < 1.
Proof.
  intros Hlt. assert (0 < INR n) as Hn by (apply lt_0_INR; lia).
  pose proof (pos_INR i) as Hi. apply lt_INR in Hlt.
  split.
  - apply Rmult_le_pos; [done|]. left. by apply Rinv_0_lt_compat.
  - apply (Rmult_lt_reg_r (INR n)); [done|].
    unfold Rdiv. rewrite Rmult_assoc, Rinv_l by lra. lra.
Qed.

Lemma elem_of_particle_values w p :
  p ∈ particle_values w -> exists i, particles w !! i = Some p.
Proof.
  unfold particle_values. rewrite list_elem_of_omap. intros (i & _ & Hp). by exists i.
Qed.

Lemma elem_of_particle_pairs ps p1 p2 :
  (p1, p2) ∈ particle_pairs ps -> p1 ∈ ps /\ p2 ∈ ps.
Proof.
  induction ps as [|p ps IH]; cbn [particle_pairs]; [by intros ?%elem_of_nil|].
  rewrite elem_of_app, list_elem_of_fmap. intros [(q & [= -> ->] & Hq)|Hin].
  - split; [left|by right].
  - destruct (IH Hin). split; by right.
Qed.

Ltac valid_calls :=
  repeat first [apply Forall_nil_2 | apply Forall_cons_2];
  cbn [valid_call]; try done.

Lemma star_spikes_valid n cx cy rot step outerRadius innerRadius :
  Forall valid_call (star_spikes n cx cy rot step outerRadius innerRadius).
Proof.
  revert rot. induction n as [|n IH]; intros rot; cbn [star_spikes]; [done|].
  apply Forall_cons_2; [done|]. apply Forall_cons_2; [done|]. apply IH.
Qed.

Lemma drawTrail_valid p :
  sound_particle p -> Forall valid_call (drawTrail p).
Proof.
  intros (_ & _ & _ & _ & Hs & _ & _ & Ht).
  unfold drawTrail. apply Forall_join. apply Forall_forall. intros calls Hin.
  apply elem_of_lookup_imap in Hin as (i & t & -> & Hit).
  pose proof (ratio_bounds i (length (p_trail p)) (lookup_lt_Some _ _ _ Hit)) as Hr.
  assert (0 < tp_opacity t <= 1) as Ho.
  { eapply (proj1 (Forall_forall _ _) Ht). by eapply list_elem_of_lookup_2. }
  set (q := INR i / INR (length (p_trail p))) in *.
  valid_calls; nra.
Qed.

Lemma drawParticle_valid w p :
  sound_particle p -> Forall valid_call (drawParticle w p).
Proof.
  intros Hp. pose proof Hp as (_ & _ & Ho & _ & Hs & _).
  unfold drawParticle. cbv zeta.
  pose proof (SIN_bound (time w * 0.1 + p_pulsePhase p)) as Hsin.
  set (pulse := 1 + sin (time w * 0.1 + p_pulsePhase p) * 0.1).
  assert (0 < p_size p * pulse) as Hsize by (subst pulse; nra).
  apply Forall_app_2; [by apply drawTrail_valid|].
  apply Forall_app_2; [valid_calls; lra|].
  apply Forall_app_2; [|valid_calls].
  destruct (p_shape p).
  - valid_calls.
  - valid_calls. lra.
  - unfold drawStar. cbv zeta. apply Forall_app_2; [valid_calls|].
    apply Forall_app_2; [apply star_spikes_valid|valid_calls].
  - unfold drawHeart. cbv zeta. valid_calls.
  - unfold drawHexagon. apply Forall_app_2; [valid_calls|].
    apply Forall_app_2; [|valid_calls].
    apply Forall_fmap, Forall_forall. intros i _. cbn. by destruct (i =? 0)%nat.
  - unfold drawSpiral. cbv zeta. apply Forall_app_2; [valid_calls|].
    apply Forall_app_2; [|valid_calls].
    apply Forall_fmap, Forall_forall. intros i _. cbn. by destruct (i =? 0)%nat.
Qed.

Lemma drawConstellationLines_valid w :
  all_particles sound_particle w -> Forall valid_call (drawConstellationLines w).
Proof.
  intros Hall. unfold drawConstellationLines. cbv zeta.
  apply Forall_app_2; [valid_calls|].
  apply Forall_app_2; [|valid_calls; lra].
  apply Forall_join, Forall_fmap, Forall_forall. intros [p1 p2] Hin.
  apply elem_of_particle_pairs in Hin as [H1 H2].
  apply elem_of_particle_values in H1 as [i1 H1], H2 as [i2 H2].
  destruct (Hall i1 p1 H1) as (_ & _ & Ho1 & _).
  destruct (Hall i2 p2 H2) as (_ & _ & Ho2 & _).
  cbn.
  set (dist := sqrt _).
  destruct (Rltb dist 100) eqn:Hd; [|done].
  apply Rltb_true in Hd. pose proof (sqrt_pos ((p_x p2 - p_x p1) * (p_x p2 - p_x p1) +
                                             (p_y p2 - p_y p1) * (p_y p2 - p_y p1))) as Hpos.
  fold dist in Hpos.
  assert (0 < Rmin (p_opacity p1) (p_opacity p2) <= 1) as Hmin.
  { split; [apply Rmin_glb_lt; lra|]. etransitivity; [apply Rmin_l|lra]. }
  valid_calls; nra.
Qed.

Lemma render_valid w :
  all_particles sound_particle w -> Forall valid_call (render w).
Proof.
  intros Hall. unfold render.
  apply Forall_app_2; [valid_calls|].
  apply Forall_app_2; [by apply drawConstellationLines_valid|].
  apply Forall_join, Forall_fmap, Forall_forall. intros p Hp.
  apply elem_of_particle_values in Hp as [i Hp].
  apply drawParticle_valid. by eapply Hall.
Qed.

Lemma render_ext w w' :
  particles w' = particles w -> particleIdCounter w' = particleIdCounter w ->
  time w' = time w -> innerWidth w' = innerWidth w -> innerHeight w' = innerHeight w ->
  render w' = render w.
Proof.
  intros Hp Hc Ht Hw Hh.
  unfold render, drawConstellationLines, particle_values, drawParticle.
  by rewrite Hp, Hc, Ht, Hw, Hh.
Qed.

Lemma render_schedule_next u : render (exec schedule_next u) = render u.
Proof. rewrite exec_schedule_next. by destruct (_ || _); apply render_ext. Qed.

Lemma exec_animate_draw w :
  exec animate w = exec schedule_next (remove_dead (exec animate_update w)).
Proof. reflexivity. Qed.

Lemma drawn_in_frame_eq w :
  drawn_in_frame w = match rafQueue w with _ :: _ => render (frame w) | [] => [] end.
Proof.
  unfold drawn_in_frame, frame. destruct (rafQueue w) as [|j q]; [done|].
  by rewrite exec_animate_draw, render_schedule_next.
Qed.

(** X14: whatever the engine draws, in the tick that [celebrate] runs and in
    every frame, the canvas can take as it is: every opacity that it sets
    lies in [0, 1] and no radius that it passes to [arc] is negative.  What
    a frame draws is the picture of the state that the frame leaves. *)
Theorem engine_draws_with_valid_calls (w : World) :
  reachable w ->
  Forall valid_call (render w) /\ Forall valid_call (drawn_in_frame w) /\
  (rafQueue w ≠ [] -> drawn_in_frame w = render (frame w)).
Proof.
  intros Hreach. split; [|split].
  - apply render_valid. by apply reachable_sound.
  - rewrite drawn_in_frame_eq. destruct (rafQueue w) as [|j q] eqn:Hq; [done|].
    apply render_valid, reachable_sound.
    eapply reachable_step; [exact Hreach|]. apply step_frame. by rewrite Hq.
  - intros Hq. rewrite drawn_in_frame_eq. by destruct (rafQueue w).
Qed.

End RenderingProperties.

Section Frames.
Context {SF : StableFluids} {FF : FlowField2D}.
Local Open Scope R_scope.

Lemma save_depth_app d l1 l2 :
  save_depth d (l1 ++ l2) = save_depth d l1 ≫= fun d' => save_depth d' l2.
Proof.
  revert d. induction l1 as [|c l1 IH]; intros d; [done|].
  destruct c; cbn [save_depth app]; try apply IH.
  destruct d; [done|apply IH].
Qed.

Lemma save_depth_join d (ls : list (list CanvasCall)) :
  Forall (fun l => forall d, save_depth d l = Some d) ls ->
  save_depth d (mjoin ls) = Some d.
Proof.
  induction 1 as [|l ls Hl _ IH]; [done|].
  cbn [mjoin list_join]. rewrite save_depth_app, Hl. exact IH.
Qed.

Lemma save_depth_path d l :
  Forall (fun c => c <> Save /\ c <> Restore) l -> save_depth d l = Some d.
Proof.
  induction 1 as [|c l [Hs Hr] _ IH]; [done|]. by destruct c.
Qed.

Lemma star_spikes_path n cx cy rot step outerRadius innerRadius :
  Forall (fun c => c <> Save /\ c <> Restore)
    (star_spikes n cx cy rot step outerRadius innerRadius).
Proof.
  revert rot. induction n as [|n IH]; intros rot; cbn [star_spikes]; [done|].
  apply Forall_cons_2; [done|]. apply Forall_cons_2; [done|]. apply IH.
Qed.

Lemma shape_path (calls : list CanvasCall) d :
  Forall (fun c => c <> Save /\ c <> Restore) calls ->
  save_depth (S d) (calls ++ [Restore]) = Some d.
Proof. intros Hp. by rewrite save_depth_app, save_depth_path. Qed.

Lemma drawParticle_balanced w p d : save_depth d (drawParticle w p) = Some d.
Proof.
  unfold drawParticle. cbv zeta. rewrite save_depth_app.
  assert (save_depth d (drawTrail p) = Some d) as ->.
  { unfold drawTrail. apply save_depth_join, Forall_forall. intros calls Hin.
    apply elem_of_lookup_imap in Hin as (i & t & -> & _). done. }
  cbn [mbind option_bind app save_depth].
  apply shape_path. destruct (p_shape p).
  - by repeat constructor.
  - by repeat constructor.
  - unfold drawStar. cbv zeta. apply Forall_app_2; [by repeat constructor|].
    apply Forall_app_2; [apply star_spikes_path|by repeat constructor].
  - unfold drawHeart. by repeat constructor.
  - unfold drawHexagon. apply Forall_app_2; [by repeat constructor|].
    apply Forall_app_2; [|by repeat constructor].
    apply Forall_fmap, Forall_forall. intros i _. cbn. by destruct (i =? 0)%nat.
  - unfold drawSpiral. cbv zeta. apply Forall_app_2; [by repeat constructor|].
    apply Forall_app_2; [|by repeat constructor].
    apply Forall_fmap, Forall_forall. intros i _. cbn. by destruct (i =? 0)%nat.
Qed.

(** X15: [render] leaves the stack of saved canvas states as deep as it found
    it: every [save] of a trail disc or of a particle is undone by the
    [restore] that follows it, and no [restore] finds the stack empty. *)
Theorem render_restores_every_saved_state (w : World) (d : nat) :
  save_depth d (render w) = Some d.
Proof.
  unfold render.
  rewrite (save_depth_app d [ClearRect 0 0 (innerWidth w) (innerHeight w)]).
  cbn [save_depth mbind option_bind].
  rewrite (save_depth_app d (drawConstellationLines w)).
  assert (save_depth d (drawConstellationLines w) = Some d) as ->.
  { apply save_depth_path. unfold drawConstellationLines. cbv zeta.
    apply Forall_app_2; [by repeat constructor|].
    apply Forall_app_2; [|by repeat constructor].
    apply Forall_join, Forall_fmap, Forall_forall. intros [p1 p2] _. cbn.
    destruct (Rltb _ _); by repeat constructor. }
  cbn [mbind option_bind].
  apply save_depth_join, Forall_fmap, Forall_forall. intros p _ d'.
  apply drawParticle_balanced.
Qed.










(** ** Identifiers *)

(** X17: identifiers are never given twice: no method of the engine, [clear]
    included, and no frame or delayed callback lowers the counter from
    which [addParticle] takes the next identifier. *)
Theorem identifiers_are_never_reused (w w' : World) :
  wf w -> host_step w w' -> (particleIdCounter w <= particleIdCounter w')%nat.
Proof.
  intros Hwf Hstep. destruct Hstep as [config w|w|b w|b w|k w Hk|w Hne].
  - rewrite exec_celebrate. destruct (isEnabled w); [|done].
    destruct (celebrate_setup_grows config w (wf_rnd w Hwf)) as (n & Hc & _).
    rewrite exec_start_animation. destruct (animationId _); [lia|].
    destruct (animate_frame (exec (celebrate_setup config) w)) as (-> & _). lia.
  - destruct (clear_state w Hwf) as (_ & _ & _ & _ & _ & _ & -> & _). done.
  - rewrite exec_setEnabled. destruct b; [done|].
    assert (wf (set_enabled false w)) as Hwf' by by destruct Hwf.
    destruct (clear_state _ Hwf') as (_ & _ & _ & _ & _ & _ & -> & _). done.
  - done.
  - unfold fire_timer. destruct (timers w !! k) as [t|]; [|done].
    set (w1 := set_timers (delete k (timers w)) w).
    assert (rnd_ok w1) as Hr by exact (wf_rnd w Hwf).
    destruct (run_callback_effect (t_callback t) w1 Hr) as ((-> & _) & _).
    change (particleIdCounter w1) with (particleIdCounter w). lia.
  - rewrite frame_pending by done.
    by destruct (animate_frame (set_raf [] (rafNext w) w)) as (-> & _).
Qed.

(** ** Reduced motion *)

(** X18: the reduced-motion preference stops new celebrations only: a frame
    does not look at it, so an animation that is running when the
    preference changes plays on until its particles are gone, while
    [isEnabled] answers [false] and [celebrate] does nothing. *)
Theorem reduced_motion_does_not_stop_the_animation (w : World) :
  wf w -> rafQueue w ≠ [] ->
  isEnabled (set_prefersReducedMotion true w) = false /\
  (forall config,
     exec (celebrate config) (set_prefersReducedMotion true w) =
     set_prefersReducedMotion true w) /\
  particles (frame (set_prefersReducedMotion true w)) = particles (frame w) /\
  attractors (frame (set_prefersReducedMotion true w)) = attractors (frame w) /\
  rafQueue (frame (set_prefersReducedMotion true w)) = rafQueue (frame w) /\
  animationId (frame (set_prefersReducedMotion true w)) = animationId (frame w).
Proof.
  intros Hwf Hq.
  assert (isEnabled (set_prefersReducedMotion true w) = false) as Hoff.
  { unfold isEnabled. cbn. apply andb_false_r. }
  split; [exact Hoff|]. split.
  { intros config. by rewrite exec_celebrate, Hoff. }
  assert (wf (set_prefersReducedMotion true w)) as Hwf' by by destruct Hwf.
  rewrite (frame_pending _ Hwf') by done. rewrite (frame_pending w Hwf) by done.
  set (w0 := set_raf [] (rafNext w) w).
  assert (set_raf [] (rafNext (set_prefersReducedMotion true w))
            (set_prefersReducedMotion true w) = set_prefersReducedMotion true w0) as ->
    by done.
  clearbody w0.
  assert (exec animate (set_prefersReducedMotion true w0) =
          set_prefersReducedMotion true (exec animate w0)) as Hcomm;
    [|rewrite Hcomm; set (u := exec animate w0); clearbody u; done].
  rewrite !exec_animate, !exec_schedule_next.
  assert (exec animate_fields (set_prefersReducedMotion true w0) =
          set_prefersReducedMotion true (exec animate_fields w0)) as ->.
  { rewrite !exec_animate_fields. unfold update_lissajous.
    cbn [lissajous attractors set_time set_prefersReducedMotion].
    destruct (lissajous w0) as [l|]; [|reflexivity].
    destruct (3 <=? length (attractors w0))%nat; reflexivity. }
  set (w1 := exec animate_fields w0). clearbody w1.
  assert (update_particles (set_prefersReducedMotion true w1) =
          set_prefersReducedMotion true (update_particles w1)) as ->.
  { reflexivity. }
  set (w2 := update_particles w1). clearbody w2.
  assert (remove_dead (set_prefersReducedMotion true w2) =
          set_prefersReducedMotion true (remove_dead w2)) as -> by done.
  set (w3 := remove_dead w2). clearbody w3.
  cbn [particles attractors set_prefersReducedMotion].
  by destruct (_ || _).
Qed.

(** ** Delayed callbacks *)

Lemma recipe_timers_delay r x y count colors intensity heartRate width t :
  t ∈ recipe_timers r x y count colors intensity heartRate width ->
  r <> Resonance -> 0 <= t_delay t < 2000.
Proof.
  intros Hin Hr. destruct r; cbn [recipe_timers] in Hin; try done;
    try (by apply elem_of_nil in Hin).
  - apply list_elem_of_singleton in Hin as ->. cbn. lra.
  - apply list_elem_of_fmap in Hin as (i & -> & Hi). apply elem_of_seq in Hi. cbn [t_delay].
    assert (0 <= INR i / INR count < 1) as Hq by (apply ratio_bounds; lia).
    unfold Rdiv in *. nra.
  - apply list_elem_of_fmap in Hin as (i & -> & Hi). apply elem_of_seq in Hi. cbn [t_delay].
    assert (0 <= INR i / INR count < 1) as Hq by (apply ratio_bounds; lia).
    unfold Rdiv in *. nra.
Qed.

(** X19: the callbacks that a call of [celebrate] delays are appended to the
    pending ones, and unless the recipe is resonance each of them is due in
    less than two seconds: the ring of a supernova after 100 ms, the
    particles of a cascade spread evenly over 2000 ms and those of an
    emergence over 1500 ms. *)
Theorem delayed_spawns_are_due_within_two_seconds
    (config : PhysicsCelebrationConfig) (r : PhysicsCelebrationType) (w : World) :
  wf w -> isEnabled w = true -> recipe_of_name (cfg_type config) = Some r ->
  r <> Resonance ->
  exists added, timers (exec (celebrate config) w) = timers w ++ added /\
    Forall (fun t => 0 <= t_delay t < 2000) added /\
    (r = Supernova -> Forall (fun t => t_delay t = 100) added) /\
    (r = Cascade -> length added = default 100%nat (cfg_count config)) /\
    (r = Emergence ->
     length added = default 100%nat (cfg_count config) /\
     Forall (fun t => t_delay t < 1500) added).
Proof.
  intros Hwf Hon Hr Hnr.
  eexists. split; [by apply (celebrate_timers config r w)|].
  split; [|split; [|split]].
  - apply Forall_forall. intros t Ht. by eapply recipe_timers_delay.
  - intros ->. cbn [recipe_timers]. by repeat constructor.
  - intros ->. cbn [recipe_timers]. by rewrite length_fmap, length_seq.
  - intros ->. cbn [recipe_timers]. split; [by rewrite length_fmap, length_seq|].
    apply Forall_fmap, Forall_forall. intros i Hi. apply elem_of_seq in Hi. cbn.
    assert (0 <= INR i / INR (default 100%nat (cfg_count config)) < 1) as Hq
      by (apply ratio_bounds; lia).
    unfold Rdiv in *. nra.
Qed.

End Frames.

Section SampleStates.
Context {SF : StableFluids} {FF : FlowField2D}.
Local Open Scope R_scope.

(** A harmony on an idle engine starts the animation loop and leaves its
    Lissajous parameters and three attractors. *)
Lemma harmony_on_idle config w :
  wf w -> isEnabled w = true -> animationId w = None ->
  recipe_of_name (cfg_type config) = Some Harmony ->
  animationId (exec (celebrate config) w) <> None /\
  rafQueue (exec (celebrate config) w) ≠ [] /\
  lissajous (exec (celebrate config) w) = Some baseAttractors /\
  length (attractors (exec (celebrate config) w)) = 3%nat.
Proof.
  intros Hwf Hon Hid Hr. rewrite celebrate_enabled, Hid by done.
  destruct (celebrate_setup_effect config Harmony w (wf_rnd w Hwf) Hr)
    as ((_ & _ & _ & Hs) & Ha & _ & Hl).
  destruct Hs as (Hi & _ & _ & _ & _ & _ & Hq & _).
  rewrite (wf_raf w Hwf), Hid in Hq.
  set (u := exec (celebrate_setup config) w) in *. clearbody u.
  assert (length (attractors (exec animate u)) = 3%nat) as Hlen.
  { rewrite animate_attractors, update_lissajous_length.
    cbn [attractors set_time]. by rewrite Ha. }
  destruct (animate_scheduler u Hq) as [(_ & _ & _ & _ & Hno & _)|(Hrun & Hraf & _ & Hlis & _)].
  - by rewrite Hno in Hlen.
  - rewrite Hrun, Hraf, Hlis, Hl. done.
Qed.

Lemma constellation_centre_on_screen :
  constellation_on_screen 1000 800 0 = true.
Proof.
  unfold constellation_on_screen, constellation_position. cbn [INR].
  rewrite sqrt_0, !Rmult_0_l, !Rmult_0_r.
  unfold Rgtb. repeat (apply andb_true_intro; split); apply Rltb_true; lra.
Qed.

Lemma constellation_of_one colors intensity w :
  rnd_ok w -> innerWidth w = 1000 -> innerHeight w = 800 ->
  exists p, particles (exec (createConstellation 1 colors intensity) w)
              !! particleIdCounter w = Some p.
Proof.
  intros Hrnd Hw Hh.
  destruct (createConstellation_effect 1 colors intensity w Hrnd) as [(_ & Hn & _) _].
  assert (spawned_now Constellation 1 (innerWidth w) (innerHeight w) = 1%nat) as Hone.
  { rewrite Hw, Hh. cbn [spawned_now]. unfold constellation_kept. cbn [seq].
    rewrite filter_cons, filter_nil. rewrite decide_True; [done|].
    apply constellation_centre_on_screen. }
  rewrite Hone in Hn. destruct (Hn (particleIdCounter w)) as (p & Hp & _); [lia|].
  by exists p.
Qed.

End SampleStates.

Section FurtherSamples.
#[local] Existing Instance LoggedFluids.
#[local] Existing Instance LoggedFlow.
Local Open Scope R_scope.

Lemma after_harmony :
  wf (after_celebrate "harmony" 0 0) /\
  isEnabled (after_celebrate "harmony" 0 0) = true /\
  animationId (after_celebrate "harmony" 0 0) <> None /\
  rafQueue (after_celebrate "harmony" 0 0) ≠ [] /\
  lissajous (after_celebrate "harmony" 0 0) = Some baseAttractors /\
  length (attractors (after_celebrate "harmony" 0 0)) = 3%nat.
Proof.
  assert (0 <= 0 < 1) as H0 by lra.
  split; [by apply after_celebrate_wf|]. split; [by apply after_celebrate_isEnabled|].
  rewrite after_celebrate_eq.
  apply (harmony_on_idle (sample_config "harmony" 0) (sample_engine false 0));
    [by apply sample_engine_wf|reflexivity..].
Qed.

Lemma lissajous_outlives_its_harmony_witness :
  wf (after_celebrate "harmony" 0 0) /\
  isEnabled (after_celebrate "harmony" 0 0) = true /\
  animationId (after_celebrate "harmony" 0 0) <> None /\
  recipe_of_name (cfg_type (sample_config "orbit" 6)) <> Some Harmony /\
  lissajous (exec (celebrate (sample_config "orbit" 6)) (after_celebrate "harmony" 0 0)) =
  lissajous (after_celebrate "harmony" 0 0).
Proof.
  destruct after_harmony as (Hwf & Hon & Hrun & _).
  assert (recipe_of_name (cfg_type (sample_config "orbit" 6)) <> Some Harmony) as Hr
    by discriminate.
  split; [exact Hwf|]. split; [exact Hon|]. split; [exact Hrun|]. split; [exact Hr|].
  apply (lissajous_outlives_its_harmony (sample_config "orbit" 6)
           (after_celebrate "harmony" 0 0) Hwf Hon Hrun Hr).
Defined.

Lemma frame_moves_the_lissajous_attractors_witness :
  exists a a',
    wf (after_celebrate "harmony" 0 0) /\
    rafQueue (after_celebrate "harmony" 0 0) ≠ [] /\
    lissajous (after_celebrate "harmony" 0 0) = Some baseAttractors /\
    (3 <= length (attractors (after_celebrate "harmony" 0 0)))%nat /\
    attractors (after_celebrate "harmony" 0 0) !! 0%nat = Some a /\
    attractors (frame (after_celebrate "harmony" 0 0)) !! 0%nat = Some a' /\
    Rabs (a_x a' - innerWidth (after_celebrate "harmony" 0 0) / 2) <= 150.
Proof.
  destruct after_harmony as (Hwf & _ & _ & Hq & Hl & Hlen).
  assert (3 <= length (attractors (after_celebrate "harmony" 0 0)))%nat as Hlen'
    by (rewrite Hlen; apply le_n).
  destruct (lookup_lt_is_Some_2 (attractors (after_celebrate "harmony" 0 0)) 0) as [a Ha];
    [rewrite Hlen; apply Nat.lt_0_succ|].
  destruct (frame_moves_the_lissajous_attractors (after_celebrate "harmony" 0 0)
              baseAttractors 0 a Hwf Hq Hl Hlen' Ha) as (_ & Hmove).
  assert (baseAttractors !! 0%nat =
          Some {| freqX := 3; freqY := 2; phaseX := 0; phaseY := PI / 4 |}) as Hparams
    by reflexivity.
  destruct (Hmove _ (Nat.lt_0_succ 2) Hparams) as (a' & Ha' & _ & _ & _ & _ & _ & Hx & _).
  exists a, a'.
  split; [exact Hwf|]. split; [exact Hq|]. split; [exact Hl|]. split; [exact Hlen'|].
  split; [exact Ha|]. split; [exact Ha'|exact Hx].
Defined.

Lemma constellation_stars_are_on_screen_witness :
  exists p,
    wf (sample_engine false 0) /\
    (particleIdCounter (sample_engine false 0) <= 0)%nat /\
    particles (exec (createConstellation 1 [] 1) (sample_engine false 0)) !! 0%nat = Some p /\
    50 < p_x p < innerWidth (sample_engine false 0) - 50.
Proof.
  assert (wf (sample_engine false 0)) as Hwf by (apply sample_engine_wf; lra).
  destruct (constellation_of_one [] 1 (sample_engine false 0) (wf_rnd _ Hwf) eq_refl eq_refl)
    as [p Hp].
  change (particleIdCounter (sample_engine false 0)) with 0%nat in Hp.
  exists p. split; [exact Hwf|]. split; [apply le_n|]. split; [exact Hp|].
  destruct (constellation_stars_are_on_screen 1 [] 1 (sample_engine false 0) 0 p
              Hwf (le_n 0) Hp) as (Hx & _).
  exact Hx.
Defined.

Lemma vortex_particles_start_on_a_ring_witness :
  exists p,
    wf (sample_engine false 0) /\
    (particleIdCounter (sample_engine false 0) <= 0)%nat /\
    particles (exec (createVortex 500 400 1 [] 1) (sample_engine false 0)) !! 0%nat = Some p /\
    p_vx p * (p_x p - 500) + p_vy p * (p_y p - 400) = 0.
Proof.
  assert (wf (sample_engine false 0)) as Hwf by (apply sample_engine_wf; lra).
  destruct (createVortex_one 500 400 [] 1 (sample_engine false 0)) as (p & Hp & _).
  change (particleIdCounter (sample_engine false 0)) with 0%nat in Hp.
  exists p. split; [exact Hwf|]. split; [apply le_n|]. split; [exact Hp|].
  destruct (vortex_particles_start_on_a_ring 500 400 1 [] 1 (sample_engine false 0) 0 p
              Hwf (le_n 0) Hp) as (radius & speed & _ & _ & _ & _ & Hdot & _).
  exact Hdot.
Defined.

Lemma engine_draws_with_valid_calls_witness :
  reachable (after_celebrate "vortex" 1 (1 / 300)) /\
  Forall valid_call (render (after_celebrate "vortex" 1 (1 / 300))).
Proof.
  destruct after_vortex_one as (Hreach & _).
  split; [exact Hreach|].
  destruct (engine_draws_with_valid_calls (after_celebrate "vortex" 1 (1 / 300)) Hreach)
    as (Hvalid & _).
  exact Hvalid.
Defined.


Lemma identifiers_are_never_reused_witness :
  wf (after_celebrate "vortex" 7 0) /\
  host_step (after_celebrate "vortex" 7 0) (exec clear (after_celebrate "vortex" 7 0)) /\
  (particleIdCounter (after_celebrate "vortex" 7 0) <=
   particleIdCounter (exec clear (after_celebrate "vortex" 7 0)))%nat.
Proof.
  assert (wf (after_celebrate "vortex" 7 0)) as Hwf by (apply after_celebrate_wf; lra).
  split; [exact Hwf|]. split; [apply step_clear|].
  apply (identifiers_are_never_reused (after_celebrate "vortex" 7 0)
           (exec clear (after_celebrate "vortex" 7 0)) Hwf (step_clear _)).
Defined.

Lemma reduced_motion_does_not_stop_the_animation_witness :
  wf (after_celebrate "vortex" 1 (1 / 300)) /\
  rafQueue (after_celebrate "vortex" 1 (1 / 300)) ≠ [] /\
  particles (frame (set_prefersReducedMotion true (after_celebrate "vortex" 1 (1 / 300)))) =
  particles (frame (after_celebrate "vortex" 1 (1 / 300))).
Proof.
  assert (wf (after_celebrate "vortex" 1 (1 / 300))) as Hwf by (apply after_celebrate_wf; lra).
  destruct after_vortex_one as (_ & Hq & _).
  split; [exact Hwf|]. split; [exact Hq|].
  destruct (reduced_motion_does_not_stop_the_animation
              (after_celebrate "vortex" 1 (1 / 300)) Hwf Hq) as (_ & _ & Hp & _).
  exact Hp.
Defined.

Lemma delayed_spawns_are_due_within_two_seconds_witness :
  wf (sample_engine false 0) /\ isEnabled (sample_engine false 0) = true /\
  recipe_of_name (cfg_type (sample_config "cascade" 4)) = Some Cascade /\
  Cascade <> Resonance /\
  exists added,
    timers (exec (celebrate (sample_config "cascade" 4)) (sample_engine false 0)) =
      timers (sample_engine false 0) ++ added /\
    Forall (fun t => 0 <= t_delay t < 2000) added.
Proof.
  assert (wf (sample_engine false 0)) as Hwf by (apply sample_engine_wf; lra).
  assert (Cascade <> Resonance) as Hne by discriminate.
  split; [exact Hwf|]. split; [reflexivity|]. split; [reflexivity|]. split; [exact Hne|].
  destruct (delayed_spawns_are_due_within_two_seconds (sample_config "cascade" 4) Cascade
              (sample_engine false 0) Hwf eq_refl eq_refl Hne) as (added & Heq & Hdue & _).
  exists added. split; [exact Heq|exact Hdue].
Defined.

End FurtherSamples.

Section Rings.
Context {SF : StableFluids} {FF : FlowField2D}.
Local Open Scope R_scope.

(** X20: the particles that [createResonance] adds stand still on four rings
    around the origin, of radius 50, 90, 130 and 170: hearts on the first
    and the third, discs on the others, the pulse of each ring a quarter
    turn after that of the ring inside it. *)
Theorem resonance_particles_stand_on_four_rings
    (x y : R) (count : nat) (colors : list string) (intensity : R) (heartRate : option R)
    (w : World) (i : nat) (p : PhysicsParticle) :
  wf w -> (particleIdCounter w <= i)%nat ->
  particles (exec (createResonance x y count colors intensity heartRate) w) !! i = Some p ->
  exists ring : nat, (ring < 4)%nat /\
    (p_x p - x) * (p_x p - x) + (p_y p - y) * (p_y p - y) =
      (50 + INR ring * 40) * (50 + INR ring * 40) /\
    p_vx p = 0 /\ p_vy p = 0 /\
    p_shape p = (if Nat.even ring then heart else circle) /\
    p_pulsePhase p = INR ring * PI / 2.
Proof.
  intros Hwf Hi Hp.
  pose proof (createResonance_effect x y count colors intensity heartRate w (wf_rnd w Hwf))
    as [Hg _].
  pose proof (grows_wf _ _ _ Hwf Hg) as Hwf'.
  set (Q := fun p : PhysicsParticle =>
              exists ring : nat, (ring < 4)%nat /\
                (p_x p - x) * (p_x p - x) + (p_y p - y) * (p_y p - y) =
                  (50 + INR ring * 40) * (50 + INR ring * 40) /\
                p_vx p = 0 /\ p_vy p = 0 /\
                p_shape p = (if Nat.even ring then heart else circle) /\
                p_pulsePhase p = INR ring * PI / 2).
  apply (newer_particles Q (particleIdCounter w) _ i p Hwf'); [|exact Hp|exact Hi].
  match goal with
  | |- all_particles ?Q' (exec ?m w) =>
      assert (keeps Q' m) as Hk;
        [|exact (proj1 (Hk w (wf_rnd w Hwf) (older_particles Q w Hwf)))]
  end.
  unfold createResonance. repeat keeps_step. apply keeps_addParticle. intros. right.
  unfold Q, new_particle.
  cbn [p_x p_y p_vx p_vy p_shape p_pulsePhase c_x c_y c_vx c_vy c_shape c_pulsePhase
       default from_option Datatypes.id].
  exists a0. apply elem_of_seq in H.
  set (angle := INR a1 / INR (count `div` 4) * PI * 2).
  pose proof (sin2_cos2_1 angle) as Hsc.
  set (s := sin angle) in *. set (c := cos angle) in *.
  split; [lia|]. split; [|split; [done|split; [done|split; [|done]]]].
  - transitivity ((50 + INR a0 * 40) * (50 + INR a0 * 40) * (s * s + c * c)); [ring|].
    rewrite Hsc. ring.
  - assert (a0 = 0 \/ a0 = 1 \/ a0 = 2 \/ a0 = 3)%nat as [->|[->|[->| ->]]] by lia; done.
Qed.

(** ** The fluid grid *)

Lemma Rceil_bounds a : a <= Rceil a < a + 1.
Proof.
  unfold Rceil. destruct (archimed (- a)) as [H1 H2]. lra.
Qed.

Lemma Rceil_integer a : exists k : Z, Rceil a = IZR k.
Proof.
  unfold Rceil. exists (- (up (- a) - 1))%Z.
  rewrite opp_IZR, minus_IZR. reflexivity.
Qed.

(** X21: the constructor builds the fluid on a grid of cells of 20 by 20 that
    covers the window and not a whole cell more in either direction, and the
    flow field on the window itself; the engine starts enabled, with no
    particle, no attractor and no frame requested. *)
Theorem new_engine_covers_the_window
    (width height : R) (reducedMotion : bool) (random_values : nat -> R) :
  exists (columns rows : Z),
    fluid (new_engine width height reducedMotion random_values) =
      Some (fluid_new (IZR columns) (IZR rows) 0.0001 0.00001) /\
    width <= 20 * IZR columns < width + 20 /\
    height <= 20 * IZR rows < height + 20 /\
    flowField (new_engine width height reducedMotion random_values) =
      Some (flow_new width height 20) /\
    isEnabled (new_engine width height reducedMotion random_values) = negb reducedMotion /\
    particles (new_engine width height reducedMotion random_values) = ∅ /\
    attractors (new_engine width height reducedMotion random_values) = [] /\
    animationId (new_engine width height reducedMotion random_values) = None.
Proof.
  destruct (Rceil_integer (width / 20)) as [columns Hc].
  destruct (Rceil_integer (height / 20)) as [rows Hr].
  exists columns, rows. cbn [fluid flowField new_engine].
  rewrite <- Hc, <- Hr.
  pose proof (Rceil_bounds (width / 20)). pose proof (Rceil_bounds (height / 20)).
  repeat split; try done; lra.
Qed.

End Rings.

Section RingSamples.
#[local] Existing Instance LoggedFluids.
#[local] Existing Instance LoggedFlow.
Local Open Scope R_scope.

Lemma resonance_of_four colors intensity heartRate :
  exists p,
    particles (exec (createResonance 500 400 4 colors intensity heartRate)
                 (sample_engine false 0)) !! 0%nat = Some p.
Proof.
  assert (wf (sample_engine false 0)) as Hwf by (apply sample_engine_wf; lra).
  destruct (createResonance_effect 500 400 4 colors intensity heartRate
              (sample_engine false 0) (wf_rnd _ Hwf)) as [(_ & Hn & _) _].
  destruct (Hn 0%nat) as (p & Hp & _).
  - change (particleIdCounter (sample_engine false 0)) with 0%nat.
    cbn [spawned_now]. change (4 `div` 4)%nat with 1%nat. lia.
  - by exists p.
Qed.

Lemma resonance_particles_stand_on_four_rings_witness :
  exists p,
    wf (sample_engine false 0) /\
    (particleIdCounter (sample_engine false 0) <= 0)%nat /\
    particles (exec (createResonance 500 400 4 [] 1 None) (sample_engine false 0))
      !! 0%nat = Some p /\
    p_vx p = 0.
Proof.
  assert (wf (sample_engine false 0)) as Hwf by (apply sample_engine_wf; lra).
  destruct (resonance_of_four [] 1 None) as [p Hp].
  exists p. split; [exact Hwf|]. split; [apply le_n|]. split; [exact Hp|].
  destruct (resonance_particles_stand_on_four_rings 500 400 4 [] 1 None
              (sample_engine false 0) 0 p Hwf (le_n 0) Hp)
    as (ring & _ & _ & Hvx & _).
  exact Hvx.
Defined.

End RingSamples.

(** * ConfettiService *)

Section ServiceProperties.
Context {SF : StableFluids} {FF : FlowField2D}.
Local Open Scope R_scope.

Lemma lookup_key_is_Some {A} (k : string) (l : list (string * A)) :
  is_Some (lookup_key k l) <-> k ∈ l.*1.
Proof.
  induction l as [|[k' v] l IH].
  - cbn. split; [by intros [? ?]|by intros ?%elem_of_nil].
  - cbn [lookup_key fmap list_fmap fst]. destruct (String.eqb_spec k k') as [->|Hne].
    + split; [intros _; left|by eauto].
    + rewrite IH. split; [by right|]. by intros [?|?]%elem_of_cons.
Qed.

Lemma recipe_is_physics_type (type : string) (r : PhysicsCelebrationType) :
  recipe_of_name type = Some r -> isPhysicsType type = true.
Proof.
  intros Hr. assert (is_Some (recipe_of_name type)) as Hs by by rewrite Hr.
  unfold recipe_of_name in Hs. apply lookup_key_is_Some in Hs.
  unfold isPhysicsType. rewrite bool_decide_eq_true. exact Hs.
Qed.

(** X22: the names that [ConfettiService] sends to the physics engine are
    exactly the names for which the [switch] of the engine's [celebrate]
    has a case. *)
Theorem physics_types_are_the_engine_recipes (name : string) :
  isPhysicsType name = true <-> is_Some (recipe_of_name name).
Proof.
  unfold isPhysicsType, recipe_of_name. rewrite bool_decide_eq_true, lookup_key_is_Some.
  done.
Qed.

Lemma emotion_type_cases valence arousal heartRate e :
  exists type r,
    ((emotion_type valence arousal heartRate e).2 = e \/
     (emotion_type valence arousal heartRate e).2 = set_rndPos (S (rndPos e)) e) /\
    (emotion_type valence arousal heartRate e).1 = type /\
    recipe_of_name type = Some r /\ r <> Helix /\
    (r = Resonance <-> exists h, heartRate = Some h /\ 0 < h) /\
    (0.7 < arousal -> (emotion_type valence arousal heartRate e).2 = e).
Proof.
  unfold emotion_type.
  assert (forall (t : string) (r : PhysicsCelebrationType) e',
            (e' = e \/ e' = set_rndPos (S (rndPos e)) e) ->
            (0.7 < arousal -> e' = e) ->
            recipe_of_name t = Some r -> r <> Helix -> r <> Resonance ->
            exists type r0,
              (e' = e \/ e' = set_rndPos (S (rndPos e)) e) /\
              match heartRate with
              | Some h => if Rgtb h 0 then "resonance"%string else t
              | None => t
              end = type /\
              recipe_of_name type = Some r0 /\ r0 <> Helix /\
              (r0 = Resonance <-> exists h, heartRate = Some h /\ 0 < h) /\
              (0.7 < arousal -> e' = e)) as Hfinish.
  { intros t r e' He' Ha Ht Hh Hr. destruct heartRate as [h|].
    - destruct (Rgtb h 0) eqn:Hgt.
      + exists "resonance"%string, Resonance. repeat split; try done.
        intros _. exists h. split; [done|]. by apply Rltb_true in Hgt.
      + exists t, r. repeat split; try done.
        intros (h' & [= <-] & Hpos). unfold Rgtb in Hgt. apply Rltb_false in Hgt. lra.
    - exists t, r. repeat split; try done. by intros (h' & ? & _). }
  destruct (Rgtb arousal 0.7) eqn:Hhi.
  - destruct (Rgtb valence 0);
      (eapply Hfinish; [by left|done|reflexivity|done|done]).
  - assert (0.7 < arousal -> False) as Hno.
    { intros ?. unfold Rgtb in Hhi. apply Rltb_false in Hhi. lra. }
    destruct (Rltb arousal 0.3).
    + destruct (Rgtb valence 0);
        (eapply Hfinish; [by left|done|reflexivity|done|done]).
    + destruct (Rgtb valence 0.5); [|destruct (Rgtb valence 0)];
        unfold mbind, M_bind, mret, M_ret, random; cbv beta iota zeta;
        destruct (Rgtb (rnd e (rndPos e)) 0.5);
        (eapply Hfinish; [by right|done|reflexivity|done|done]).
Qed.

(** X23: on an enabled service [celebrateEmotion] always ends in
    [celebratePhysics] with a recipe that the engine knows, never helix;
    the recipe is resonance exactly when a positive heart rate is given;
    the intensity defaults to 0.7, the count and the colours are left to
    the engine, which then takes the palette of the emotion; and at most
    one random number is drawn for the choice, none when the arousal is
    above 0.7. *)
Theorem celebrateEmotion_chooses_a_recipe (request : EmotionRequest) (s : ConfettiService) :
  svc_isEnabled s = true ->
  exists type r e,
    svc_celebrateEmotion request s =
      svc_celebratePhysics (emotion_config type request) (set_svc_engine e s) /\
    recipe_of_name type = Some r /\ r <> Helix /\
    (r = Resonance <-> exists h, er_heartRate request = Some h /\ 0 < h) /\
    (e = svc_engine s \/ e = set_rndPos (S (rndPos (svc_engine s))) (svc_engine s)) /\
    (0.7 < default 0.5 (er_arousal request) -> e = svc_engine s).
Proof.
  intros Hon. unfold svc_celebrateEmotion. rewrite Hon. cbn [negb]. cbv zeta.
  destruct (emotion_type_cases (default 0 (er_valence request))
              (default 0.5 (er_arousal request)) (er_heartRate request) (svc_engine s))
    as (type & r & He & Ht & Hr & Hh & Hres & Ha).
  destruct (emotion_type _ _ _ _) as [type' e].
  cbn [fst snd] in *. subst type'.
  exists type, r, e. done.
Qed.

Lemma svc_setEnabled_false s :
  wf (svc_engine s) ->
  particles (svc_engine (svc_setEnabled false s)) = ∅ /\
  attractors (svc_engine (svc_setEnabled false s)) = [] /\
  animationId (svc_engine (svc_setEnabled false s)) = None /\
  rafQueue (svc_engine (svc_setEnabled false s)) = [] /\
  timers (svc_engine (svc_setEnabled false s)) = timers (svc_engine s) /\
  enabled (svc_engine (svc_setEnabled false s)) = false.
Proof.
  intros Hwf. unfold svc_setEnabled. cbn [svc_engine]. rewrite exec_setEnabled.
  assert (wf (set_enabled false (svc_engine s))) as Hwf' by by destruct Hwf.
  destruct (clear_state _ Hwf') as (Hp & Ha & Hi & Hq & _ & Ht & _ & He).
  done.
Qed.

(** X24: [ConfettiService.setEnabled(false)] switches the service and the
    engine off and clears the engine: no particle, no attractor and no
    requested frame are left, while the delayed callbacks stay pending.
    From then on [celebrate], [celebratePhysics] and [celebrateEmotion]
    change nothing, and no random number is drawn, until
    [setEnabled(true)], which switches both on again without spawning
    anything. *)
Theorem disabled_service_is_inert
    (presets : ConfettiService -> string -> option (ConfettiService -> ConfettiService))
    (s s' : ConfettiService) :
  wf (svc_engine s) -> s' = svc_setEnabled false s ->
  particles (svc_engine s') = ∅ /\ attractors (svc_engine s') = [] /\
  animationId (svc_engine s') = None /\ rafQueue (svc_engine s') = [] /\
  timers (svc_engine s') = timers (svc_engine s) /\
  svc_isEnabled s' = false /\ isEnabled (svc_engine s') = false /\
  (forall type, svc_celebrate presets type s' = s') /\
  (forall config, svc_celebratePhysics config s' = s') /\
  (forall request, svc_celebrateEmotion request s' = s') /\
  svc_enabled (svc_setEnabled true s') = true /\
  enabled (svc_engine (svc_setEnabled true s')) = true /\
  particles (svc_engine (svc_setEnabled true s')) = ∅.
Proof.
  intros Hwf Hs'.
  destruct (svc_setEnabled_false s Hwf) as (Hp & Ha & Hi & Hq & Ht & He).
  rewrite <- Hs' in Hp, Ha, Hi, Hq, Ht, He.
  assert (svc_isEnabled s' = false) as Hoff by by rewrite Hs'.
  clear Hs'.
  split; [exact Hp|]. split; [exact Ha|]. split; [exact Hi|]. split; [exact Hq|].
  split; [exact Ht|]. split; [exact Hoff|].
  split; [unfold isEnabled; by rewrite He|].
  split; [intros type; unfold svc_celebrate; by rewrite Hoff|].
  split; [intros config; unfold svc_celebratePhysics; by rewrite Hoff|].
  split; [intros request; unfold svc_celebrateEmotion; by rewrite Hoff|].
  split; [reflexivity|].
  assert (svc_engine (svc_setEnabled true s') = set_enabled true (svc_engine s')) as ->.
  { unfold svc_setEnabled at 1. cbn [svc_engine]. by rewrite exec_setEnabled. }
  split; [reflexivity|]. rewrite <- Hp. reflexivity.
Qed.

(** X25: with the physics preference off, [celebrate] with a name that has
    no classic preset, as is the case of the twelve physics recipes, does
    nothing at all; [resonance] and [celebratePhysics] do not look at the
    preference and still run the engine's [celebrate]. *)
Theorem physics_preference_gates_only_celebrate
    (presets : ConfettiService -> string -> option (ConfettiService -> ConfettiService))
    (type : string) (heartRate : option R) (s : ConfettiService) :
  svc_isEnabled s = true -> svc_preferPhysics s = false ->
  presets s type = None ->
  svc_celebrate presets type s = s /\
  svc_engine (svc_resonance heartRate s) =
    exec (celebrate {| cfg_type := "resonance"; cfg_origin := None; cfg_count := None;
                       cfg_colors := None; cfg_intensity := None;
                       cfg_heartRate := heartRate; cfg_emotionContext := None |})
      (svc_engine s) /\
  (forall config,
     svc_engine (svc_celebratePhysics config s) = exec (celebrate config) (svc_engine s)).
Proof.
  intros Hon Hpref Hnone. split; [|split].
  - unfold svc_celebrate, svc_isPhysicsEnabled. rewrite Hon, Hpref, Hnone.
    cbn [negb andb]. by rewrite andb_false_r.
  - unfold svc_resonance, svc_celebratePhysics. by rewrite Hon.
  - intros config. unfold svc_celebratePhysics. by rewrite Hon.
Qed.

Lemma spawned_now_100 r width height :
  spawned_now r 100 width height =
  match r with
  | Vortex | Harmony | Nebula | Aurora | Resonance | Helix => 100
  | Supernova => 60
  | Orbit => 99
  | Bloom => 96
  | Cascade | Emergence => 0
  | Constellation => constellation_kept width height 100
  end%nat.
Proof.
  destruct r; try reflexivity.
  cbn [spawned_now]. rewrite count_up_burst by lia. reflexivity.
Qed.

(** X26: with the physics preference on, [ConfettiService.celebrate] with the
    name of a recipe is the engine's [celebrate({ type })]; on an idle
    engine without particles it therefore returns with the particles that
    the recipe makes of the default count of 100: a hundred for vortex,
    harmony, nebula, aurora, resonance and helix, 99 for orbit, 96 for
    bloom, 60 for supernova, none yet for cascade and emergence, and the
    on-screen stars among the first hundred for constellation. *)
Theorem service_celebrate_spawns_the_default_count
    (presets : ConfettiService -> string -> option (ConfettiService -> ConfettiService))
    (type : string) (r : PhysicsCelebrationType) (s : ConfettiService) :
  svc_isEnabled s = true -> svc_preferPhysics s = true ->
  wf (svc_engine s) -> isEnabled (svc_engine s) = true -> particles (svc_engine s) = ∅ ->
  recipe_of_name type = Some r ->
  svc_engine (svc_celebrate presets type s) =
    exec (celebrate (config_of_type type)) (svc_engine s) /\
  size (particles (svc_engine (svc_celebrate presets type s))) =
  match r with
  | Vortex | Harmony | Nebula | Aurora | Resonance | Helix => 100
  | Supernova => 60
  | Orbit => 99
  | Bloom => 96
  | Cascade | Emergence => 0
  | Constellation =>
      constellation_kept (innerWidth (svc_engine s)) (innerHeight (svc_engine s)) 100
  end%nat.
Proof.
  intros Hon Hpref Hwf Heng Hempty Hr.
  assert (isPhysicsType type = true) as Hphys.
  { exact (recipe_is_physics_type type r Hr). }
  assert (svc_engine (svc_celebrate presets type s) =
          exec (celebrate (config_of_type type)) (svc_engine s)) as Heq.
  { unfold svc_celebrate, svc_isPhysicsEnabled, svc_celebratePhysics.
    by rewrite Hon, Hphys, Hpref. }
  split; [exact Heq|]. rewrite Heq.
  rewrite (celebrate_size_fresh (config_of_type type) r) by done.
  apply spawned_now_100.
Qed.

End ServiceProperties.

Section ServiceSamples.
#[local] Existing Instance LoggedFluids.
#[local] Existing Instance LoggedFlow.
Local Open Scope R_scope.

Lemma sample_service_wf b : wf (svc_engine (sample_service b)).
Proof. apply sample_engine_wf. lra. Qed.

Lemma celebrateEmotion_chooses_a_recipe_witness :
  svc_isEnabled (sample_service true) = true /\
  exists type r e,
    svc_celebrateEmotion
      {| er_emotion := "joy"; er_intensity := None; er_valence := None;
         er_arousal := None; er_heartRate := Some 72 |} (sample_service true) =
    svc_celebratePhysics
      (emotion_config type
         {| er_emotion := "joy"; er_intensity := None; er_valence := None;
            er_arousal := None; er_heartRate := Some 72 |})
      (set_svc_engine e (sample_service true)) /\
    recipe_of_name type = Some r /\ r <> Helix.
Proof.
  split; [reflexivity|].
  destruct (celebrateEmotion_chooses_a_recipe
              {| er_emotion := "joy"; er_intensity := None; er_valence := None;
                 er_arousal := None; er_heartRate := Some 72 |}
              (sample_service true) eq_refl)
    as (type & r & e & Heq & Hr & Hh & _).
  exists type, r, e. split; [exact Heq|]. split; [exact Hr|exact Hh].
Defined.

Lemma disabled_service_is_inert_witness :
  wf (svc_engine (sample_service true)) /\
  svc_celebrate no_presets "vortex" (svc_setEnabled false (sample_service true)) =
  svc_setEnabled false (sample_service true).
Proof.
  pose proof (sample_service_wf true) as Hwf. split; [exact Hwf|].
  destruct (disabled_service_is_inert no_presets (sample_service true)
              (svc_setEnabled false (sample_service true)) Hwf eq_refl)
    as (_ & _ & _ & _ & _ & _ & _ & Hc & _).
  apply Hc.
Defined.

Lemma physics_preference_gates_only_celebrate_witness :
  svc_isEnabled (sample_service false) = true /\
  svc_preferPhysics (sample_service false) = false /\
  no_presets (sample_service false) "vortex" = None /\
  svc_celebrate no_presets "vortex" (sample_service false) = sample_service false.
Proof.
  split; [reflexivity|]. split; [reflexivity|]. split; [reflexivity|].
  destruct (physics_preference_gates_only_celebrate no_presets "vortex" None
              (sample_service false) eq_refl eq_refl eq_refl) as (Hc & _).
  exact Hc.
Defined.

Lemma service_celebrate_spawns_the_default_count_witness :
  svc_isEnabled (sample_service true) = true /\
  svc_preferPhysics (sample_service true) = true /\
  wf (svc_engine (sample_service true)) /\
  isEnabled (svc_engine (sample_service true)) = true /\
  particles (svc_engine (sample_service true)) = ∅ /\
  recipe_of_name "orbit" = Some Orbit /\
  size (particles (svc_engine (svc_celebrate no_presets "orbit" (sample_service true)))) =
  99%nat.
Proof.
  pose proof (sample_service_wf true) as Hwf.
  split; [reflexivity|]. split; [reflexivity|]. split; [exact Hwf|].
  split; [reflexivity|]. split; [reflexivity|]. split; [reflexivity|].
  destruct (service_celebrate_spawns_the_default_count no_presets "orbit" Orbit
              (sample_service true) eq_refl eq_refl Hwf eq_refl eq_refl eq_refl)
    as (_ & Hsize).
  exact Hsize.
Defined.

End ServiceSamples.

(** * The animation loop *)

Section Loop.
Context {SF : StableFluids} {FF : FlowField2D}.
Local Open Scope R_scope.

(** X27: the engine never runs two animation loops: in every state that it
    can reach at most one frame is requested, the one whose handle
    [animationId] holds, and a handle is never one that
    [requestAnimationFrame] will give again. *)
Theorem at_most_one_frame_is_requested (w : World) :
  reachable w ->
  (length (rafQueue w) <= 1)%nat /\
  (animationId w = None <-> rafQueue w = []) /\
  (forall i, animationId w = Some i -> rafQueue w = [i] /\ (i < rafNext w)%nat).
Proof.
  intros Hr. pose proof (reachable_wf w Hr) as Hwf.
  pose proof (wf_raf w Hwf) as Hq. pose proof (wf_raf_next w Hwf) as Hn.
  destruct (animationId w) as [i|]; rewrite Hq; cbn [length].
  - split; [lia|]. split; [done|]. intros j [= <-]. split; [done|]. by apply Hn.
  - split; [lia|]. done.
Qed.

(** Firing delayed callbacks leaves the scheduler and the clock alone, and
    the particles that they add are as [addParticle] made them. *)
Lemma fire_timers_idle (ks : list nat) (w : World) :
  wf w -> animationId w = None ->
  all_particles (fun p => p_life p = p_maxLife p /\ p_opacity p = 1) w ->
  wf (foldl (fun w k => fire_timer k w) w ks) /\
  animationId (foldl (fun w k => fire_timer k w) w ks) = None /\
  time (foldl (fun w k => fire_timer k w) w ks) = time w /\
  all_particles (fun p => p_life p = p_maxLife p /\ p_opacity p = 1)
    (foldl (fun w k => fire_timer k w) w ks).
Proof.
  revert w. induction ks as [|k ks IH]; intros w Hwf Hid Hall; [done|].
  cbn [foldl].
  assert (animationId (fire_timer k w) = None /\ time (fire_timer k w) = time w /\
          all_particles (fun p => p_life p = p_maxLife p /\ p_opacity p = 1)
            (fire_timer k w)) as (Hid' & Ht' & Hall').
  { destruct (timers w !! k) as [t|] eqn:Hk.
    - destruct (fire_timer_effect k t w Hwf Hk) as [(Hc & Hnew & Hold & Hs) _].
      destruct Hs as (Ha & Ht & _).
      split; [by rewrite Ha|]. split; [by rewrite Ht|].
      intros i p Hp.
      destruct (decide (particleIdCounter w <= i <
                        particleIdCounter w + spawned_later (t_callback t))%nat) as [Hi|Hi].
      + destruct (Hnew i Hi) as (p' & Hp' & _ & Ho & Hl & _).
        rewrite Hp in Hp'. by injection Hp' as <-.
      + rewrite (Hold i Hi) in Hp. exact (Hall i p Hp).
    - unfold fire_timer. rewrite Hk. done. }
  destruct (IH (fire_timer k w) (fire_timer_wf k w Hwf) Hid' Hall') as (H1 & H2 & H3 & H4).
  split; [exact H1|]. split; [exact H2|]. split; [by rewrite H3|exact H4].
Qed.

(** X28: a cascade or an emergence on an idle engine without particles does
    not get its animation loop: [celebrate] runs one tick, finds nothing to
    animate and asks for no frame, and the callbacks that add the particles
    later do not ask for one either.  Whatever callbacks have fired, no
    frame is requested, nothing is drawn, the clock stands still and every
    particle is as [addParticle] made it; the first callback of the recipe
    does add its particle. *)
Theorem delayed_recipes_never_start_the_loop
    (config : PhysicsCelebrationConfig) (r : PhysicsCelebrationType) (w : World)
    (ks : list nat) (w' : World) :
  wf w -> isEnabled w = true -> animationId w = None -> particles w = ∅ ->
  recipe_of_name (cfg_type config) = Some r -> r = Cascade \/ r = Emergence ->
  w' = foldl (fun w k => fire_timer k w) (exec (celebrate config) w) ks ->
  animationId w' = None /\ rafQueue w' = [] /\ frame w' = w' /\ drawn_in_frame w' = [] /\
  time w' = time w + 1 /\
  (forall i p, particles w' !! i = Some p -> p_life p = p_maxLife p /\ p_opacity p = 1) /\
  particles (exec (celebrate config) w) = ∅ /\
  ((0 < default 100 (cfg_count config))%nat ->
   size (particles (fire_timer (length (timers w)) (exec (celebrate config) w))) = 1%nat).
Proof.
  intros Hwf Hon Hid Hempty Hr Hkind Hw'.
  set (w1 := exec (celebrate config) w) in *.
  assert (wf w1) as Hwf1 by by apply celebrate_wf.
  assert (particles w1 = ∅) as Hp1.
  { apply map_size_empty_inv. subst w1.
    rewrite (celebrate_size_fresh config r w Hwf Hon Hempty Hr).
    by destruct Hkind as [-> | ->]. }
  assert (attractors w1 = []) as Ha1.
  { subst w1. pose proof (celebrate_attractors config r w Hwf Hon Hr) as Ha.
    cbv zeta in Ha. rewrite Ha, Hid. by destruct Hkind as [-> | ->]; destruct (lissajous w). }
  destruct (celebrate_on_idle config w Hwf Hon Hid) as (Ht1 & _ & _ & Hidle & _).
  fold w1 in Ht1, Hidle. specialize (Hidle Hp1 Ha1).
  assert (all_particles (fun p => p_life p = p_maxLife p /\ p_opacity p = 1) w1) as Hall1.
  { intros i p Hp. by rewrite Hp1, lookup_empty in Hp. }
  destruct (fire_timers_idle ks w1 Hwf1 Hidle Hall1) as (Hwf' & Hid' & Ht' & Hall').
  rewrite <- Hw' in Hwf', Hid', Ht', Hall'. clear Hw'.
  assert (rafQueue w' = []) as Hq' by by rewrite (wf_raf w' Hwf'), Hid'.
  split; [exact Hid'|]. split; [exact Hq'|].
  split; [unfold frame; by rewrite Hq'|]. split; [unfold drawn_in_frame; by rewrite Hq'|].
  split; [by rewrite Ht', Ht1|]. split; [exact Hall'|]. split; [exact Hp1|].
  intros Hcount.
  pose proof (celebrate_timers config r w Hwf Hon Hr) as Htm. fold w1 in Htm.
  set (count := default 100%nat (cfg_count config)) in *.
  assert (exists t, timers w1 !! length (timers w) = Some t /\ spawned_later (t_callback t) = 1%nat)
    as (t & Hk & Hone).
  { rewrite Htm. rewrite lookup_app_r by lia. rewrite Nat.sub_diag.
    destruct Hkind as [-> | ->]; cbn [recipe_timers];
      (destruct count as [|n]; [lia|]); cbn [seq fmap list_fmap lookup list_lookup];
      eexists; (split; [reflexivity|reflexivity]). }
  destruct (fire_timer_size (length (timers w)) t w1 Hwf1 Hk) as (Hsize & _).
  rewrite Hsize, Hp1, map_size_empty, Hone. reflexivity.
Qed.

End Loop.

Section LoopSamples.
#[local] Existing Instance LoggedFluids.
#[local] Existing Instance LoggedFlow.
Local Open Scope R_scope.

Lemma at_most_one_frame_is_requested_witness :
  reachable (after_celebrate "vortex" 1 (1 / 300)) /\
  (length (rafQueue (after_celebrate "vortex" 1 (1 / 300))) <= 1)%nat.
Proof.
  assert (reachable (after_celebrate "vortex" 1 (1 / 300))) as Hr
    by (apply after_celebrate_reachable; lra).
  split; [exact Hr|].
  exact (proj1 (at_most_one_frame_is_requested _ Hr)).
Defined.

Lemma delayed_recipes_never_start_the_loop_witness :
  wf (sample_engine false 0) /\ isEnabled (sample_engine false 0) = true /\
  animationId (sample_engine false 0) = None /\ particles (sample_engine false 0) = ∅ /\
  recipe_of_name (cfg_type (sample_config "cascade" 1)) = Some Cascade /\
  (Cascade = Cascade \/ Cascade = Emergence) /\
  animationId (foldl (fun w k => fire_timer k w)
                 (exec (celebrate (sample_config "cascade" 1)) (sample_engine false 0))
                 [0%nat]) = None /\
  size (particles (fire_timer (length (timers (sample_engine false 0)))
                     (exec (celebrate (sample_config "cascade" 1))
                        (sample_engine false 0)))) = 1%nat.
Proof.
  assert (wf (sample_engine false 0)) as Hwf by (apply sample_engine_wf; lra).
  assert (isEnabled (sample_engine false 0) = true) as Hon by reflexivity.
  assert (animationId (sample_engine false 0) = None) as Hid by reflexivity.
  assert (particles (sample_engine false 0) = ∅) as Hp by reflexivity.
  assert (recipe_of_name (cfg_type (sample_config "cascade" 1)) = Some Cascade) as Hr
    by reflexivity.
  split; [exact Hwf|]. split; [exact Hon|]. split; [exact Hid|]. split; [exact Hp|].
  split; [exact Hr|]. split; [by left|].
  destruct (delayed_recipes_never_start_the_loop (sample_config "cascade" 1) Cascade
              (sample_engine false 0) [0%nat] _ Hwf Hon Hid Hp Hr (or_introl eq_refl) eq_refl)
    as (Hidle & _ & _ & _ & _ & _ & _ & Hone).
  split; [exact Hidle|]. apply Hone. apply Nat.lt_0_1.
Defined.

End LoopSamples.

(** * Unknown names while the loop is running *)

Section UnknownNames.
Context {SF : StableFluids} {FF : FlowField2D}.
Local Open Scope R_scope.

Lemma celebrate_unknown_running config w :
  isEnabled w = true -> animationId w <> None -> attractors w = [] ->
  recipe_of_name (cfg_type config) = None ->
  exec (celebrate config) w = w.
Proof.
  intros Hon Hid Ha Hr.
  rewrite exec_celebrate, Hon, celebrate_setup_unknown by done.
  rewrite exec_start_animation. cbn [animationId set_attractors].
  destruct (animationId w); [|done].
  rewrite <- Ha. apply set_attractors_id.
Qed.

Lemma celebrate_starts_the_loop config r w :
  wf w -> isEnabled w = true -> particles w = ∅ ->
  recipe_of_name (cfg_type config) = Some r ->
  (0 < spawned_now r (default 100%nat (cfg_count config)) (innerWidth w) (innerHeight w))%nat ->
  animationId (exec (celebrate config) w) <> None.
Proof.
  intros Hwf Hon Hp Hr Hn Hid.
  destruct (celebrate_idle_after config w Hwf Hon Hid) as (Hp' & _).
  pose proof (celebrate_size_fresh config r w Hwf Hon Hp Hr) as Hs.
  rewrite Hp', map_size_empty in Hs. lia.
Qed.

End UnknownNames.

Section UnknownNameSamples.
#[local] Existing Instance LoggedFluids.
#[local] Existing Instance LoggedFlow.
Local Open Scope R_scope.

(** After [celebrate({ type: 'aurora', count: 4 })] the animation loop is
    running and no attractor is installed: a call with the name
    ['fireworks'] then changes nothing at all, although the engine is
    enabled. *)
Lemma unknown_recipe_on_a_running_loop :
  isEnabled (after_celebrate "aurora" 4 0) = true /\
  animationId (after_celebrate "aurora" 4 0) <> None /\
  attractors (after_celebrate "aurora" 4 0) = [] /\
  exec (celebrate (sample_config "fireworks" 0)) (after_celebrate "aurora" 4 0) =
  after_celebrate "aurora" 4 0.
Proof.
  assert (0 <= 0 < 1) as H0 by lra.
  assert (wf (sample_engine false 0)) as Hwf by by apply sample_engine_wf.
  pose proof (after_celebrate_isEnabled "aurora" 4 0 H0) as Hon.
  assert (isEnabled (sample_engine false 0) = true) as Hon0 by reflexivity.
  assert (particles (sample_engine false 0) = ∅) as Hp0 by reflexivity.
  assert (recipe_of_name (cfg_type (sample_config "aurora" 4)) = Some Aurora) as Hr
    by reflexivity.
  assert (recipe_of_name (cfg_type (sample_config "fireworks" 0)) = None) as Hu
    by reflexivity.
  pose proof (celebrate_attractors (sample_config "aurora" 4) Aurora
                (sample_engine false 0) Hwf Hon0 Hr) as Ha.
  pose proof (celebrate_starts_the_loop (sample_config "aurora" 4) Aurora
                (sample_engine false 0) Hwf Hon0 Hp0 Hr) as Hid.
  rewrite <- after_celebrate_eq in Ha, Hid.
  assert (attractors (after_celebrate "aurora" 4 0) = []) as Ha' by exact Ha.
  assert (animationId (after_celebrate "aurora" 4 0) <> None) as Hid'.
  { apply Hid. apply Nat.lt_0_succ. }
  clear Ha Hid.
  split; [exact Hon|]. split; [exact Hid'|]. split; [exact Ha'|].
  exact (celebrate_unknown_running _ _ Hon Hid' Ha' Hu).
Qed.

End UnknownNameSamples.
